(** * WebAuthn varsig: varint codec, envelope codec, structural verifier,
      base64url wrapping and did:key derivation.

    Shallow embedding of
      - web/src/lib/webauthn-varsig/utils.ts
      - web/src/lib/webauthn-varsig/multicodec.ts
      - web/src/lib/webauthn-varsig/encoder.ts
      - web/src/lib/webauthn-varsig/decoder.ts
      - web/src/lib/webauthn-varsig/verifier.ts
      - the did:key helpers of webauthn-ed25519-signer.ts and of the
        hardware delegation service
      - createMockAuthenticatorData of the unit tests' mock data.

    JavaScript numbers that the code uses are integers; they are modelled
    as [Z].  The bitwise operators work on 32-bit integers and are written
    out with their wrap-around.  A [Uint8Array] is a [list byte]. *)

From Equations Require Import Equations.
From Stdlib Require Import ZArith List Lia Bool.
From Stdlib Require Import Strings.Byte Strings.Ascii Strings.String.
Import ListNotations.
Local Open Scope Z_scope.

Set Implicit Arguments.

(* ===================================================================== *)
(** * Part I.  The program *)
(* ===================================================================== *)

(* ===================================================================== *)
(** ** ECMAScript integer primitives *)
(* ===================================================================== *)

Module JS.

(** [ToUint32] and [ToInt32] of ECMA-262 on an integral number. *)
Definition ToUint32 (x : Z) : Z := x mod 2 ^ 32.
Definition ToInt32 (x : Z) : Z := (x + 2 ^ 31) mod 2 ^ 32 - 2 ^ 31.

(** [a & b], [a | b]: both operands through [ToInt32]; the result is an
    Int32. *)
Definition band (a b : Z) : Z := Z.land (ToInt32 a) (ToInt32 b).
Definition bor (a b : Z) : Z := Z.lor (ToInt32 a) (ToInt32 b).

(** [a << n]: the shift count is [ToUint32 n & 31]; the result is
    wrapped to an Int32. *)
Definition shl (a n : Z) : Z :=
  ToInt32 (Z.shiftl (ToInt32 a) (ToUint32 n mod 32)).

(** [a >>> n]: the left operand through [ToUint32]. *)
Definition ushr (a n : Z) : Z :=
  Z.shiftr (ToUint32 a) (ToUint32 n mod 32).

(** [a >> n]: sign-propagating shift of the Int32 of [a]. *)
Definition sar (a n : Z) : Z :=
  Z.shiftr (ToInt32 a) (ToUint32 n mod 32).

(** A value read from a typed array: [None] is [undefined] (index out of
    range).  [undefined] becomes [0] under [ToInt32]. *)
Definition num (v : option Z) : Z :=
  match v with Some z => z | None => 0 end.

End JS.

(* ===================================================================== *)
(** ** Errors and results *)
(* ===================================================================== *)

Inductive CodecError : Type :=
| VarintTooLarge                         (* 'Varint too large (...)' *)
| VarintIncomplete                       (* 'Varint incomplete' *)
| UnsupportedMulticodec (multicodec : Z) (* 'Unsupported multicodec: 0x..' *)
| InvalidAuthenticatorDataLength         (* 'Invalid authenticatorData length' *)
| InvalidClientDataJSONLength            (* 'Invalid clientDataJSON length' *)
| InvalidEd25519SignatureLength (got : Z)
| InvalidP256SignatureLength (got : Z)
| RangeError.                            (* TypedArray.prototype.set out of bounds *)

Inductive Result (E A : Type) : Type :=
| Ok (a : A)
| Err (e : E).
Arguments Ok {E A} a.
Arguments Err {E A} e.

Definition bind {E A B} (m : Result E A) (k : A -> Result E B) : Result E B :=
  match m with
  | Ok a => k a
  | Err e => Err e
  end.

Notation "'let*' x ':=' m 'in' k" := (bind m (fun x => k))
  (at level 10, x pattern, m at level 100, k at level 200).

(* ===================================================================== *)
(** ** Typed arrays *)
(* ===================================================================== *)

Definition Uint8Array := list byte.

Definition byte_to_Z (b : byte) : Z := Z.of_N (Byte.to_N b).

(** Storing a number into a [Uint8Array] keeps it modulo 256. *)
Definition ToUint8 (z : Z) : byte :=
  match Byte.of_N (Z.to_N (z mod 256)) with
  | Some b => b
  | None => x00
  end.

Definition len (a : Uint8Array) : Z := Z.of_nat (List.length a).

(** [a[i]]: [undefined] outside [0, a.length). *)
Definition get (a : Uint8Array) (i : Z) : option Z :=
  if (i <? 0) then None
  else option_map byte_to_Z (nth_error a (Z.to_nat i)).

(** [a.slice(start, end)] with the relative-index rule of ECMA-262: a
    negative index counts from the end, and both are clamped to
    [0, a.length]. *)
Definition rel_index (n i : Z) : Z :=
  if i <? 0 then Z.max (n + i) 0 else Z.min i n.

Definition slice (a : Uint8Array) (start stop : Z) : Uint8Array :=
  let k := rel_index (len a) start in
  let final := rel_index (len a) stop in
  firstn (Z.to_nat (Z.max (final - k) 0)) (skipn (Z.to_nat k) a).

(** [a.slice(start)]: to the end of the array. *)
Definition slice_from (a : Uint8Array) (start : Z) : Uint8Array :=
  slice a start (len a).

(** [new Uint8Array(n)]: [n] zero bytes. *)
Definition Uint8Array_new (n : Z) : Uint8Array := repeat x00 (Z.to_nat n).

(** [target.set(source, offset)]: overwrites [source.length] bytes from
    [offset]; a [RangeError] when they do not fit. *)
Definition set (target source : Uint8Array) (offset : Z) : Result CodecError Uint8Array :=
  if (offset <? 0) || (len target <? offset + len source) then Err RangeError
  else Ok (firstn (Z.to_nat offset) target ++ source ++
           skipn (Z.to_nat (offset + len source)) target).

(** [a[i] = v] on a typed array: ignored outside [0, a.length). *)
Definition store (a : Uint8Array) (i : Z) (v : Z) : Uint8Array :=
  if (0 <=? i) && (i <? len a)
  then firstn (Z.to_nat i) a ++ [ToUint8 v] ++ skipn (Z.to_nat (i + 1)) a
  else a.

(* ===================================================================== *)
(** ** utils.ts: varint codec *)
(* ===================================================================== *)

(** Termination of the [while (value >= 0x80)] loop: the bit length of
    [value] drops at every [value >>>= 7]. *)
Lemma ushr7_log2 (value : Z) :
  0x80 <= value ->
  (Z.to_nat (Z.log2 (JS.ushr value 7)) < Z.to_nat (Z.log2 value))%nat.
Proof.
  intros H. unfold JS.ushr, JS.ToUint32.
  change (7 mod 2 ^ 32 mod 32) with 7.
  assert (Hm : 0 <= value mod 2 ^ 32 <= value).
  { split; [apply Z.mod_pos_bound; lia | apply Z.mod_le; lia]. }
  assert (7 <= Z.log2 value) by (apply (Z.log2_le_mono 128 value); lia).
  destruct (Z.eq_dec (value mod 2 ^ 32) 0) as [E | E].
  - rewrite E. change (Z.log2 (Z.shiftr 0 7)) with 0. lia.
  - rewrite Z.log2_shiftr by lia.
    assert (Z.log2 (value mod 2 ^ 32) <= Z.log2 value)
      by (apply Z.log2_le_mono; lia).
    assert (0 <= Z.log2 (value mod 2 ^ 32)) by apply Z.log2_nonneg.
    lia.
Qed.

(** The [while] loop of [varintEncode]: state [(value, bytes)], where
    [bytes.push(x)] appends at the end. *)
Equations varintEncode_loop (value : Z) (bytes : list Z) : Z * list Z
  by wf (Z.to_nat (Z.log2 value)) lt :=
  varintEncode_loop value bytes with Z_le_dec 0x80 value => {
    | left _ :=
        varintEncode_loop (JS.ushr value 7)
          (bytes ++ [JS.bor (JS.band value 0x7f) 0x80]);
    | right _ := (value, bytes) }.
Next Obligation. apply ushr7_log2; assumption. Qed.

Definition varintEncode (value : Z) : Uint8Array :=
  let '(value, bytes) := varintEncode_loop value [] in
  let bytes := bytes ++ [JS.band value 0x7f] in
  map ToUint8 bytes.

(** Loop variant of [varintDecode]: how far [shift] is from the bound 53. *)
Definition shift_room (shift : Z) : nat := Z.to_nat (54 - shift).
Arguments shift_room : simpl never.

Lemma shift_room_decr (shift : Z) :
  ~ shift + 7 > 53 -> (shift_room (shift + 7) < shift_room shift)%nat.
Proof. unfold shift_room. lia. Qed.

(** The [while] loop of [varintDecode]: state [(value, shift, bytesRead)].
    The loop runs while [offset + bytesRead < bytes.length]; falling out of
    it throws 'Varint incomplete'.  It terminates because [shift] grows by
    7 and the loop throws once [shift > 53]. *)
Equations varintDecode_loop (bytes : Uint8Array) (offset : Z)
    (value shift bytesRead : Z) : Result CodecError (Z * Z)
  by wf (shift_room shift) lt :=
  varintDecode_loop bytes offset value shift bytesRead
    with Z_lt_dec (offset + bytesRead) (len bytes) => {
    | right _ := Err VarintIncomplete
    | left _ with JS.band (JS.num (get bytes (offset + bytesRead))) 0x80 =? 0 => {
      | true :=
          Ok (JS.bor value
                (JS.shl (JS.band (JS.num (get bytes (offset + bytesRead))) 0x7f) shift),
              bytesRead + 1)
      | false with Z_gt_dec (shift + 7) 53 => {
        | left _ := Err VarintTooLarge
        | right _ :=
            varintDecode_loop bytes offset
              (JS.bor value
                 (JS.shl (JS.band (JS.num (get bytes (offset + bytesRead))) 0x7f) shift))
              (shift + 7) (bytesRead + 1) } } }.
Next Obligation. apply shift_room_decr; assumption. Qed.

(** The default [0] of [offset] is left to the caller. *)
Definition varintDecode (bytes : Uint8Array) (offset : Z) : Result CodecError (Z * Z) :=
  varintDecode_loop bytes offset 0 0 0.

(* ===================================================================== *)
(** ** utils.ts: concat and bytesEqual *)
(* ===================================================================== *)

(** The [for (const arr of arrays)] loop of [concat]: state
    [(result, offset)]. *)
Fixpoint concat_loop (arrays : list Uint8Array) (result : Uint8Array) (offset : Z)
  : Result CodecError Uint8Array :=
  match arrays with
  | [] => Ok result
  | arr :: arrays' =>
      let* result := set result arr offset in
      concat_loop arrays' result (offset + len arr)
  end.

Definition concat (arrays : list Uint8Array) : Result CodecError Uint8Array :=
  let totalLength := fold_left (fun sum arr => sum + len arr) arrays 0 in
  let result := Uint8Array_new totalLength in
  concat_loop arrays result 0.

(** The [for] loop of [bytesEqual], from index [i], [n] iterations left. *)
Fixpoint bytesEqual_loop (n : nat) (a b : Uint8Array) (i : Z) : bool :=
  match n with
  | O => true
  | S n' =>
      match get a i, get b i with
      | Some x, Some y => if negb (x =? y) then false else bytesEqual_loop n' a b (i + 1)
      | None, None => bytesEqual_loop n' a b (i + 1)
      | _, _ => false
      end
  end.

Definition bytesEqual (a b : Uint8Array) : bool :=
  if negb (len a =? len b) then false
  else bytesEqual_loop (List.length a) a b 0.

(* ===================================================================== *)
(** ** multicodec.ts *)
(* ===================================================================== *)

Definition ED25519_PUB : Z := 0xed.
Definition WEBAUTHN_ED25519 : Z := 0x2ed1.
Definition WEBAUTHN_P256 : Z := 0x2256.
Definition P256_PUB : Z := 0x1200.

Inductive SignatureAlgorithm : Type := Ed25519 | P256.

Definition ALGORITHM_TO_MULTICODEC (algorithm : SignatureAlgorithm) : Z :=
  match algorithm with
  | Ed25519 => WEBAUTHN_ED25519
  | P256 => WEBAUTHN_P256
  end.

Definition isWebAuthnMulticodec (multicodec : Z) : bool :=
  (multicodec =? WEBAUTHN_ED25519) || (multicodec =? WEBAUTHN_P256).

(** [MULTICODEC_TO_ALGORITHM[multicodec] || null] *)
Definition getAlgorithm (multicodec : Z) : option SignatureAlgorithm :=
  if multicodec =? WEBAUTHN_ED25519 then Some Ed25519
  else if multicodec =? WEBAUTHN_P256 then Some P256
  else None.

(* ===================================================================== *)
(** ** types.ts, encoder.ts, decoder.ts *)
(* ===================================================================== *)

Record WebAuthnAssertion : Type := {
  assertion_authenticatorData : Uint8Array;
  assertion_clientDataJSON : Uint8Array;
  assertion_signature : Uint8Array
}.

Record DecodedVarsig : Type := {
  multicodec : Z;
  algorithm : option SignatureAlgorithm;
  authenticatorData : Uint8Array;
  clientDataJSON : Uint8Array;
  signature : Uint8Array
}.

(** The default ['Ed25519'] of the second parameter is left to the
    caller. *)
Definition encodeWebAuthnVarsig (assertion : WebAuthnAssertion)
    (algorithm : SignatureAlgorithm) : Result CodecError Uint8Array :=
  let authenticatorData := assertion_authenticatorData assertion in
  let clientDataJSON := assertion_clientDataJSON assertion in
  let signature := assertion_signature assertion in
  let multicodec := ALGORITHM_TO_MULTICODEC algorithm in
  let multicodecBytes := varintEncode multicodec in
  let authDataLenBytes := varintEncode (len authenticatorData) in
  let clientDataLenBytes := varintEncode (len clientDataJSON) in
  concat [multicodecBytes; authDataLenBytes; authenticatorData;
          clientDataLenBytes; clientDataJSON; signature].

(** The assertion as [validateWebAuthnAssertion] inspects it: a field that
    is absent ([undefined] or [null]) is [None]; a field that holds a
    [Uint8Array], which is an object and therefore truthy, is [Some]. *)
Record AssertionFields : Type := {
  field_authenticatorData : option Uint8Array;
  field_clientDataJSON : option Uint8Array;
  field_signature : option Uint8Array
}.

Inductive ValidationError : Type :=
| AuthenticatorDataRequired   (* 'authenticatorData is required and cannot be empty' *)
| ClientDataJSONRequired      (* 'clientDataJSON is required and cannot be empty' *)
| SignatureRequired           (* 'signature is required and cannot be empty' *)
| SignatureTooShort (length : Z). (* 'Signature too short: .. bytes' *)

(** [!field || field.length === 0] *)
Definition missing_or_empty (field : option Uint8Array) : bool :=
  match field with
  | None => true
  | Some a => len a =? 0
  end.

Definition validateWebAuthnAssertion (assertion : AssertionFields)
  : Result ValidationError unit :=
  if missing_or_empty (field_authenticatorData assertion)
  then Err AuthenticatorDataRequired else
  if missing_or_empty (field_clientDataJSON assertion)
  then Err ClientDataJSONRequired else
  if missing_or_empty (field_signature assertion)
  then Err SignatureRequired else
  (* Validate signature length based on algorithm *)
  match field_signature assertion with
  | Some signature =>
      if len signature <? 64 then Err (SignatureTooShort (len signature))
      else Ok tt
  | None => Err SignatureRequired
  end.

Definition decodeWebAuthnVarsig (varsig : Uint8Array) : Result CodecError DecodedVarsig :=
  let offset := 0 in
  (* Read multicodec *)
  let* (multicodec, multicodecLen) := varintDecode varsig offset in
  let offset := offset + multicodecLen in
  (* Validate multicodec *)
  if negb (multicodec =? WEBAUTHN_ED25519) && negb (multicodec =? WEBAUTHN_P256)
  then Err (UnsupportedMulticodec multicodec) else
  let algorithm := getAlgorithm multicodec in
  (* Read authenticatorData *)
  let* (authDataLen, authDataLenLen) := varintDecode varsig offset in
  let offset := offset + authDataLenLen in
  if offset + authDataLen >? len varsig
  then Err InvalidAuthenticatorDataLength else
  let authenticatorData := slice varsig offset (offset + authDataLen) in
  let offset := offset + authDataLen in
  (* Read clientDataJSON *)
  let* (clientDataLen, clientDataLenLen) := varintDecode varsig offset in
  let offset := offset + clientDataLenLen in
  if offset + clientDataLen >? len varsig
  then Err InvalidClientDataJSONLength else
  let clientDataJSON := slice varsig offset (offset + clientDataLen) in
  let offset := offset + clientDataLen in
  (* Read signature (rest of the bytes) *)
  let signature := slice_from varsig offset in
  let decoded :=
    {| multicodec := multicodec; algorithm := algorithm;
       authenticatorData := authenticatorData;
       clientDataJSON := clientDataJSON; signature := signature |} in
  (* Validate signature length *)
  match algorithm with
  | Some Ed25519 =>
      if negb (len signature =? 64)
      then Err (InvalidEd25519SignatureLength (len signature))
      else Ok decoded
  | Some P256 =>
      if (len signature <? 64) || (len signature >? 74)
      then Err (InvalidP256SignatureLength (len signature))
      else Ok decoded
  | None => Ok decoded
  end.

(* ===================================================================== *)
(** ** Strings *)
(* ===================================================================== *)

(** A JavaScript string is a sequence of UTF-16 code units. *)
Definition JSString := list Z.

(** Code unit of an ASCII character, and the string of a literal. *)
Definition ch (c : ascii) : Z := Z.of_N (N_of_ascii c).
Definition str (s : string) : JSString := map ch (list_ascii_of_string s).

(** [s.replace(/c/g, r)] for a single character [c] and a one-character or
    empty replacement. *)
Definition replace_char (c r : Z) (s : JSString) : JSString :=
  map (fun u => if u =? c then r else u) s.
Definition remove_char (c : Z) (s : JSString) : JSString :=
  filter (fun u => negb (u =? c)) s.

(** [s.startsWith(prefix)] and [s.slice(n)] for [0 <= n]. *)
Fixpoint startsWith (s prefix : JSString) {struct prefix} : bool :=
  match prefix, s with
  | [] , _ => true
  | p :: prefix', c :: s' => (c =? p) && startsWith s' prefix'
  | _ :: _, [] => false
  end.

(* ===================================================================== *)
(** ** Browser built-ins [btoa] and [atob] *)
(* ===================================================================== *)

(** [btoa] and [atob] belong to the platform, not to the repository.  They
    are written here after the HTML standard: [btoa] is the base64
    encoding of RFC 4648 with padding and fails with an
    [InvalidCharacterError] on a code unit above 255; [atob] is the
    standard's forgiving-base64 decode. *)
Module Base64.

Definition encode_sextet (n : Z) : Z :=
  if n <? 26 then ch "A" + n
  else if n <? 52 then ch "a" + (n - 26)
  else if n <? 62 then ch "0" + (n - 52)
  else if n =? 62 then ch "+"
  else ch "/".

Definition decode_char (u : Z) : option Z :=
  if (ch "A" <=? u) && (u <=? ch "Z") then Some (u - ch "A")
  else if (ch "a" <=? u) && (u <=? ch "z") then Some (u - ch "a" + 26)
  else if (ch "0" <=? u) && (u <=? ch "9") then Some (u - ch "0" + 52)
  else if u =? ch "+" then Some 62
  else if u =? ch "/" then Some 63
  else None.

Fixpoint encode_groups (data : JSString) : JSString :=
  match data with
  | [] => []
  | [a] =>
      [encode_sextet (a / 4); encode_sextet (a mod 4 * 16); ch "="; ch "="]
  | [a; b] =>
      [encode_sextet (a / 4); encode_sextet (a mod 4 * 16 + b / 16);
       encode_sextet (b mod 16 * 4); ch "="]
  | a :: b :: c :: rest =>
      encode_sextet (a / 4) :: encode_sextet (a mod 4 * 16 + b / 16) ::
      encode_sextet (b mod 16 * 4 + c / 64) :: encode_sextet (c mod 64) ::
      encode_groups rest
  end.

(** [btoa(data)]: [None] is the [InvalidCharacterError]. *)
Definition btoa (data : JSString) : option JSString :=
  if existsb (fun u => 255 <? u) data then None
  else Some (encode_groups data).

(** ASCII whitespace: TAB, LF, FF, CR, SPACE. *)
Definition is_whitespace (u : Z) : bool :=
  (u =? 9) || (u =? 10) || (u =? 12) || (u =? 13) || (u =? 32).

(** If the length is a multiple of four, one or two trailing [=] are
    removed. *)
Definition remove_padding (data : JSString) : JSString :=
  if Z.of_nat (List.length data) mod 4 =? 0 then
    match rev data with
    | u1 :: r1 =>
        if u1 =? ch "=" then
          match r1 with
          | u2 :: r2 => if u2 =? ch "=" then rev r2 else rev r1
          | [] => rev r1
          end
        else data
    | [] => data
    end
  else data.

(** Four characters give three bytes; two or three characters left over
    give one or two bytes, the spare bits are dropped.  A character outside
    the alphabet is a failure. *)
Fixpoint decode_groups (data : JSString) : option JSString :=
  match data with
  | [] => Some []
  | [_] => None
  | [c1; c2] =>
      match decode_char c1, decode_char c2 with
      | Some s1, Some s2 => Some [s1 * 4 + s2 / 16]
      | _, _ => None
      end
  | [c1; c2; c3] =>
      match decode_char c1, decode_char c2, decode_char c3 with
      | Some s1, Some s2, Some s3 =>
          Some [s1 * 4 + s2 / 16; s2 mod 16 * 16 + s3 / 4]
      | _, _, _ => None
      end
  | c1 :: c2 :: c3 :: c4 :: rest =>
      match decode_char c1, decode_char c2, decode_char c3, decode_char c4,
            decode_groups rest with
      | Some s1, Some s2, Some s3, Some s4, Some out =>
          Some (s1 * 4 + s2 / 16 :: s2 mod 16 * 16 + s3 / 4 ::
                s3 mod 4 * 64 + s4 :: out)
      | _, _, _, _, _ => None
      end
  end.

(** [atob(data)]: [None] is the [InvalidCharacterError]. *)
Definition atob (data : JSString) : option JSString :=
  let data := filter (fun u => negb (is_whitespace u)) data in
  let data := remove_padding data in
  if Z.of_nat (List.length data) mod 4 =? 1 then None
  else decode_groups data.

End Base64.

(* ===================================================================== *)
(** ** utils.ts: base64url *)
(* ===================================================================== *)

(** Exceptions that reach the verifier. *)
Inductive Exception : Type :=
| SyntaxError                 (* JSON.parse *)
| TypeError                   (* property of null, call of a non-function *)
| InvalidCharacterError       (* atob *)
| FailedToParseClientDataJSON (cause : Exception).

Definition base64urlToBytes (base64url : JSString) : Result Exception Uint8Array :=
  (* Convert base64url to base64 *)
  let base64 := replace_char (ch "_") (ch "/") (replace_char (ch "-") (ch "+") base64url) in
  (* Add padding if needed *)
  let padding :=
    repeat (ch "=") (Z.to_nat ((4 - Z.of_nat (List.length base64) mod 4) mod 4)) in
  let paddedBase64 := base64 ++ padding in
  (* Decode base64 *)
  match Base64.atob paddedBase64 with
  | None => Err InvalidCharacterError
  | Some binaryString =>
      (* bytes[i] = binaryString.charCodeAt(i) *)
      Ok (map ToUint8 binaryString)
  end.

Definition bytesToBase64url (bytes : Uint8Array) : Result Exception JSString :=
  (* Convert to binary string *)
  let binaryString :=
    fold_left (fun binaryString b => binaryString ++ [byte_to_Z b]) bytes [] in
  (* Encode to base64 *)
  match Base64.btoa binaryString with
  | None => Err InvalidCharacterError
  | Some base64 =>
      (* Convert to base64url *)
      Ok (remove_char (ch "=")
            (replace_char (ch "/") (ch "_")
               (replace_char (ch "+") (ch "-") base64)))
  end.

(* ===================================================================== *)
(** ** JavaScript values *)
(* ===================================================================== *)

#[local] Set Warnings "-register-all".

(** The values [JSON.parse] can return, and [undefined] for an absent
    property.  The code never inspects a number, only passes it on. *)
Inductive JSValue : Type :=
| JUndefined
| JNull
| JBool (b : bool)
| JNumber (n : Z)
| JString (s : JSString)
| JArray (items : list JSValue)
| JObject (props : list (JSString * JSValue)).

Definition JSString_eqb (s t : JSString) : bool :=
  if list_eq_dec Z.eq_dec s t then true else false.

(** [v === s] for a string [s]. *)
Definition strict_equals_string (v : JSValue) (s : JSString) : bool :=
  match v with
  | JString t => JSString_eqb t s
  | _ => false
  end.

Fixpoint lookup (name : JSString) (props : list (JSString * JSValue)) : option JSValue :=
  match props with
  | [] => None
  | (k, v) :: props' => if JSString_eqb k name then Some v else lookup name props'
  end.

(** [v.name] for one of the names [type], [challenge], [origin],
    [crossOrigin]: a [TypeError] on [null] and [undefined]; the own
    property of an object, [undefined] when it has none; [undefined] on a
    primitive or an array, whose prototypes carry none of these names. *)
Definition getProp (v : JSValue) (name : JSString) : Result Exception JSValue :=
  match v with
  | JUndefined | JNull => Err TypeError
  | JObject props =>
      Ok match lookup name props with Some x => x | None => JUndefined end
  | _ => Ok JUndefined
  end.

(** Whether the string conversion of a value inside a template literal
    throws.  An object converts through [toString] and [valueOf]: with an
    own [toString] property (a parsed value, never a function) neither
    yields a primitive and the conversion is a [TypeError]; without one,
    [Object.prototype.toString] answers.  An array joins the conversions of
    its elements. *)
Fixpoint toString_throws (v : JSValue) : bool :=
  match v with
  | JObject props =>
      match lookup (str "toString") props with
      | Some _ => true
      | None => false
      end
  | JArray items => existsb toString_throws items
  | _ => false
  end.

(** [`... ${v} ...`]: the text itself is kept as the parameters of the
    error; what matters is whether building it throws. *)
Definition template (v : JSValue) : Result Exception unit :=
  if toString_throws v then Err TypeError else Ok tt.

(** [try { body } catch (error) { handler }] *)
Definition try_catch {A : Type} (body : Result Exception A)
    (handler : Exception -> Result Exception A) : Result Exception A :=
  match body with
  | Ok a => Ok a
  | Err error => handler error
  end.

(* ===================================================================== *)
(** ** decoder.ts: parseClientDataJSON; verifier.ts *)
(* ===================================================================== *)

Record ClientDataJSON : Type := {
  type : JSValue;
  challenge : JSValue;
  origin : JSValue;
  crossOrigin : JSValue
}.

Record VerificationOptions : Type := {
  expectedOrigin : JSString;
  expectedChallenge : Uint8Array;
  requireUserVerification : option bool    (* optional field *)
}.

Record Flags : Type := {
  userPresent : bool;
  userVerified : bool;
  backupEligible : bool;
  backupState : bool
}.

(** The [error] string of a result, by its template and parameters. *)
Inductive VerificationError : Type :=
| InvalidCeremonyType (got : JSValue)
| OriginMismatch (expected : JSString) (got : JSValue)
| ChallengeMismatch
| AuthenticatorDataTooShort (length : Z)
| UserPresenceNotSet
| UserVerificationNotSet
| VerificationFailed (cause : Exception).

Record VerificationResult : Type := {
  valid : bool;
  error : option VerificationError;
  clientData : option ClientDataJSON;
  flags : option Flags
}.

Definition invalid (e : VerificationError) : VerificationResult :=
  {| valid := false; error := Some e; clientData := None; flags := None |}.

Section Verifier.

(** Platform functions: [new TextDecoder().decode(bytes)], which does not
    throw, and [JSON.parse(json)], where [None] stands for its
    [SyntaxError]. *)
Variable TextDecoder_decode : Uint8Array -> JSString.
Variable JSON_parse : JSString -> option JSValue.

Definition parseClientDataJSON (bytes : Uint8Array) : Result Exception ClientDataJSON :=
  try_catch
    (let json := TextDecoder_decode bytes in
     let* parsed :=
       match JSON_parse json with
       | Some parsed => Ok parsed
       | None => Err SyntaxError
       end in
     let* type := getProp parsed (str "type") in
     let* challenge := getProp parsed (str "challenge") in
     let* origin := getProp parsed (str "origin") in
     let* crossOrigin := getProp parsed (str "crossOrigin") in
     Ok {| type := type; challenge := challenge; origin := origin;
           crossOrigin := crossOrigin |})
    (fun error => Err (FailedToParseClientDataJSON error)).

(** [base64urlToBytes(clientData.challenge)]: on anything but a string the
    call of [.replace] is a [TypeError]. *)
Definition base64urlToBytes_value (v : JSValue) : Result Exception Uint8Array :=
  match v with
  | JString s => base64urlToBytes s
  | _ => Err TypeError
  end.

Definition verifyWebAuthnAssertion (decoded : DecodedVarsig)
    (options : VerificationOptions) : Result Exception VerificationResult :=
  try_catch
    ((* 1. Parse clientDataJSON *)
     let* clientData := parseClientDataJSON (clientDataJSON decoded) in
     (* 2. Verify ceremony type *)
     if negb (strict_equals_string (type clientData) (str "webauthn.get"))
     then (let* _ := template (type clientData) in
           Ok (invalid (InvalidCeremonyType (type clientData)))) else
     (* 3. Verify origin *)
     if negb (strict_equals_string (origin clientData) (expectedOrigin options))
     then (let* _ := template (origin clientData) in
           Ok (invalid (OriginMismatch (expectedOrigin options) (origin clientData)))) else
     (* 4. Verify challenge *)
     let* challengeBytes := base64urlToBytes_value (challenge clientData) in
     if negb (bytesEqual challengeBytes (expectedChallenge options))
     then Ok (invalid ChallengeMismatch) else
     (* 5. Parse authenticatorData flags *)
     if len (authenticatorData decoded) <? 37
     then Ok (invalid (AuthenticatorDataTooShort (len (authenticatorData decoded)))) else
     let flags := JS.num (get (authenticatorData decoded) 32) in
     let userPresent := negb (JS.band flags 0x01 =? 0) in
     let userVerified := negb (JS.band flags 0x04 =? 0) in
     let backupEligible := negb (JS.band flags 0x08 =? 0) in
     let backupState := negb (JS.band flags 0x10 =? 0) in
     (* 6. Verify user presence *)
     if negb userPresent then Ok (invalid UserPresenceNotSet) else
     (* 7. Verify user verification if required *)
     if match requireUserVerification options with
        | Some false => false
        | _ => true
        end && negb userVerified
     then Ok (invalid UserVerificationNotSet) else
     (* All checks passed *)
     Ok {| valid := true; error := None; clientData := Some clientData;
           flags := Some {| userPresent := userPresent; userVerified := userVerified;
                            backupEligible := backupEligible;
                            backupState := backupState |} |})
    (fun error => Ok (invalid (VerificationFailed error))).

End Verifier.

Section SignedData.

(** Platform function: [crypto.subtle.digest('SHA-256', data)], which
    resolves for every byte string; its [ArrayBuffer] is read as a
    [Uint8Array]. *)
Variable SHA256 : Uint8Array -> Uint8Array.

Definition reconstructSignedData (decoded : DecodedVarsig) : Result CodecError Uint8Array :=
  (* Hash clientDataJSON *)
  let clientDataHash := SHA256 (clientDataJSON decoded) in
  (* Concatenate authenticatorData || clientDataHash *)
  let signedData :=
    Uint8Array_new (len (authenticatorData decoded) + len clientDataHash) in
  let* signedData := set signedData (authenticatorData decoded) 0 in
  let* signedData := set signedData clientDataHash (len (authenticatorData decoded)) in
  Ok signedData.

End SignedData.

(* ===================================================================== *)
(** ** base58btc of the multiformats library *)
(* ===================================================================== *)

(** Loop variant of the conversion to digits: the bit length. *)
Definition bit_length (n : Z) : nat := Z.to_nat (Z.log2_up (n + 1)).
Arguments bit_length : simpl never.

Lemma bit_length_div (b n : Z) :
  2 <= b -> 0 < n -> (bit_length (n / b) < bit_length n)%nat.
Proof.
  intros Hb Hn. unfold bit_length.
  set (k := Z.log2_up (n + 1)).
  assert (Hk : 0 < k) by (apply Z.log2_up_lt_pow2; [lia | cbn; lia]).
  assert (Hle : n + 1 <= 2 ^ k) by (apply Z.log2_up_le_pow2; [lia | subst k; lia]).
  assert (Hpow : 2 ^ k = 2 * 2 ^ (k - 1)).
  { rewrite <- Z.pow_succ_r by lia. f_equal. lia. }
  assert (Hq : n / b < 2 ^ (k - 1)).
  { apply Z.div_lt_upper_bound; [lia | ].
    assert (0 < 2 ^ (k - 1)) by (apply Z.pow_pos_nonneg; lia). nia. }
  assert (0 <= n / b) by (apply Z.div_pos; lia).
  assert (Z.log2_up (n / b + 1) <= k - 1) by (apply Z.log2_up_le_pow2; lia).
  pose proof (Z.log2_up_nonneg (n / b + 1)). lia.
Qed.

(** Digits of [n] in base [b], most significant first, none for zero. *)
Equations to_digits (b : Z) (n : Z) : list Z by wf (bit_length n) lt :=
  to_digits b n with Z_le_dec 2 b => {
    | right _ := []
    | left _ with Z_lt_dec 0 n => {
      | left _ := to_digits b (n / b) ++ [n mod b]
      | right _ := [] } }.
Next Obligation. apply bit_length_div; assumption. Qed.

(** Value of a digit string, most significant digit first. *)
Definition of_digits (b : Z) (ds : list Z) : Z :=
  fold_left (fun acc d => acc * b + d) ds 0.

Fixpoint count_leading (x : Z) (l : list Z) : nat :=
  match l with
  | y :: l' => if y =? x then S (count_leading x l') else O
  | [] => O
  end.

(** All-or-nothing [map] with a partial function. *)
Fixpoint traverse {A B : Type} (f : A -> option B) (l : list A) : option (list B) :=
  match l with
  | [] => Some []
  | x :: l' =>
      match f x, traverse f l' with
      | Some y, Some ys => Some (y :: ys)
      | _, _ => None
      end
  end.

(** [base58btc] is code of the multiformats package, not of the
    repository.  It is written here by what it computes: the multibase
    prefix [z], one [1] for each leading zero byte, then the remaining
    bytes, read as a big-endian number, in base 58 over the Bitcoin
    alphabet.  Decoding fails on a missing prefix and on a character
    outside the alphabet. *)
Module Base58.

Definition alphabet : JSString :=
  str "123456789ABCDEFGHJKLMNPQRSTUVWXYZabcdefghijkmnopqrstuvwxyz".

Definition encode_digit (d : Z) : Z := nth (Z.to_nat d) alphabet 0.

Fixpoint index_of (u : Z) (l : list Z) (i : Z) : option Z :=
  match l with
  | [] => None
  | x :: l' => if x =? u then Some i else index_of u l' (i + 1)
  end.

Definition decode_char (u : Z) : option Z := index_of u alphabet 0.

Definition encode (bytes : Uint8Array) : JSString :=
  let values := map byte_to_Z bytes in
  let zeroes := count_leading 0 values in
  repeat (ch "1") zeroes ++
  map encode_digit (to_digits 58 (of_digits 256 (skipn zeroes values))).

Definition decode (source : JSString) : option Uint8Array :=
  let zeroes := count_leading (ch "1") source in
  match traverse decode_char (skipn zeroes source) with
  | Some digits =>
      Some (repeat x00 zeroes ++ map ToUint8 (to_digits 256 (of_digits 58 digits)))
  | None => None
  end.

End Base58.

Definition base58btc_encode (bytes : Uint8Array) : JSString :=
  ch "z" :: Base58.encode bytes.

Definition base58btc_decode (text : JSString) : option Uint8Array :=
  match text with
  | prefix :: source => if prefix =? ch "z" then Base58.decode source else None
  | [] => None
  end.

(* ===================================================================== *)
(** ** did:key helpers *)
(* ===================================================================== *)

(** webauthn-ed25519-signer.ts: createEd25519Did *)
Definition createEd25519Did (publicKey : Uint8Array) : Result CodecError JSString :=
  (* Create multikey: [0xed, 0x01] + publicKey *)
  let multikey := Uint8Array_new (2 + len publicKey) in
  let multikey := store multikey 0 0xed in
  let multikey := store multikey 1 0x01 in
  let* multikey := set multikey publicKey 2 in
  (* Encode as base58btc *)
  let encoded := base58btc_encode multikey in
  Ok (str "did:key:" ++ encoded).

(** createP256Did *)
Definition createP256Did (publicKey : Uint8Array) : Result CodecError JSString :=
  (* P-256 multicodec: 0x1200 encoded as varint *)
  let multicodecPrefix := [x80; x24] in
  (* Create multikey: multicodec + publicKey *)
  let multikey := Uint8Array_new (len multicodecPrefix + len publicKey) in
  let* multikey := set multikey multicodecPrefix 0 in
  let* multikey := set multikey publicKey (len multicodecPrefix) in
  (* Encode as base58btc *)
  let encoded := base58btc_encode multikey in
  Ok (str "did:key:" ++ encoded).

Inductive DidError : Type :=
| InvalidDIDFormat          (* 'Invalid DID format' *)
| Base58DecodeError.        (* thrown by base58btc.decode *)

(** extractPublicKeyFromDid of the hardware delegation service *)
Definition extractPublicKeyFromDid (did : JSString) : Result DidError Uint8Array :=
  if negb (startsWith did (str "did:key:z")) then Err InvalidDIDFormat else
  (* Remove 'did:key:' prefix *)
  let encoded := skipn 8 did in
  (* Decode base58btc *)
  match base58btc_decode encoded with
  | None => Err Base58DecodeError
  | Some multikey =>
      (* Skip multicodec prefix (0xed, 0x01) *)
      Ok (slice_from multikey 2)
  end.

(* ===================================================================== *)
(** ** Mock WebAuthn data of the unit tests: createMockAuthenticatorData *)
(* ===================================================================== *)

(** The options of [createMockAuthenticatorData]; [None] is a field left
    out, which takes its default. *)
Record MockAuthenticatorDataOptions : Type := {
  mock_userPresent : option bool;
  mock_userVerified : option bool;
  mock_signCount : option Z
}.

(** [const { field = d } = options] *)
Definition default {A : Type} (d : A) (v : option A) : A :=
  match v with Some x => x | None => d end.

(** [for (let i = ..; i < ..; i++) array[i] = f(i)], [n] iterations from
    index [i]. *)
Fixpoint fill (n : nat) (i : Z) (f : Z -> Z) (array : Uint8Array) : Uint8Array :=
  match n with
  | O => array
  | S n' => fill n' (i + 1) f (store array i (f i))
  end.

Definition createMockAuthenticatorData (options : MockAuthenticatorDataOptions)
  : Result CodecError Uint8Array :=
  let userPresent := default true (mock_userPresent options) in
  let userVerified := default true (mock_userVerified options) in
  let signCount := default 1 (mock_signCount options) in
  (* Mock rpIdHash (32 bytes of pseudo-random data) *)
  let rpIdHash := Uint8Array_new 32 in
  let rpIdHash := fill 32 0 (fun i => Z.rem (i * 7 + 13) 256) rpIdHash in
  (* Flags byte *)
  let flags := 0 in
  let flags := if userPresent then JS.bor flags 0x01 else flags in
  let flags := if userVerified then JS.bor flags 0x04 else flags in
  (* Sign count (4 bytes, big-endian) *)
  let signCountBytes := Uint8Array_new 4 in
  let signCountBytes := store signCountBytes 0 (JS.band (JS.sar signCount 24) 0xff) in
  let signCountBytes := store signCountBytes 1 (JS.band (JS.sar signCount 16) 0xff) in
  let signCountBytes := store signCountBytes 2 (JS.band (JS.sar signCount 8) 0xff) in
  let signCountBytes := store signCountBytes 3 (JS.band signCount 0xff) in
  (* Concatenate: rpIdHash + flags + signCount *)
  let authenticatorData := Uint8Array_new 37 in
  let* authenticatorData := set authenticatorData rpIdHash 0 in
  let authenticatorData := store authenticatorData 32 flags in
  let* authenticatorData := set authenticatorData signCountBytes 33 in
  Ok authenticatorData.

(* ===================================================================== *)
(** * Part II.  Vocabulary of the statements *)
(* ===================================================================== *)

(** The envelope layout:
    varint(tag) | varint(len authData) | authData |
    varint(len clientData) | clientData | signature *)
Definition layout (tag : Z) (authData clientData signature : Uint8Array) : Uint8Array :=
  varintEncode tag ++ varintEncode (len authData) ++ authData ++
  varintEncode (len clientData) ++ clientData ++ signature.

(** The signature check at the end of the decoder. *)
Definition checkSignatureLength (algorithm : SignatureAlgorithm)
    (decoded : DecodedVarsig) : Result CodecError DecodedVarsig :=
  match algorithm with
  | Ed25519 =>
      if negb (len (signature decoded) =? 64)
      then Err (InvalidEd25519SignatureLength (len (signature decoded)))
      else Ok decoded
  | P256 =>
      if (len (signature decoded) <? 64) || (len (signature decoded) >? 74)
      then Err (InvalidP256SignatureLength (len (signature decoded)))
      else Ok decoded
  end.

(** [decodeWebAuthnVarsig(encodeWebAuthnVarsig(assertion, algorithm))] *)
Definition decode_encoded (assertion : WebAuthnAssertion)
    (algorithm : SignatureAlgorithm) : Result CodecError DecodedVarsig :=
  let* varsig := encodeWebAuthnVarsig assertion algorithm in
  decodeWebAuthnVarsig varsig.

(** The length rule of each algorithm. *)
Definition signatureLengthOk (algorithm : SignatureAlgorithm) (n : Z) : Prop :=
  match algorithm with
  | Ed25519 => n = 64
  | P256 => 64 <= n <= 74
  end.

(** The two length prefixes, read the way [decodeWebAuthnVarsig] reads
    them. *)
Definition lengthPrefixes (varsig : Uint8Array) : Result CodecError (Z * Z) :=
  let* (_, multicodecLen) := varintDecode varsig 0 in
  let* (authDataLen, authDataLenLen) := varintDecode varsig multicodecLen in
  let* (clientDataLen, _) :=
    varintDecode varsig (multicodecLen + authDataLenLen + authDataLen) in
  Ok (authDataLen, clientDataLen).

(** The errors of a buffer that ends before the signature starts. *)
Definition truncation_error (e : CodecError) : Prop :=
  match e with
  | VarintIncomplete => True
  | InvalidAuthenticatorDataLength => True
  | InvalidClientDataJSONLength => True
  | _ => False
  end.

Definition recognized (mc : Z) : Prop := mc = WEBAUTHN_ED25519 \/ mc = WEBAUTHN_P256.

(** Characters of the base64 alphabet. *)
Definition alphabet (u : Z) : Prop := exists n, 0 <= n < 64 /\ u = Base64.encode_sextet n.

(** A digit string without a leading zero. *)
Definition canonical (b : Z) (ds : list Z) : Prop :=
  Forall (fun d => 0 <= d < b) ds /\ (forall d ds', ds = d :: ds' -> d <> 0).

(** The identifier derived for a key of either algorithm. *)
Definition didKey (algorithm : SignatureAlgorithm) (publicKey : Uint8Array)
  : Result CodecError JSString :=
  match algorithm with
  | Ed25519 => createEd25519Did publicKey
  | P256 => createP256Did publicKey
  end.

Definition tagBytes (algorithm : SignatureAlgorithm) : Uint8Array :=
  match algorithm with
  | Ed25519 => [xed; x01]
  | P256 => [x80; x24]
  end.

(** Number of bytes with the continuation bit at the head of a buffer. *)
Fixpoint continuation_run (l : Uint8Array) : nat :=
  match l with
  | b :: l' => if 0x80 <=? byte_to_Z b then S (continuation_run l') else O
  | [] => O
  end.

(** The encoding of [n] with the continuation bit set on its last byte
    and a zero group appended: a varint of [n] that is not minimal. *)
Definition overlong (n : Z) : Uint8Array :=
  map (fun b => ToUint8 (JS.bor (byte_to_Z b) 0x80)) (varintEncode n) ++ [x00].

(** A byte string that the varint decoder reads as [n] wherever it
    stands. *)
Definition reads_as (h : Uint8Array) (n : Z) : Prop :=
  forall pre post : Uint8Array,
    varintDecode (pre ++ h ++ post) (len pre) = Ok (n, len h).

(** An assertion with all its fields present. *)
Definition fieldsOf (assertion : WebAuthnAssertion) : AssertionFields :=
  {| field_authenticatorData := Some (assertion_authenticatorData assertion);
     field_clientDataJSON := Some (assertion_clientDataJSON assertion);
     field_signature := Some (assertion_signature assertion) |}.

(** Bit [bit] of the flags byte, byte 32 of authenticatorData. *)
Definition flag (authData : Uint8Array) (bit : Z) : bool :=
  match nth_error authData 32 with
  | Some b => Z.testbit (byte_to_Z b) bit
  | None => false
  end.

(** The conditions under which the verifier accepts. *)
Definition accepted (decoded : DecodedVarsig) (options : VerificationOptions)
    (cd : ClientDataJSON) : Prop :=
  type cd = JString (str "webauthn.get") /\
  origin cd = JString (expectedOrigin options) /\
  (exists text,
     challenge cd = JString text /\
     base64urlToBytes text = Ok (expectedChallenge options)) /\
  37 <= len (authenticatorData decoded) /\
  flag (authenticatorData decoded) 0 = true /\
  (requireUserVerification options = Some false \/
   flag (authenticatorData decoded) 2 = true).

(** Characters of the URL-safe alphabet: letters, digits, [-] and [_]. *)
Definition base64url_char (u : Z) : bool :=
  ((ch "A" <=? u) && (u <=? ch "Z")) || ((ch "a" <=? u) && (u <=? ch "z")) ||
  ((ch "0" <=? u) && (u <=? ch "9")) || (u =? ch "-") || (u =? ch "_").

(** Characters that [base64urlToBytes] lets through: both alphabets, the
    padding character and ASCII whitespace. *)
Definition base64_tolerated (u : Z) : bool :=
  base64url_char u || (u =? ch "+") || (u =? ch "/") || (u =? ch "=") ||
  Base64.is_whitespace u.

(** The two substitutions of [base64urlToBytes] and of [bytesToBase64url]
    on one character. *)
Definition to_base64 (u : Z) : Z :=
  (fun u => if u =? ch "_" then ch "/" else u) ((fun u => if u =? ch "-" then ch "+" else u) u).

Definition to_base64url (u : Z) : Z :=
  (fun u => if u =? ch "/" then ch "_" else u) ((fun u => if u =? ch "+" then ch "-" else u) u).

(** Big-endian value of a byte string. *)
Definition big_endian (bytes : Uint8Array) : Z :=
  fold_left (fun acc b => acc * 256 + byte_to_Z b) bytes 0.

(* ===================================================================== *)
(** ** Sample data *)
(* ===================================================================== *)

(** Sample data used by the closed examples below. *)
Module Sample.

(** 37 bytes: 32-byte rpIdHash, flags, 4-byte signCount. *)
Definition authData (flags : byte) : Uint8Array :=
  repeat x00 32 ++ [flags] ++ repeat x00 4.

(** Bytes of [{"type":"webauthn.get"}] -- any bytes do for the codec. *)
Definition clientData : Uint8Array :=
  [x7b; x22; x74; x79; x70; x65; x22; x3a; x22; x77; x65; x62; x61; x75;
   x74; x68; x6e; x2e; x67; x65; x74; x22; x7d].

Definition sig (n : nat) : Uint8Array := repeat xab n.

Definition assertion (n : nat) : WebAuthnAssertion :=
  {| assertion_authenticatorData := authData x05;
     assertion_clientDataJSON := clientData;
     assertion_signature := sig n |}.

(** The envelopes of [assertion n]: 2 + 1 + 37 + 1 + 23 + n bytes. *)
Definition p256_envelope (n : nat) : Uint8Array :=
  [xd6; x44; x25] ++ authData x05 ++ [x17] ++ clientData ++ sig n.

Definition ed25519_envelope (n : nat) : Uint8Array :=
  [xd1; x5d; x25] ++ authData x05 ++ [x17] ++ clientData ++ sig n.

(** An [authenticatorData] of [2^31] zero bytes. *)
Definition huge_authData : Uint8Array := repeat x00 (Z.to_nat (2 ^ 31)).

(** JSON text of a flat object with string values:
    [{"k1":"v1","k2":"v2"}]. *)
Definition quote (s : JSString) : JSString := [34] ++ s ++ [34].

Fixpoint render_fields (fields : list (JSString * JSString)) : JSString :=
  match fields with
  | [] => []
  | [(k, v)] => quote k ++ str ":" ++ quote v
  | (k, v) :: fields' => quote k ++ str ":" ++ quote v ++ str "," ++ render_fields fields'
  end.

Definition render (fields : list (JSString * JSString)) : JSString :=
  str "{" ++ render_fields fields ++ str "}".

Definition object (fields : list (JSString * JSString)) : JSValue :=
  JObject (map (fun kv => (fst kv, JString (snd kv))) fields).

(** Client data of a [webauthn.get] ceremony at [https://example.com] with
    challenge bytes [01 02 03], the same with another ceremony type or
    another origin, and a text that is no JSON. *)
Definition fields (ceremony site : string) : list (JSString * JSString) :=
  [(str "type", str ceremony); (str "challenge", str "AQID"); (str "origin", str site)].

Definition get_example := fields "webauthn.get" "https://example.com".
Definition get_evil := fields "webauthn.get" "https://evil.com".
Definition create_evil := fields "webauthn.create" "https://evil.com".

(** [TextEncoder] and [TextDecoder] on ASCII text. *)
Definition TextEncoder_encode (s : JSString) : Uint8Array := map ToUint8 s.
Definition TextDecoder_decode (bytes : Uint8Array) : JSString := map byte_to_Z bytes.

(** [JSON.parse] on the documents above; any other text of the examples is
    no JSON. *)
Definition JSON_parse (json : JSString) : option JSValue :=
  if JSString_eqb json (render get_example) then Some (object get_example)
  else if JSString_eqb json (render get_evil) then Some (object get_evil)
  else if JSString_eqb json (render create_evil) then Some (object create_evil)
  else None.

(** Client data at [https://evil.com] in which the type, respectively the
    origin, is the object [{"toString":1}]: the texts, and a [JSON.parse]
    that knows them too. *)
Definition toString_object_text : JSString :=
  str "{" ++ quote (str "toString") ++ str ":1}".

Definition toString_object : JSValue := JObject [(str "toString", JNumber 1)].

Definition type_object_text : JSString :=
  str "{" ++ quote (str "type") ++ str ":" ++ toString_object_text ++ str "," ++
  quote (str "challenge") ++ str ":" ++ quote (str "AQID") ++ str "," ++
  quote (str "origin") ++ str ":" ++ quote (str "https://evil.com") ++ str "}".

Definition origin_object_text : JSString :=
  str "{" ++ quote (str "type") ++ str ":" ++ quote (str "webauthn.get") ++ str "," ++
  quote (str "challenge") ++ str ":" ++ quote (str "AQID") ++ str "," ++
  quote (str "origin") ++ str ":" ++ toString_object_text ++ str "}".

Definition JSON_parse_objects (json : JSString) : option JSValue :=
  if JSString_eqb json type_object_text
  then Some (JObject [(str "type", toString_object);
                      (str "challenge", JString (str "AQID"));
                      (str "origin", JString (str "https://evil.com"))])
  else if JSString_eqb json origin_object_text
  then Some (JObject [(str "type", JString (str "webauthn.get"));
                      (str "challenge", JString (str "AQID"));
                      (str "origin", toString_object)])
  else JSON_parse json.

(** What [parseClientDataJSON] makes of [fields ceremony site]. *)
Definition parsed (ceremony site : string) : ClientDataJSON :=
  {| type := JString (str ceremony);
     challenge := JString (str "AQID");
     origin := JString (str site);
     crossOrigin := JUndefined |}.

Definition decoded (authData : Uint8Array) (clientData : JSString) : DecodedVarsig :=
  {| multicodec := WEBAUTHN_ED25519; algorithm := Some Ed25519;
     authenticatorData := authData;
     clientDataJSON := TextEncoder_encode clientData;
     signature := sig 64 |}.

Definition options (uv : option bool) : VerificationOptions :=
  {| expectedOrigin := str "https://example.com";
     expectedChallenge := [x01; x02; x03];
     requireUserVerification := uv |}.

Definition verify := verifyWebAuthnAssertion TextDecoder_decode JSON_parse.

End Sample.

(* ===================================================================== *)
(** * Part III.  Lemmas *)
(* ===================================================================== *)

(* ===================================================================== *)
(** ** The program on the inputs of its unit tests *)
(* ===================================================================== *)

Example varintEncode_300 : varintEncode 300 = [xac; x02].
Proof. reflexivity. Qed.

Example varintDecode_300 : varintDecode [xac; x02] 0 = Ok (300, 2).
Proof. reflexivity. Qed.

Example varintDecode_offset :
  varintDecode [xff; xff; x81; x01; xff] 2 = Ok (129, 2).
Proof. reflexivity. Qed.

Example varintDecode_incomplete :
  varintDecode [x80; x80] 0 = Err VarintIncomplete.
Proof. reflexivity. Qed.

Example concat_example :
  concat [[x01; x02; x03]; [x04; x05]; [x06]] = Ok [x01; x02; x03; x04; x05; x06].
Proof. reflexivity. Qed.

Example varintEncode_WEBAUTHN_ED25519 : varintEncode WEBAUTHN_ED25519 = [xd1; x5d].
Proof. reflexivity. Qed.

Example varintEncode_WEBAUTHN_P256 : varintEncode WEBAUTHN_P256 = [xd6; x44].
Proof. reflexivity. Qed.

Example bytesToBase64url_example :
  bytesToBase64url [x01; x02; x03; x04; x05; xff; xfe] = Ok (str "AQIDBAX__g").
Proof. reflexivity. Qed.

Example base64urlToBytes_example :
  base64urlToBytes (str "AQIDBAX__g") = Ok [x01; x02; x03; x04; x05; xff; xfe].
Proof. reflexivity. Qed.

Example createEd25519Did_example :
  createEd25519Did (repeat x00 32) =
  Ok (str "did:key:z6MkeTG3bFFSLYVU7VqhgZxqr6YzpaGrQtFMh1uvqGy1vDnP").
Proof. vm_compute. reflexivity. Qed.

(* ===================================================================== *)
(** ** Facts about the integer primitives *)
(* ===================================================================== *)

Lemma byte_to_Z_range (b : byte) : 0 <= byte_to_Z b < 256.
Proof.
  unfold byte_to_Z. pose proof (Byte.to_N_bounded b) as H.
  split; [apply N2Z.is_nonneg | ].
  apply N.lt_succ_r in H. change (N.succ 255) with 256%N in H.
  change 256 with (Z.of_N 256). apply N2Z.inj_lt. exact H.
Qed.

Lemma byte_to_Z_ToUint8 (z : Z) : byte_to_Z (ToUint8 z) = z mod 256.
Proof.
  unfold ToUint8, byte_to_Z.
  assert (Hr : 0 <= z mod 256 < 256) by (apply Z.mod_pos_bound; lia).
  destruct (Byte.of_N (Z.to_N (z mod 256))) as [b | ] eqn:E.
  - apply Byte.to_of_N in E. rewrite E. rewrite Z2N.id; lia.
  - apply Byte.of_N_None_iff in E. lia.
Qed.

Lemma ToUint8_byte_to_Z (b : byte) : ToUint8 (byte_to_Z b) = b.
Proof.
  unfold ToUint8, byte_to_Z.
  pose proof (byte_to_Z_range b) as Hr. unfold byte_to_Z in Hr.
  rewrite Z.mod_small by exact Hr.
  rewrite N2Z.id, Byte.of_to_N. reflexivity.
Qed.

Lemma ToInt32_small (x : Z) : - 2 ^ 31 <= x < 2 ^ 31 -> JS.ToInt32 x = x.
Proof.
  intros H. unfold JS.ToInt32. rewrite Z.mod_small; lia.
Qed.

Lemma ToInt32_high (x : Z) : 2 ^ 31 <= x < 2 ^ 32 -> JS.ToInt32 x = x - 2 ^ 32.
Proof.
  intros H. unfold JS.ToInt32.
  replace (x + 2 ^ 31) with (x - 2 ^ 31 + 1 * 2 ^ 32) by lia.
  rewrite Z.mod_add by lia. rewrite Z.mod_small; lia.
Qed.

Lemma ToInt32_range (x : Z) : - 2 ^ 31 <= JS.ToInt32 x < 2 ^ 31.
Proof.
  unfold JS.ToInt32.
  pose proof (Z.mod_pos_bound (x + 2 ^ 31) (2 ^ 32)). lia.
Qed.

Lemma ToUint32_small (x : Z) : 0 <= x < 2 ^ 32 -> JS.ToUint32 x = x.
Proof. intros H. unfold JS.ToUint32. apply Z.mod_small; lia. Qed.

(** Low seven bits: [x & 0x7f] is [x mod 128], for every integer. *)
Lemma band_0x7f (x : Z) : JS.band x 0x7f = x mod 128.
Proof.
  unfold JS.band. rewrite (ToInt32_small (x := 0x7f)) by lia.
  change 0x7f with (Z.ones 7). rewrite Z.land_ones by lia.
  unfold JS.ToInt32. rewrite (Z.mod_eq (x + 2 ^ 31) (2 ^ 32)) by lia.
  replace (x + 2 ^ 31 - 2 ^ 32 * ((x + 2 ^ 31) / 2 ^ 32) - 2 ^ 31)
    with (x + (- ((x + 2 ^ 31) / 2 ^ 32) * 2 ^ 25) * 2 ^ 7) by lia.
  apply Z_mod_plus_full.
Qed.

(** The continuation bit of a byte. *)
Lemma band_0x80_byte (b : byte) :
  JS.band (byte_to_Z b) 0x80 = if byte_to_Z b <? 128 then 0 else 128.
Proof. destruct b; reflexivity. Qed.

Lemma testbit_above (d n k : Z) :
  0 <= d < 2 ^ k -> 0 <= k <= n -> Z.testbit d n = false.
Proof.
  intros Hd Hk. apply Z.testbit_false; [lia | ].
  rewrite Z.div_small; [reflexivity | ].
  split; [lia | ]. apply Z.lt_le_trans with (2 ^ k); [lia | ].
  apply Z.pow_le_mono_r; lia.
Qed.

(** Setting the continuation bit on a seven-bit value. *)
Lemma bor_0x80 (d : Z) : 0 <= d < 128 -> JS.bor d 0x80 = d + 128.
Proof.
  intros H. unfold JS.bor. rewrite !ToInt32_small by lia.
  assert (Hdisj : Z.land d 0x80 = 0).
  { change 0x80 with (2 ^ 7). apply Z.bits_inj'. intros n Hn.
    rewrite Z.land_spec, Z.bits_0, Z.pow2_bits_eqb by lia.
    destruct (Z.eqb_spec 7 n) as [<- | Hne]; [ | apply andb_false_r].
    rewrite andb_true_r. apply testbit_above with (k := 7); lia. }
  rewrite <- Z.lxor_lor, <- Z.add_nocarry_lxor by exact Hdisj. reflexivity.
Qed.

(** [value | (d << shift)] when [value] lies below bit [shift]: the two
    operands have no bit in common, the result is their sum wrapped to an
    Int32. *)
Lemma bor_shl_low (value d shift : Z) :
  0 <= shift < 32 -> 0 <= value < 2 ^ shift -> 0 <= d < 128 ->
  d * 2 ^ shift + value < 2 ^ 32 ->
  JS.bor value (JS.shl d shift) = JS.ToInt32 (d * 2 ^ shift + value).
Proof.
  intros Hs Hv Hd Hlt.
  assert (Hp : 0 < 2 ^ shift) by (apply Z.pow_pos_nonneg; lia).
  assert (Hp32 : 2 ^ shift <= 2 ^ 31) by (apply Z.pow_le_mono_r; lia).
  unfold JS.bor, JS.shl.
  rewrite (ToInt32_small (x := d)) by lia.
  rewrite (ToUint32_small (x := shift)) by lia.
  rewrite (Z.mod_small shift 32) by lia.
  rewrite Z.shiftl_mul_pow2 by lia.
  rewrite (ToInt32_small (x := JS.ToInt32 _)) by apply ToInt32_range.
  assert (Hv31 : value < 2 ^ 31) by lia.
  rewrite (ToInt32_small (x := value)) by lia.
  assert (Hdisj : forall y, Z.land value (y * 2 ^ shift) = 0).
  { intros y. apply Z.bits_inj'. intros n Hn. rewrite Z.land_spec, Z.bits_0.
    destruct (Z.ltb_spec n shift).
    - rewrite Z.mul_pow2_bits_low by lia. apply andb_false_r.
    - replace (Z.testbit value n) with false; [reflexivity | ].
      symmetry. apply testbit_above with (k := shift); lia. }
  assert (0 <= d * 2 ^ shift) by nia.
  destruct (Z_lt_dec (d * 2 ^ shift + value) (2 ^ 31)) as [Hlo | Hhi].
  - rewrite (ToInt32_small (x := d * 2 ^ shift)) by lia.
    rewrite (ToInt32_small (x := d * 2 ^ shift + value)) by lia.
    rewrite <- Z.lxor_lor, <- Z.add_nocarry_lxor by apply Hdisj. lia.
  - assert (Hd31 : 2 ^ 31 <= d * 2 ^ shift).
    { (* both are multiples of 2^shift *)
      destruct (Z_lt_dec (d * 2 ^ shift) (2 ^ 31)) as [Hc | ]; [ | lia].
      exfalso.
      assert (E : 2 ^ 31 = 2 ^ (31 - shift) * 2 ^ shift).
      { rewrite <- Z.pow_add_r by lia. f_equal. lia. }
      rewrite E in Hc, Hhi.
      assert (d < 2 ^ (31 - shift)) by nia.
      assert (d + 1 <= 2 ^ (31 - shift)) by lia.
      nia. }
    rewrite (ToInt32_high (x := d * 2 ^ shift)) by lia.
    rewrite (ToInt32_high (x := d * 2 ^ shift + value)) by lia.
    assert (E : d * 2 ^ shift - 2 ^ 32 = (d - 2 ^ (32 - shift)) * 2 ^ shift).
    { rewrite Z.mul_sub_distr_r, <- Z.pow_add_r by lia.
      replace (32 - shift + shift) with 32 by lia. reflexivity. }
    rewrite E.
    rewrite <- Z.lxor_lor, <- Z.add_nocarry_lxor by apply Hdisj. lia.
Qed.

(* ===================================================================== *)
(** ** Varint codec: unfolding and round trip *)
(* ===================================================================== *)

Lemma varintEncode_loop_eq (value : Z) (bytes : list Z) :
  varintEncode_loop value bytes =
  if Z_le_dec 0x80 value
  then varintEncode_loop (JS.ushr value 7)
         (bytes ++ [JS.bor (JS.band value 0x7f) 0x80])
  else (value, bytes).
Proof.
  rewrite varintEncode_loop_equation_1.
  destruct (Z_le_dec 0x80 value); reflexivity.
Qed.

Lemma varintDecode_loop_eq (bytes : Uint8Array) (offset value shift bytesRead : Z) :
  varintDecode_loop bytes offset value shift bytesRead =
  if Z_lt_dec (offset + bytesRead) (len bytes) then
    let byte := JS.num (get bytes (offset + bytesRead)) in
    let value' := JS.bor value (JS.shl (JS.band byte 0x7f) shift) in
    if JS.band byte 0x80 =? 0 then Ok (value', bytesRead + 1)
    else if Z_gt_dec (shift + 7) 53 then Err VarintTooLarge
    else varintDecode_loop bytes offset value' (shift + 7) (bytesRead + 1)
  else Err VarintIncomplete.
Proof.
  rewrite varintDecode_loop_equation_1.
  destruct (Z_lt_dec (offset + bytesRead) (len bytes)); [ | reflexivity].
  cbn. destruct (JS.band _ 0x80 =? 0); [reflexivity | ].
  cbn. destruct (Z_gt_dec (shift + 7) 53); reflexivity.
Qed.

(** The accumulator of the encoder loop is only appended to. *)
Lemma varintEncode_loop_acc (value : Z) (bytes : list Z) :
  varintEncode_loop value bytes =
  (fst (varintEncode_loop value []), bytes ++ snd (varintEncode_loop value [])).
Proof.
  revert bytes.
  induction value as [value IH] using (well_founded_induction (Z.lt_wf 0x80)).
  intros bytes.
  rewrite (varintEncode_loop_eq value bytes), (varintEncode_loop_eq value []).
  destruct (Z_le_dec 0x80 value) as [Hge | Hlt].
  - assert (Hlt : 0x80 <= JS.ushr value 7 < value \/ JS.ushr value 7 < 0x80).
    { pose proof (ushr7_log2 Hge). 
      destruct (Z_le_dec 0x80 (JS.ushr value 7)); [left | right; lia].
      split; [assumption | ].
      destruct (Z_lt_dec (JS.ushr value 7) value); [assumption | ].
      assert (Z.log2 value <= Z.log2 (JS.ushr value 7)) by (apply Z.log2_le_mono; lia).
      pose proof (Z.log2_nonneg value). lia. }
    destruct Hlt as [Hlt | Hlt].
    + rewrite (IH (JS.ushr value 7)) by (split; lia).
      rewrite (IH (JS.ushr value 7) ltac:(split; lia) ([] ++ _)).
      cbn [fst snd]. rewrite app_assoc. reflexivity.
    + rewrite !(varintEncode_loop_eq (JS.ushr value 7)).
      destruct (Z_le_dec 0x80 (JS.ushr value 7)); [lia | ].
      reflexivity.
  - cbn [fst snd]. rewrite app_nil_r. reflexivity.
Qed.

(** [varintEncode] by cases: a final byte below [0x80], else a
    continuation byte followed by the encoding of [value >>> 7]. *)
Lemma varintEncode_final (value : Z) :
  value < 0x80 -> varintEncode value = [ToUint8 (JS.band value 0x7f)].
Proof.
  intros H. unfold varintEncode. rewrite varintEncode_loop_eq.
  destruct (Z_le_dec 0x80 value); [lia | reflexivity].
Qed.

Lemma varintEncode_cont (value : Z) :
  0x80 <= value ->
  varintEncode value =
  ToUint8 (JS.bor (JS.band value 0x7f) 0x80) :: varintEncode (JS.ushr value 7).
Proof.
  intros H. unfold varintEncode. rewrite varintEncode_loop_eq.
  destruct (Z_le_dec 0x80 value); [ | lia].
  rewrite varintEncode_loop_acc.
  destruct (varintEncode_loop (JS.ushr value 7) []) as [v bs].
  cbn [fst snd]. cbn [app]. rewrite map_app. cbn [map app]. 
  rewrite map_app. reflexivity.
Qed.

Lemma ushr7_div (value : Z) : 0 <= value < 2 ^ 32 -> JS.ushr value 7 = value / 128.
Proof.
  intros H. unfold JS.ushr. rewrite ToUint32_small by lia.
  change (JS.ToUint32 7 mod 32) with 7.
  rewrite Z.shiftr_div_pow2 by lia. reflexivity.
Qed.

Lemma len_app (a b : Uint8Array) : len (a ++ b) = len a + len b.
Proof. unfold len. rewrite length_app. lia. Qed.

Lemma len_cons (x : byte) (a : Uint8Array) : len (x :: a) = 1 + len a.
Proof. unfold len. cbn [List.length]. lia. Qed.

Lemma len_nonneg (a : Uint8Array) : 0 <= len a.
Proof. unfold len. lia. Qed.

Lemma get_app_r (pre post : Uint8Array) (i : Z) :
  len pre <= i -> get (pre ++ post) i = get post (i - len pre).
Proof.
  intros H. unfold get. pose proof (len_nonneg pre).
  destruct (Z.ltb_spec i 0); [lia | ].
  destruct (Z.ltb_spec (i - len pre) 0); [lia | ].
  rewrite nth_error_app2 by (unfold len in *; lia).
  do 2 f_equal. unfold len. lia.
Qed.

Lemma get_middle (pre : Uint8Array) (b : byte) (post : Uint8Array) :
  get (pre ++ b :: post) (len pre) = Some (byte_to_Z b).
Proof.
  rewrite get_app_r by lia. replace (len pre - len pre) with 0 by lia.
  reflexivity.
Qed.

(** Decoding an encoded integer that sits somewhere in a buffer.  The loop
    state is [(value, shift, bytesRead)]: [value] holds the bits below
    [shift] that have been read, [m] is what is still encoded ahead. *)
Lemma varintDecode_loop_encoded (m : Z) :
  0 <= m ->
  forall (pre post : Uint8Array) (offset value shift bytesRead : Z),
    offset + bytesRead = len pre ->
    0 <= shift < 32 ->
    0 <= value < 2 ^ shift ->
    m * 2 ^ shift + value < 2 ^ 32 ->
    varintDecode_loop (pre ++ varintEncode m ++ post) offset value shift bytesRead =
    Ok (JS.ToInt32 (m * 2 ^ shift + value), bytesRead + len (varintEncode m)).
Proof.
  induction m as [m IH] using (well_founded_induction (Z.lt_wf 0)).
  intros Hm pre post offset value shift bytesRead Hoff Hs Hv Hlt.
  assert (Hp : 0 < 2 ^ shift) by (apply Z.pow_pos_nonneg; lia).
  assert (Hm32 : m < 2 ^ 32) by nia.
  rewrite varintDecode_loop_eq. rewrite Hoff.
  destruct (Z_le_dec 0x80 m) as [Hge | Hsmall].
  - (* continuation byte *)
    rewrite (varintEncode_cont Hge).
    rewrite band_0x7f, ushr7_div by lia.
    assert (Hd : 0 <= m mod 128 < 128) by (apply Z.mod_pos_bound; lia).
    rewrite bor_0x80 by exact Hd.
    cbn [app]. rewrite get_middle. cbn [JS.num].
    rewrite len_app, len_cons.
    destruct (Z_lt_dec (len pre) (len pre + (1 + len (varintEncode (m / 128) ++ post))))
      as [_ | Hc]; [ | pose proof (len_nonneg (varintEncode (m / 128) ++ post)); lia].
    cbv zeta. rewrite band_0x80_byte, band_0x7f.
    rewrite byte_to_Z_ToUint8.
    rewrite (Z.mod_small (m mod 128 + 128) 256) by lia.
    destruct (Z.ltb_spec (m mod 128 + 128) 128); [lia | ].
    change (128 =? 0) with false. cbv iota.
    assert (Hshift : shift + 7 < 32).
    { destruct (Z_lt_dec (shift + 7) 32); [assumption | exfalso].
      assert (2 ^ 32 <= 2 ^ (shift + 7)) by (apply Z.pow_le_mono_r; lia).
      rewrite Z.pow_add_r in * by lia. nia. }
    destruct (Z_gt_dec (shift + 7) 53); [lia | ].
    replace ((m mod 128 + 128) mod 128) with (m mod 128)
      by (rewrite <- (Z.mul_1_l 128) at 3; rewrite Z_mod_plus_full, Z.mod_mod; lia).
    assert (Hm' : m = 128 * (m / 128) + m mod 128) by (apply Z.div_mod; lia).
    assert (Hq : 0 <= m / 128) by (apply Z.div_pos; lia).
    assert (Hpow : 2 ^ (shift + 7) = 128 * 2 ^ shift)
      by (rewrite Z.pow_add_r by lia; lia).
    assert (Hval : m mod 128 * 2 ^ shift + value < 2 ^ (shift + 7)) by nia.
    assert (H31 : 2 ^ (shift + 7) <= 2 ^ 31) by (apply Z.pow_le_mono_r; lia).
    rewrite bor_shl_low by (try lia; nia).
    rewrite (ToInt32_small (x := m mod 128 * 2 ^ shift + value)) by nia.
    replace (pre ++ ToUint8 (m mod 128 + 128) :: varintEncode (m / 128) ++ post)
      with ((pre ++ [ToUint8 (m mod 128 + 128)]) ++ varintEncode (m / 128) ++ post)
      by (rewrite <- app_assoc; reflexivity).
    rewrite IH.
    + f_equal. f_equal; [f_equal; nia | rewrite len_cons; lia].
    + split; [lia | ]. apply Z.div_lt; lia.
    + exact Hq.
    + rewrite len_app, len_cons. unfold len at 2. cbn [List.length]. lia.
    + lia.
    + nia.
    + nia.
  - (* final byte *)
    rewrite (varintEncode_final (value := m)) by lia.
    rewrite band_0x7f, (Z.mod_small m 128) by lia.
    cbn [app]. rewrite get_middle. cbn [JS.num].
    rewrite len_app, len_cons.
    destruct (Z_lt_dec (len pre) (len pre + (1 + len post)))
      as [_ | Hc]; [ | pose proof (len_nonneg post); lia].
    cbv zeta. rewrite band_0x80_byte, band_0x7f.
    rewrite byte_to_Z_ToUint8.
    rewrite (Z.mod_small m 256), (Z.mod_small m 128) by lia.
    destruct (Z.ltb_spec m 128); [ | lia].
    change (0 =? 0) with true. cbv iota.
    rewrite bor_shl_low by lia.
    f_equal.
Qed.

Lemma varintEncode_len (n : Z) : 0 <= n < 2 ^ 32 -> 1 <= len (varintEncode n) <= 5.
Proof.
  intros H.
  assert (Hstep : forall v, 0x80 <= v < 2 ^ 32 ->
            len (varintEncode v) = 1 + len (varintEncode (v / 128))).
  { intros v Hv. rewrite varintEncode_cont, ushr7_div, len_cons by lia. reflexivity. }
  assert (Hfin : forall v, v < 0x80 -> len (varintEncode v) = 1).
  { intros v Hv. rewrite varintEncode_final by lia. reflexivity. }
  assert (Hdiv : forall v k, 0 <= v < 128 * k -> 0 <= v / 128 < k).
  { intros v k Hv. split; [apply Z.div_pos; lia | apply Z.div_lt_upper_bound; lia]. }
  destruct (Z_lt_dec n 0x80); [rewrite Hfin; lia | rewrite Hstep by lia].
  pose proof (Hdiv n (2 ^ 25) ltac:(lia)).
  destruct (Z_lt_dec (n / 128) 0x80); [rewrite Hfin; lia | rewrite Hstep by lia].
  pose proof (Hdiv (n / 128) (2 ^ 18) ltac:(lia)).
  destruct (Z_lt_dec (n / 128 / 128) 0x80); [rewrite Hfin; lia | rewrite Hstep by lia].
  pose proof (Hdiv (n / 128 / 128) (2 ^ 11) ltac:(lia)).
  destruct (Z_lt_dec (n / 128 / 128 / 128) 0x80); [rewrite Hfin; lia | rewrite Hstep by lia].
  pose proof (Hdiv (n / 128 / 128 / 128) (2 ^ 4) ltac:(lia)).
  rewrite Hfin; lia.
Qed.

(** Decoding an encoded integer inside a buffer yields its Int32 value. *)
Lemma varintDecode_encoded (pre post : Uint8Array) (n : Z) :
  0 <= n < 2 ^ 32 ->
  varintDecode (pre ++ varintEncode n ++ post) (len pre) =
  Ok (JS.ToInt32 n, len (varintEncode n)).
Proof.
  intros H. unfold varintDecode.
  rewrite varintDecode_loop_encoded by (try lia; cbn; lia).
  f_equal. f_equal. f_equal. cbn. lia.
Qed.

(** Round trip below [2^31]. *)
Lemma varint_roundtrip (n : Z) :
  0 <= n < 2 ^ 31 ->
  varintDecode (varintEncode n) 0 = Ok (n, len (varintEncode n)).
Proof.
  intros H.
  pose proof (@varintDecode_encoded [] [] n ltac:(lia)) as E.
  cbn [app] in E. rewrite app_nil_r in E. change (len []) with 0 in E.
  rewrite E, ToInt32_small by lia. reflexivity.
Qed.

(** From [2^31] on, the decoder returns the value wrapped to a negative
    Int32. *)
Lemma varint_roundtrip_wraps (n : Z) :
  2 ^ 31 <= n < 2 ^ 32 ->
  varintDecode (varintEncode n) 0 = Ok (n - 2 ^ 32, len (varintEncode n)).
Proof.
  intros H.
  pose proof (@varintDecode_encoded [] [] n ltac:(lia)) as E.
  cbn [app] in E. rewrite app_nil_r in E. change (len []) with 0 in E.
  rewrite E, ToInt32_high by lia. reflexivity.
Qed.

(* ===================================================================== *)
(** ** bytesEqual decides equality *)
(* ===================================================================== *)

Lemma byte_to_Z_inj (x y : byte) : byte_to_Z x = byte_to_Z y -> x = y.
Proof.
  intros E. rewrite <- (ToUint8_byte_to_Z x), <- (ToUint8_byte_to_Z y), E.
  reflexivity.
Qed.

Lemma get_nth_error (a : Uint8Array) (j : nat) :
  get a (Z.of_nat j) = option_map byte_to_Z (nth_error a j).
Proof.
  unfold get. destruct (Z.ltb_spec (Z.of_nat j) 0); [lia | ].
  rewrite Nat2Z.id. reflexivity.
Qed.

Lemma bytesEqual_loop_spec (n : nat) (a b : Uint8Array) :
  forall i : nat,
    bytesEqual_loop n a b (Z.of_nat i) = true <->
    (forall j, (i <= j < i + n)%nat -> nth_error a j = nth_error b j).
Proof.
  induction n as [ | n IH]; intros i; cbn [bytesEqual_loop].
  - split; [intros _ j Hj; lia | reflexivity].
  - rewrite !get_nth_error.
    replace (Z.of_nat i + 1) with (Z.of_nat (S i)) by lia.
    assert (Hstep : (forall j, (i <= j < i + S n)%nat -> nth_error a j = nth_error b j) <->
                    nth_error a i = nth_error b i /\
                    (forall j, (S i <= j < S i + n)%nat -> nth_error a j = nth_error b j)).
    { split.
      - intros H. split; [apply H; lia | intros j Hj; apply H; lia].
      - intros [H0 H] j Hj. destruct (Nat.eq_dec j i) as [-> | ]; [exact H0 | apply H; lia]. }
    rewrite Hstep. clear Hstep.
    destruct (nth_error a i) as [x | ], (nth_error b i) as [y | ]; cbn [option_map].
    + destruct (Z.eqb_spec (byte_to_Z x) (byte_to_Z y)) as [E | Hne]; cbn [negb].
      * apply byte_to_Z_inj in E. subst y. rewrite IH. tauto.
      * split; [discriminate | ]. intros [E _]. injection E as ->. contradiction.
    + split; [discriminate | intros [E _]; discriminate E].
    + split; [discriminate | intros [E _]; discriminate E].
    + rewrite IH. tauto.
Qed.

Lemma bytesEqual_spec (a b : Uint8Array) : bytesEqual a b = true <-> a = b.
Proof.
  unfold bytesEqual.
  destruct (Z.eqb_spec (len a) (len b)) as [Elen | Hne]; cbn [negb].
  - change 0 with (Z.of_nat 0). rewrite bytesEqual_loop_spec.
    assert (Hl : List.length a = List.length b) by (unfold len in Elen; lia).
    split.
    + intros H. apply nth_error_ext. intros j.
      destruct (Nat.lt_ge_cases j (List.length a)) as [Hj | Hj]; [apply H; lia | ].
      rewrite (proj2 (nth_error_None a j)) by lia.
      rewrite (proj2 (nth_error_None b j)) by lia. reflexivity.
    + intros -> j _. reflexivity.
  - split; [discriminate | intros ->; contradiction].
Qed.

(* ===================================================================== *)
(** ** concat writes the arrays one after the other *)
(* ===================================================================== *)

Lemma len_skipn (n : nat) (a : Uint8Array) :
  len (skipn n a) = Z.max (len a - Z.of_nat n) 0.
Proof. unfold len. rewrite length_skipn. lia. Qed.

Lemma len_firstn (n : nat) (a : Uint8Array) :
  len (firstn n a) = Z.min (Z.of_nat n) (len a).
Proof. unfold len. rewrite length_firstn. lia. Qed.

Lemma firstn_len_app (a b : Uint8Array) : firstn (Z.to_nat (len a)) (a ++ b) = a.
Proof.
  unfold len. rewrite Nat2Z.id, firstn_app, Nat.sub_diag, firstn_all.
  cbn [firstn]. apply app_nil_r.
Qed.

Lemma skipn_len_app (a b : Uint8Array) : skipn (Z.to_nat (len a)) (a ++ b) = b.
Proof.
  unfold len. rewrite Nat2Z.id, skipn_app, Nat.sub_diag, skipn_all.
  reflexivity.
Qed.

Lemma set_in_place (done rest arr : Uint8Array) :
  len arr <= len rest ->
  set (done ++ rest) arr (len done) =
  Ok (done ++ arr ++ skipn (Z.to_nat (len arr)) rest).
Proof.
  intros H. unfold set. pose proof (len_nonneg done).
  rewrite len_app.
  destruct (Z.ltb_spec (len done) 0); [lia | ].
  destruct (Z.ltb_spec (len done + len rest) (len done + len arr)); [lia | ].
  cbn [orb]. rewrite firstn_len_app.
  pose proof (len_nonneg arr).
  rewrite Z2Nat.inj_add, Nat.add_comm, <- skipn_skipn, skipn_len_app by lia.
  reflexivity.
Qed.

Lemma concat_loop_fills (arrays : list Uint8Array) :
  forall done rest : Uint8Array,
    len rest = len (List.concat arrays) ->
    concat_loop arrays (done ++ rest) (len done) = Ok (done ++ List.concat arrays).
Proof.
  induction arrays as [ | arr arrays IH]; intros done rest Hlen.
  - cbn in *. destruct rest; [reflexivity | ].
    rewrite len_cons in Hlen. pose proof (len_nonneg rest). change (len []) with 0 in Hlen. lia.
  - cbn [concat_loop List.concat] in *. rewrite len_app in Hlen.
    pose proof (len_nonneg (List.concat arrays)).
    rewrite set_in_place by lia. cbn [bind].
    rewrite app_assoc, <- len_app.
    rewrite IH; [rewrite <- app_assoc; reflexivity | ].
    rewrite len_skipn, Z2Nat.id by apply len_nonneg. lia.
Qed.

Lemma totalLength_concat (arrays : list Uint8Array) (sum : Z) :
  fold_left (fun sum arr => sum + len arr) arrays sum = sum + len (List.concat arrays).
Proof.
  revert sum. induction arrays as [ | arr arrays IH]; intros sum; cbn [fold_left List.concat].
  - change (len []) with 0. lia.
  - rewrite IH, len_app. lia.
Qed.

(** [concat] never raises the [RangeError] of [set], and returns the
    arrays in order. *)
Lemma concat_flat (arrays : list Uint8Array) :
  concat arrays = Ok (List.concat arrays).
Proof.
  unfold concat. rewrite totalLength_concat. cbn [Z.add].
  pose proof (@concat_loop_fills arrays [] (Uint8Array_new (len (List.concat arrays)))) as H.
  cbn [app] in H. change (len []) with 0 in H. apply H.
  unfold Uint8Array_new, len at 1. rewrite repeat_length, Z2Nat.id by apply len_nonneg.
  reflexivity.
Qed.

(* ===================================================================== *)
(** ** Slices *)
(* ===================================================================== *)

Lemma len_slice (a : Uint8Array) (start stop : Z) :
  len (slice a start stop) =
  Z.max (rel_index (len a) stop - rel_index (len a) start) 0.
Proof.
  unfold slice. cbv zeta. rewrite len_firstn, len_skipn.
  assert (Hr : forall i, 0 <= rel_index (len a) i <= len a).
  { intros i. unfold rel_index. pose proof (len_nonneg a).
    destruct (i <? 0) eqn:E; [ | apply Z.ltb_ge in E]; lia. }
  pose proof (Hr start). pose proof (Hr stop). lia.
Qed.

Lemma rel_index_in (n i : Z) : 0 <= i <= n -> rel_index n i = i.
Proof.
  intros H. unfold rel_index. destruct (Z.ltb_spec i 0); lia.
Qed.

(** A slice that lies inside the array, between two non-negative bounds. *)
Lemma slice_middle (pre a post : Uint8Array) :
  slice (pre ++ a ++ post) (len pre) (len pre + len a) = a.
Proof.
  unfold slice. cbv zeta.
  pose proof (len_nonneg pre). pose proof (len_nonneg a). pose proof (len_nonneg post).
  rewrite !rel_index_in by (rewrite !len_app; lia).
  rewrite skipn_len_app.
  replace (Z.max (len pre + len a - len pre) 0) with (len a) by lia.
  apply firstn_len_app.
Qed.

Lemma slice_from_end (pre s : Uint8Array) : slice_from (pre ++ s) (len pre) = s.
Proof.
  unfold slice_from.
  pose proof (@slice_middle pre s []) as H. rewrite app_nil_r in H.
  rewrite len_app. exact H.
Qed.

(* ===================================================================== *)
(** ** Encoder output and its decoding *)
(* ===================================================================== *)

Lemma encodeWebAuthnVarsig_layout (assertion : WebAuthnAssertion)
    (algorithm : SignatureAlgorithm) :
  encodeWebAuthnVarsig assertion algorithm =
  Ok (layout (ALGORITHM_TO_MULTICODEC algorithm)
        (assertion_authenticatorData assertion)
        (assertion_clientDataJSON assertion)
        (assertion_signature assertion)).
Proof.
  unfold encodeWebAuthnVarsig. cbv zeta. rewrite concat_flat.
  unfold layout. cbn [List.concat]. rewrite app_nil_r. reflexivity.
Qed.

(** What the decoder does once the three varints have been read. *)
Lemma decodeWebAuthnVarsig_header (varsig : Uint8Array)
    (mc n0 la n1 lc n2 : Z) :
  varintDecode varsig 0 = Ok (mc, n0) ->
  varintDecode varsig n0 = Ok (la, n1) ->
  varintDecode varsig (n0 + n1 + la) = Ok (lc, n2) ->
  decodeWebAuthnVarsig varsig =
  if negb (mc =? WEBAUTHN_ED25519) && negb (mc =? WEBAUTHN_P256)
  then Err (UnsupportedMulticodec mc) else
  if n0 + n1 + la >? len varsig then Err InvalidAuthenticatorDataLength else
  if n0 + n1 + la + n2 + lc >? len varsig then Err InvalidClientDataJSONLength else
  let signature := slice_from varsig (n0 + n1 + la + n2 + lc) in
  let decoded :=
    {| multicodec := mc; algorithm := getAlgorithm mc;
       authenticatorData := slice varsig (n0 + n1) (n0 + n1 + la);
       clientDataJSON := slice varsig (n0 + n1 + la + n2) (n0 + n1 + la + n2 + lc);
       signature := signature |} in
  match getAlgorithm mc with
  | Some Ed25519 =>
      if negb (len signature =? 64)
      then Err (InvalidEd25519SignatureLength (len signature))
      else Ok decoded
  | Some P256 =>
      if (len signature <? 64) || (len signature >? 74)
      then Err (InvalidP256SignatureLength (len signature))
      else Ok decoded
  | None => Ok decoded
  end.
Proof.
  intros H0 H1 H2. unfold decodeWebAuthnVarsig. cbv zeta.
  rewrite H0. cbn [bind]. change (0 + n0) with n0.
  destruct (negb (mc =? WEBAUTHN_ED25519) && negb (mc =? WEBAUTHN_P256));
    [reflexivity | ].
  rewrite H1. cbn [bind].
  destruct (n0 + n1 + la >? len varsig); [reflexivity | ].
  rewrite H2. cbn [bind]. reflexivity.
Qed.

Lemma multicodec_range (algorithm : SignatureAlgorithm) :
  0 <= ALGORITHM_TO_MULTICODEC algorithm < 2 ^ 31 /\
  len (varintEncode (ALGORITHM_TO_MULTICODEC algorithm)) = 2.
Proof.
  destruct algorithm; split; try reflexivity;
    unfold ALGORITHM_TO_MULTICODEC, WEBAUTHN_ED25519, WEBAUTHN_P256; lia.
Qed.

Lemma getAlgorithm_multicodec (algorithm : SignatureAlgorithm) :
  getAlgorithm (ALGORITHM_TO_MULTICODEC algorithm) = Some algorithm.
Proof. destruct algorithm; reflexivity. Qed.

(** The three varints of an envelope in layout form, as the decoder reads
    them; the lengths come back as Int32. *)
Lemma layout_header (algorithm : SignatureAlgorithm) (a c s : Uint8Array) :
  len a < 2 ^ 32 -> len c < 2 ^ 32 ->
  let v := layout (ALGORITHM_TO_MULTICODEC algorithm) a c s in
  let n1 := len (varintEncode (len a)) in
  let n2 := len (varintEncode (len c)) in
  varintDecode v 0 = Ok (ALGORITHM_TO_MULTICODEC algorithm, 2) /\
  varintDecode v 2 = Ok (JS.ToInt32 (len a), n1) /\
  varintDecode v (2 + n1 + len a) = Ok (JS.ToInt32 (len c), n2) /\
  len v = 2 + n1 + len a + n2 + len c + len s.
Proof.
  intros Ha Hc v n1 n2. subst v n1 n2. unfold layout.
  pose proof (multicodec_range algorithm) as [Hmc Hmclen].
  pose proof (len_nonneg a). pose proof (len_nonneg c).
  set (m := varintEncode (ALGORITHM_TO_MULTICODEC algorithm)) in *.
  set (ea := varintEncode (len a)). set (ec := varintEncode (len c)).
  repeat split.
  - pose proof (@varintDecode_encoded [] (ea ++ a ++ ec ++ c ++ s)
                  (ALGORITHM_TO_MULTICODEC algorithm) ltac:(lia)) as E.
    cbn [app] in E. change (len []) with 0 in E. fold m in E.
    rewrite E, Hmclen, ToInt32_small by lia. reflexivity.
  - pose proof (@varintDecode_encoded m (a ++ ec ++ c ++ s) (len a) ltac:(lia)) as E.
    rewrite Hmclen in E. exact E.
  - pose proof (@varintDecode_encoded (m ++ ea ++ a) (c ++ s) (len c) ltac:(lia)) as E.
    rewrite !len_app, Hmclen in E. fold ea in E.
    rewrite <- !app_assoc in E. rewrite Z.add_assoc in E. exact E.
  - rewrite !len_app. fold m. lia.
Qed.

(** Decoding an envelope in layout form whose two length fields are below
    [2^31]: the three parts come back, and only the signature length is
    left to check. *)
Lemma decodeWebAuthnVarsig_layout (algorithm : SignatureAlgorithm) (a c s : Uint8Array) :
  len a < 2 ^ 31 -> len c < 2 ^ 31 ->
  decodeWebAuthnVarsig (layout (ALGORITHM_TO_MULTICODEC algorithm) a c s) =
  checkSignatureLength algorithm
    {| multicodec := ALGORITHM_TO_MULTICODEC algorithm;
       algorithm := Some algorithm;
       authenticatorData := a; clientDataJSON := c; signature := s |}.
Proof.
  intros Ha Hc.
  pose proof (len_nonneg a). pose proof (len_nonneg c). pose proof (len_nonneg s).
  destruct (@layout_header algorithm a c s ltac:(lia) ltac:(lia)) as (R0 & R1 & R2 & Hlen).
  rewrite ToInt32_small in R1, R2 by lia.
  rewrite (decodeWebAuthnVarsig_header _ R0 R1 R2).
  replace (negb (ALGORITHM_TO_MULTICODEC algorithm =? WEBAUTHN_ED25519) &&
           negb (ALGORITHM_TO_MULTICODEC algorithm =? WEBAUTHN_P256)) with false
    by (destruct algorithm; reflexivity).
  rewrite Hlen.
  pose proof (len_nonneg (varintEncode (len c))).
  set (n1 := len (varintEncode (len a))) in *.
  set (n2 := len (varintEncode (len c))) in *.
  destruct (Z.gtb_spec (2 + n1 + len a) (2 + n1 + len a + n2 + len c + len s));
    [lia | ].
  destruct (Z.gtb_spec (2 + n1 + len a + n2 + len c)
                       (2 + n1 + len a + n2 + len c + len s)); [lia | ].
  cbv zeta. rewrite getAlgorithm_multicodec.
  assert (Ea : slice (layout (ALGORITHM_TO_MULTICODEC algorithm) a c s)
                 (2 + n1) (2 + n1 + len a) = a).
  { unfold layout.
    pose proof (@slice_middle
      (varintEncode (ALGORITHM_TO_MULTICODEC algorithm) ++ varintEncode (len a))
      a (varintEncode (len c) ++ c ++ s)) as E.
    rewrite len_app, (proj2 (multicodec_range algorithm)) in E.
    rewrite <- app_assoc in E. exact E. }
  assert (Ec : slice (layout (ALGORITHM_TO_MULTICODEC algorithm) a c s)
                 (2 + n1 + len a + n2) (2 + n1 + len a + n2 + len c) = c).
  { unfold layout.
    pose proof (@slice_middle
      (varintEncode (ALGORITHM_TO_MULTICODEC algorithm) ++ varintEncode (len a) ++
       a ++ varintEncode (len c)) c s) as E.
    rewrite !len_app, (proj2 (multicodec_range algorithm)) in E.
    rewrite <- !app_assoc in E. rewrite !Z.add_assoc in E. exact E. }
  assert (Es : slice_from (layout (ALGORITHM_TO_MULTICODEC algorithm) a c s)
                 (2 + n1 + len a + n2 + len c) = s).
  { unfold layout.
    pose proof (@slice_from_end
      (varintEncode (ALGORITHM_TO_MULTICODEC algorithm) ++ varintEncode (len a) ++
       a ++ varintEncode (len c) ++ c) s) as E.
    rewrite !len_app, (proj2 (multicodec_range algorithm)) in E.
    rewrite <- !app_assoc in E. rewrite !Z.add_assoc in E. exact E. }
  rewrite Ea, Ec, Es.
  destruct algorithm; reflexivity.
Qed.

(** Envelope round trip when both length fields are below [2^31]. *)
Lemma envelope_roundtrip (algorithm : SignatureAlgorithm) (a c s : Uint8Array) :
  len a < 2 ^ 31 -> len c < 2 ^ 31 -> signatureLengthOk algorithm (len s) ->
  decode_encoded
    {| assertion_authenticatorData := a; assertion_clientDataJSON := c;
       assertion_signature := s |} algorithm =
  Ok {| multicodec := ALGORITHM_TO_MULTICODEC algorithm;
        algorithm := Some algorithm;
        authenticatorData := a; clientDataJSON := c; signature := s |}.
Proof.
  intros Ha Hc Hs. unfold decode_encoded.
  rewrite encodeWebAuthnVarsig_layout. cbn [bind].
  cbn [assertion_authenticatorData assertion_clientDataJSON assertion_signature].
  rewrite decodeWebAuthnVarsig_layout by assumption.
  unfold checkSignatureLength. cbn [signature].
  destruct algorithm; cbn [signatureLengthOk] in Hs.
  - rewrite Hs. reflexivity.
  - destruct (Z.ltb_spec (len s) 64); [lia | ].
    destruct (Z.gtb_spec (len s) 74); [lia | ]. reflexivity.
Qed.

(** At a negative offset the first read is [undefined], which the loop
    takes for a final zero byte. *)
Lemma varintDecode_negative_offset (bytes : Uint8Array) (offset : Z) :
  offset < 0 -> varintDecode bytes offset = Ok (0, 1).
Proof.
  intros H. unfold varintDecode. rewrite varintDecode_loop_eq.
  pose proof (len_nonneg bytes).
  destruct (Z_lt_dec (offset + 0) (len bytes)); [ | lia].
  unfold get. destruct (Z.ltb_spec (offset + 0) 0); [ | lia].
  reflexivity.
Qed.

(** An [authenticatorData] of exactly [2^31] bytes: its length comes back
    from the varint decoder as [-2^31], the offset goes negative and the
    decoder ends up taking the last [2^31 - 8] bytes for the signature. *)
Lemma decodeWebAuthnVarsig_layout_2_31 (algorithm : SignatureAlgorithm)
    (a c s : Uint8Array) :
  len a = 2 ^ 31 -> len c < 2 ^ 31 ->
  decodeWebAuthnVarsig (layout (ALGORITHM_TO_MULTICODEC algorithm) a c s) =
  Err match algorithm with
      | Ed25519 => InvalidEd25519SignatureLength (2 ^ 31 - 8)
      | P256 => InvalidP256SignatureLength (2 ^ 31 - 8)
      end.
Proof.
  intros Ha Hc.
  pose proof (len_nonneg c). pose proof (len_nonneg s).
  destruct (@layout_header algorithm a c s ltac:(lia) ltac:(lia)) as (R0 & R1 & _ & Hlen).
  rewrite Ha in R1, Hlen.
  change (JS.ToInt32 (2 ^ 31)) with (- 2 ^ 31) in R1.
  change (len (varintEncode (2 ^ 31))) with 5 in R1, Hlen.
  set (v := layout (ALGORITHM_TO_MULTICODEC algorithm) a c s) in *.
  pose proof (len_nonneg (varintEncode (len c))).
  assert (R2 : varintDecode v (2 + 5 + - 2 ^ 31) = Ok (0, 1))
    by (apply varintDecode_negative_offset; lia).
  rewrite (decodeWebAuthnVarsig_header _ R0 R1 R2).
  replace (negb (ALGORITHM_TO_MULTICODEC algorithm =? WEBAUTHN_ED25519) &&
           negb (ALGORITHM_TO_MULTICODEC algorithm =? WEBAUTHN_P256)) with false
    by (destruct algorithm; reflexivity).
  destruct (Z.gtb_spec (2 + 5 + - 2 ^ 31) (len v)); [lia | ].
  destruct (Z.gtb_spec (2 + 5 + - 2 ^ 31 + 1 + 0) (len v)); [lia | ].
  cbv zeta. rewrite getAlgorithm_multicodec.
  assert (Els : len (slice_from v (2 + 5 + - 2 ^ 31 + 1 + 0)) = 2 ^ 31 - 8).
  { unfold slice_from. rewrite len_slice.
    rewrite (rel_index_in (n := len v) (i := len v)) by lia.
    unfold rel_index.
    destruct (Z.ltb_spec (2 + 5 + - 2 ^ 31 + 1 + 0) 0); lia. }
  destruct algorithm; rewrite Els; reflexivity.
Qed.

(* ===================================================================== *)
(** ** Decoding a truncated buffer *)
(* ===================================================================== *)

Lemma get_firstn (k : nat) (a : Uint8Array) (i : Z) :
  i < len (firstn k a) -> get (firstn k a) i = get a i.
Proof.
  intros H. unfold get. destruct (Z.ltb_spec i 0); [reflexivity | ].
  rewrite nth_error_firstn.
  rewrite len_firstn in H.
  destruct (Nat.ltb_spec (Z.to_nat i) k); [reflexivity | lia].
Qed.

Lemma get_in_range (a : Uint8Array) (i : Z) :
  0 <= i < len a -> exists b, get a i = Some (byte_to_Z b).
Proof.
  intros H. unfold get. destruct (Z.ltb_spec i 0); [lia | ].
  destruct (nth_error a (Z.to_nat i)) as [b | ] eqn:E.
  - exists b. reflexivity.
  - apply nth_error_None in E. unfold len in H. lia.
Qed.

(** The loop of [varintDecode] on a buffer and on a prefix of it, from a
    non-negative position: a successful read consumes bytes inside the
    buffer; the prefix gives the same result when it still holds all of
    them, and 'Varint incomplete' when it does not. *)
Lemma varintDecode_loop_prefix (k : nat) (v : Uint8Array) (offset : Z) :
  forall (r : nat) (value shift bytesRead val n : Z),
    shift_room shift = r ->
    0 <= offset + bytesRead ->
    varintDecode_loop v offset value shift bytesRead = Ok (val, n) ->
    bytesRead < n /\ offset + n <= len v /\
    (offset + n <= len (firstn k v) ->
     varintDecode_loop (firstn k v) offset value shift bytesRead = Ok (val, n)) /\
    (len (firstn k v) < offset + n ->
     varintDecode_loop (firstn k v) offset value shift bytesRead = Err VarintIncomplete).
Proof.
  induction r as [r IH] using lt_wf_ind.
  intros value shift bytesRead val n Hr Hpos Hv.
  rewrite varintDecode_loop_eq in Hv.
  rewrite (varintDecode_loop_eq (firstn k v)).
  destruct (Z_lt_dec (offset + bytesRead) (len v)) as [Hin | ]; [ | discriminate].
  cbv zeta in Hv |- *.
  assert (Hkv : len (firstn k v) <= len v) by (rewrite len_firstn; lia).
  destruct (JS.band (JS.num (get v (offset + bytesRead))) 0x80 =? 0) eqn:Efinal.
  - (* final byte *)
    injection Hv as <- <-.
    repeat split; try lia.
    + intros Hfit.
      destruct (Z_lt_dec (offset + bytesRead) (len (firstn k v))); [ | lia].
      rewrite get_firstn by lia. rewrite Efinal. reflexivity.
    + intros Hcut.
      destruct (Z_lt_dec (offset + bytesRead) (len (firstn k v))); [lia | reflexivity].
  - (* continuation byte *)
    destruct (Z_gt_dec (shift + 7) 53) as [ | Hroom]; [discriminate | ].
    assert (Hdecr : (shift_room (shift + 7) < r)%nat)
      by (subst r; apply shift_room_decr; assumption).
    assert (Hpos' : 0 <= offset + (bytesRead + 1)) by lia.
    destruct (IH _ Hdecr _ _ _ _ _ eq_refl Hpos' Hv) as (Hlt & Hle & Hfit & Hcut).
    repeat split; try lia.
    + intros Hn.
      destruct (Z_lt_dec (offset + bytesRead) (len (firstn k v))); [ | lia].
      rewrite get_firstn by lia. rewrite Efinal.
      destruct (Z_gt_dec (shift + 7) 53); [lia | ].
      apply Hfit. exact Hn.
    + intros Hn.
      destruct (Z_lt_dec (offset + bytesRead) (len (firstn k v))); [ | reflexivity].
      rewrite get_firstn by lia. rewrite Efinal.
      destruct (Z_gt_dec (shift + 7) 53); [lia | ].
      apply Hcut. exact Hn.
Qed.

Lemma varintDecode_prefix (k : nat) (v : Uint8Array) (offset val n : Z) :
  0 <= offset ->
  varintDecode v offset = Ok (val, n) ->
  0 < n /\ offset + n <= len v /\
  (offset + n <= len (firstn k v) -> varintDecode (firstn k v) offset = Ok (val, n)) /\
  (len (firstn k v) < offset + n -> varintDecode (firstn k v) offset = Err VarintIncomplete).
Proof.
  intros Hoff Hv. unfold varintDecode in *.
  apply (@varintDecode_loop_prefix k v offset _ 0 0 0 val n eq_refl); [lia | exact Hv].
Qed.

(** Every byte that a successful [varintDecode] consumed lies inside the
    buffer. *)
Lemma varintDecode_in_bounds (v : Uint8Array) (offset val n : Z) :
  0 <= offset -> varintDecode v offset = Ok (val, n) -> 0 < n /\ offset + n <= len v.
Proof.
  intros Hoff Hv.
  destruct (@varintDecode_prefix 0 v offset val n Hoff Hv) as (H1 & H2 & _).
  split; assumption.
Qed.

(** Slices of a prefix that still contains them. *)
Lemma slice_firstn (k : nat) (v : Uint8Array) (start stop : Z) :
  0 <= start <= stop -> stop <= len (firstn k v) ->
  slice (firstn k v) start stop = slice v start stop.
Proof.
  intros H1 H2. unfold slice. cbv zeta.
  assert (Hkv : len (firstn k v) <= len v) by (rewrite len_firstn; lia).
  rewrite !rel_index_in by lia.
  rewrite skipn_firstn_comm, firstn_firstn.
  f_equal. rewrite len_firstn in H2. lia.
Qed.

Lemma slice_from_firstn (k : nat) (v : Uint8Array) (start : Z) :
  0 <= start <= len (firstn k v) ->
  slice_from (firstn k v) start =
  firstn (Z.to_nat (len (firstn k v) - start)) (slice_from v start).
Proof.
  intros H. unfold slice_from, slice. cbv zeta.
  assert (Hkv : len (firstn k v) <= len v) by (rewrite len_firstn; lia).
  rewrite !rel_index_in by lia.
  rewrite skipn_firstn_comm, !firstn_firstn.
  f_equal. rewrite len_firstn in *. lia.
Qed.

Lemma recognized_check (mc : Z) :
  recognized mc ->
  negb (mc =? WEBAUTHN_ED25519) && negb (mc =? WEBAUTHN_P256) = false.
Proof. intros [-> | ->]; reflexivity. Qed.

Lemma decodeWebAuthnVarsig_reads (v : Uint8Array) (d : DecodedVarsig) :
  decodeWebAuthnVarsig v = Ok d ->
  exists mc n0 la n1 lc n2,
    varintDecode v 0 = Ok (mc, n0) /\ recognized mc /\
    varintDecode v n0 = Ok (la, n1) /\
    varintDecode v (n0 + n1 + la) = Ok (lc, n2).
Proof.
  unfold decodeWebAuthnVarsig. cbv zeta. intros H.
  destruct (varintDecode v 0) as [[mc n0] | ] eqn:E0; [ | discriminate].
  cbn [bind] in H. change (0 + n0) with n0 in H.
  destruct (negb (mc =? WEBAUTHN_ED25519) && negb (mc =? WEBAUTHN_P256)) eqn:Emc;
    [discriminate | ].
  destruct (varintDecode v n0) as [[la n1] | ] eqn:E1; [ | discriminate].
  cbn [bind] in H.
  destruct (n0 + n1 + la >? len v); [discriminate | ].
  destruct (varintDecode v (n0 + n1 + la)) as [[lc n2] | ] eqn:E2; [ | discriminate].
  exists mc, n0, la, n1, lc, n2.
  split; [reflexivity | split; [ | split; [exact E1 | exact E2]]].
  unfold recognized.
  destruct (Z.eqb_spec mc WEBAUTHN_ED25519); [left; assumption | ].
  destruct (Z.eqb_spec mc WEBAUTHN_P256); [right; assumption | ].
  cbn in Emc. discriminate Emc.
Qed.

(** Failures of the decoder before the signature check. *)
Lemma decodeWebAuthnVarsig_fail1 (v : Uint8Array) (e : CodecError) :
  varintDecode v 0 = Err e -> decodeWebAuthnVarsig v = Err e.
Proof. intros H. unfold decodeWebAuthnVarsig. cbv zeta. rewrite H. reflexivity. Qed.

Lemma decodeWebAuthnVarsig_fail2 (v : Uint8Array) (mc n0 : Z) (e : CodecError) :
  varintDecode v 0 = Ok (mc, n0) -> recognized mc ->
  varintDecode v n0 = Err e -> decodeWebAuthnVarsig v = Err e.
Proof.
  intros H0 Hmc H1. unfold decodeWebAuthnVarsig. cbv zeta.
  rewrite H0. cbn [bind]. change (0 + n0) with n0.
  rewrite (recognized_check Hmc), H1. reflexivity.
Qed.

Lemma decodeWebAuthnVarsig_fail3 (v : Uint8Array) (mc n0 la n1 : Z) :
  varintDecode v 0 = Ok (mc, n0) -> recognized mc ->
  varintDecode v n0 = Ok (la, n1) -> len v < n0 + n1 + la ->
  decodeWebAuthnVarsig v = Err InvalidAuthenticatorDataLength.
Proof.
  intros H0 Hmc H1 Hlen. unfold decodeWebAuthnVarsig. cbv zeta.
  rewrite H0. cbn [bind]. change (0 + n0) with n0.
  rewrite (recognized_check Hmc), H1. cbn [bind].
  destruct (Z.gtb_spec (n0 + n1 + la) (len v)); [reflexivity | lia].
Qed.

Lemma decodeWebAuthnVarsig_fail4 (v : Uint8Array) (mc n0 la n1 : Z) (e : CodecError) :
  varintDecode v 0 = Ok (mc, n0) -> recognized mc ->
  varintDecode v n0 = Ok (la, n1) -> n0 + n1 + la <= len v ->
  varintDecode v (n0 + n1 + la) = Err e ->
  decodeWebAuthnVarsig v = Err e.
Proof.
  intros H0 Hmc H1 Hlen H2. unfold decodeWebAuthnVarsig. cbv zeta.
  rewrite H0. cbn [bind]. change (0 + n0) with n0.
  rewrite (recognized_check Hmc), H1. cbn [bind].
  destruct (Z.gtb_spec (n0 + n1 + la) (len v)); [lia | ].
  rewrite H2. reflexivity.
Qed.

Lemma lengthPrefixes_reads (v : Uint8Array) (mc n0 la n1 lc n2 : Z) :
  varintDecode v 0 = Ok (mc, n0) ->
  varintDecode v n0 = Ok (la, n1) ->
  varintDecode v (n0 + n1 + la) = Ok (lc, n2) ->
  lengthPrefixes v = Ok (la, lc).
Proof.
  intros E0 E1 E2. unfold lengthPrefixes.
  rewrite E0. cbn [bind]. rewrite E1. cbn [bind]. rewrite E2. reflexivity.
Qed.

Lemma getAlgorithm_recognized (mc : Z) :
  recognized mc ->
  (mc = WEBAUTHN_ED25519 /\ getAlgorithm mc = Some Ed25519) \/
  (mc = WEBAUTHN_P256 /\ getAlgorithm mc = Some P256).
Proof. intros [-> | ->]; [left | right]; split; reflexivity. Qed.

(** Decoding a cut envelope whose length prefixes are not negative: what
    the decoder returns depends on where the cut falls. *)
Lemma decodeWebAuthnVarsig_cut (v : Uint8Array) (d : DecodedVarsig) (la lc : Z) (k : nat) :
  decodeWebAuthnVarsig v = Ok d ->
  lengthPrefixes v = Ok (la, lc) -> 0 <= la -> 0 <= lc ->
  (k < List.length v)%nat ->
  let p := firstn k v in
  let cut := len v - len p in
  0 < cut /\
  (len (signature d) < cut ->
   exists e, decodeWebAuthnVarsig p = Err e /\ truncation_error e) /\
  (cut <= len (signature d) ->
   exists a,
     algorithm d = Some a /\
     decodeWebAuthnVarsig p =
     checkSignatureLength a
       {| multicodec := multicodec d; algorithm := algorithm d;
          authenticatorData := authenticatorData d;
          clientDataJSON := clientDataJSON d;
          signature := firstn (Z.to_nat (len (signature d) - cut)) (signature d) |}).
Proof.
  intros Hd Hlp Hla Hlc Hk p cut.
  destruct (decodeWebAuthnVarsig_reads _ Hd)
    as (mc & n0 & la' & n1 & lc' & n2 & E0 & Hmc & E1 & E2).
  rewrite (lengthPrefixes_reads _ E0 E1 E2) in Hlp.
  injection Hlp as -> ->.
  rewrite (decodeWebAuthnVarsig_header _ E0 E1 E2) in Hd.
  rewrite (recognized_check Hmc) in Hd.
  destruct (Z.gtb_spec (n0 + n1 + la) (len v)) as [ | Hfit1]; [discriminate | ].
  destruct (Z.gtb_spec (n0 + n1 + la + n2 + lc) (len v)) as [ | Hfit2]; [discriminate | ].
  cbv zeta in Hd.
  destruct (@varintDecode_prefix k v 0 mc n0 ltac:(lia) E0) as (Hn0 & _ & P0 & Q0).
  destruct (@varintDecode_prefix k v n0 la n1 ltac:(lia) E1) as (Hn1 & _ & P1 & Q1).
  destruct (@varintDecode_prefix k v (n0 + n1 + la) lc n2 ltac:(lia) E2)
    as (Hn2 & _ & P2 & Q2).
  fold p in P0, Q0, P1, Q1, P2, Q2.
  assert (Hp : len p = Z.of_nat k) by (unfold p; rewrite len_firstn; unfold len; lia).
  assert (Hv : Z.of_nat k < len v) by (unfold len; lia).
  assert (Hsig : len (slice_from v (n0 + n1 + la + n2 + lc)) =
                 len v - (n0 + n1 + la + n2 + lc)).
  { unfold slice_from. rewrite len_slice, !rel_index_in by lia. lia. }
  assert (Hd' : d = {| multicodec := mc; algorithm := getAlgorithm mc;
                       authenticatorData := slice v (n0 + n1) (n0 + n1 + la);
                       clientDataJSON :=
                         slice v (n0 + n1 + la + n2) (n0 + n1 + la + n2 + lc);
                       signature := slice_from v (n0 + n1 + la + n2 + lc) |}).
  { destruct (getAlgorithm mc) as [[ | ] | ].
    - destruct (negb _); [discriminate | ]. injection Hd as <-. reflexivity.
    - destruct (_ || _); [discriminate | ]. injection Hd as <-. reflexivity.
    - injection Hd as <-. reflexivity. }
  clear Hd. subst d. cbn [signature algorithm multicodec authenticatorData clientDataJSON].
  rewrite Hsig. subst cut. rewrite Hp.
  split; [lia | split].
  - (* the cut falls before the signature *)
    intros Hcut.
    destruct (Z_lt_dec (Z.of_nat k) n0).
    { exists VarintIncomplete. split; [ | exact I].
      apply decodeWebAuthnVarsig_fail1, Q0. lia. }
    destruct (Z_lt_dec (Z.of_nat k) (n0 + n1)).
    { exists VarintIncomplete. split; [ | exact I].
      apply decodeWebAuthnVarsig_fail2 with (mc := mc) (n0 := n0);
        [apply P0; lia | exact Hmc | apply Q1; lia]. }
    destruct (Z_lt_dec (Z.of_nat k) (n0 + n1 + la)).
    { exists InvalidAuthenticatorDataLength. split; [ | exact I].
      apply decodeWebAuthnVarsig_fail3 with (mc := mc) (n0 := n0) (la := la) (n1 := n1);
        [apply P0; lia | exact Hmc | apply P1; lia | lia]. }
    destruct (Z_lt_dec (Z.of_nat k) (n0 + n1 + la + n2)).
    { exists VarintIncomplete. split; [ | exact I].
      apply decodeWebAuthnVarsig_fail4 with (mc := mc) (n0 := n0) (la := la) (n1 := n1);
        [apply P0; lia | exact Hmc | apply P1; lia | lia | apply Q2; lia]. }
    exists InvalidClientDataJSONLength. split; [ | exact I].
    rewrite (@decodeWebAuthnVarsig_header p mc n0 la n1 lc n2)
      by (first [apply P0 | apply P1 | apply P2]; lia).
    rewrite (recognized_check Hmc).
    destruct (Z.gtb_spec (n0 + n1 + la) (len p)); [lia | ].
    destruct (Z.gtb_spec (n0 + n1 + la + n2 + lc) (len p)); [reflexivity | lia].
  - (* the cut falls inside the signature *)
    intros Hcut.
    rewrite (@decodeWebAuthnVarsig_header p mc n0 la n1 lc n2)
      by (first [apply P0 | apply P1 | apply P2]; lia).
    rewrite (recognized_check Hmc).
    destruct (Z.gtb_spec (n0 + n1 + la) (len p)); [lia | ].
    destruct (Z.gtb_spec (n0 + n1 + la + n2 + lc) (len p)); [lia | ].
    cbv zeta. unfold p.
    rewrite !slice_firstn by (fold p; lia).
    rewrite slice_from_firstn by (fold p; lia).
    fold p. rewrite Hp.
    replace (len v - (n0 + n1 + la + n2 + lc) - (len v - Z.of_nat k))
      with (Z.of_nat k - (n0 + n1 + la + n2 + lc)) by lia.
    destruct (getAlgorithm_recognized Hmc) as [[_ Ealg] | [_ Ealg]]; rewrite Ealg.
    + exists Ed25519. split; reflexivity.
    + exists P256. split; reflexivity.
Qed.

(** Signature-length invariant of every decoded envelope. *)
Lemma decodeWebAuthnVarsig_signature_length (v : Uint8Array) (d : DecodedVarsig) :
  decodeWebAuthnVarsig v = Ok d ->
  exists a, algorithm d = Some a /\ signatureLengthOk a (len (signature d)).
Proof.
  intros Hd.
  destruct (decodeWebAuthnVarsig_reads _ Hd)
    as (mc & n0 & la & n1 & lc & n2 & E0 & Hmc & E1 & E2).
  rewrite (decodeWebAuthnVarsig_header _ E0 E1 E2) in Hd.
  rewrite (recognized_check Hmc) in Hd.
  destruct (_ >? _); [discriminate | ].
  destruct (_ >? _); [discriminate | ].
  cbv zeta in Hd.
  destruct (getAlgorithm_recognized Hmc) as [[_ Ealg] | [_ Ealg]]; rewrite Ealg in Hd.
  - exists Ed25519.
    destruct (Z.eqb_spec (len (slice_from v (n0 + n1 + la + n2 + lc))) 64) as [E | ];
      [ | discriminate].
    injection Hd as <-. cbn. split; [reflexivity | assumption].
  - exists P256.
    destruct (Z.ltb_spec (len (slice_from v (n0 + n1 + la + n2 + lc))) 64);
      [discriminate | ].
    destruct (Z.gtb_spec (len (slice_from v (n0 + n1 + la + n2 + lc))) 74);
      [discriminate | ].
    injection Hd as <-. cbn. split; [reflexivity | lia].
Qed.

(* ===================================================================== *)
(** ** base64: encoding then decoding *)
(* ===================================================================== *)

Ltac ch_norm :=
  repeat match goal with
         | |- context [ch ?c] =>
             let v := eval vm_compute in (ch c) in change (ch c) with v
         | H : context [ch ?c] |- _ =>
             let v := eval vm_compute in (ch c) in change (ch c) with v in H
         end.

Lemma list_ind3 (A : Type) (P : list A -> Prop) :
  P [] -> (forall a, P [a]) -> (forall a b, P [a; b]) ->
  (forall a b c l, P l -> P (a :: b :: c :: l)) ->
  forall l, P l.
Proof.
  intros H0 H1 H2 H3 l.
  assert (H : P l /\ (forall a, P (a :: l)) /\ (forall a b, P (a :: b :: l))).
  { induction l as [ | x l (IH0 & IH1 & IH2)].
    - split; [exact H0 | split; [exact H1 | exact H2]].
    - split; [apply IH1 | split; [intros a; apply IH2 | ]].
      intros a b. apply H3. exact IH0. }
  apply H.
Qed.

Lemma decode_encode_sextet (n : Z) :
  0 <= n < 64 -> Base64.decode_char (Base64.encode_sextet n) = Some n.
Proof.
  intros H. unfold Base64.decode_char, Base64.encode_sextet. ch_norm.
  destruct (Z.ltb_spec n 26).
  { replace ((65 <=? 65 + n) && (65 + n <=? 90)) with true
      by (symmetry; apply andb_true_iff; split; apply Z.leb_le; lia).
    f_equal. lia. }
  destruct (Z.ltb_spec n 52).
  { replace ((65 <=? 97 + (n - 26)) && (97 + (n - 26) <=? 90)) with false
      by (symmetry; apply andb_false_iff; right; apply Z.leb_gt; lia).
    replace ((97 <=? 97 + (n - 26)) && (97 + (n - 26) <=? 122)) with true
      by (symmetry; apply andb_true_iff; split; apply Z.leb_le; lia).
    f_equal. lia. }
  destruct (Z.ltb_spec n 62).
  { replace ((65 <=? 48 + (n - 52)) && (48 + (n - 52) <=? 90)) with false
      by (symmetry; apply andb_false_iff; left; apply Z.leb_gt; lia).
    replace ((97 <=? 48 + (n - 52)) && (48 + (n - 52) <=? 122)) with false
      by (symmetry; apply andb_false_iff; left; apply Z.leb_gt; lia).
    replace ((48 <=? 48 + (n - 52)) && (48 + (n - 52) <=? 57)) with true
      by (symmetry; apply andb_true_iff; split; apply Z.leb_le; lia).
    f_equal. lia. }
  destruct (Z.eqb_spec n 62) as [-> | ]; [reflexivity | ].
  replace n with 63 by lia. reflexivity.
Qed.

(** An alphabet character is a byte-sized code unit and none of [=], [-],
    [_], nor whitespace. *)
Lemma alphabet_facts (u : Z) :
  alphabet u ->
  0 <= u <= 255 /\ u <> ch "=" /\ u <> ch "-" /\ u <> ch "_" /\
  Base64.is_whitespace u = false.
Proof.
  intros (n & Hn & ->). unfold Base64.encode_sextet, Base64.is_whitespace. ch_norm.
  destruct (Z.ltb_spec n 26); [ | destruct (Z.ltb_spec n 52);
    [ | destruct (Z.ltb_spec n 62); [ | destruct (Z.eqb_spec n 62)]]].
  all: repeat split; try lia.
  all: repeat match goal with
         | |- context [?a =? ?b] => destruct (Z.eqb_spec a b); [lia | ]
         end; reflexivity.
Qed.

(** The encoding of a byte string: a body of alphabet characters that
    decodes back to the bytes, followed by the padding that fills the
    length up to a multiple of four. *)
Lemma encode_groups_shape (data : JSString) :
  Forall (fun u => 0 <= u < 256) data ->
  exists body,
    Base64.encode_groups data =
      body ++ repeat (ch "=") (Z.to_nat ((4 - Z.of_nat (List.length body) mod 4) mod 4)) /\
    Forall alphabet body /\
    Z.of_nat (List.length body) mod 4 <> 1 /\
    Base64.decode_groups body = Some data.
Proof.
  assert (Hsx : forall n, 0 <= n < 64 -> alphabet (Base64.encode_sextet n))
    by (intros n Hn; exists n; split; [exact Hn | reflexivity]).
  induction data as [ | a | a b | a b c rest IH] using list_ind3; intros Hb.
  - exists []. repeat split; [constructor | cbn; lia].
  - apply Forall_cons_iff in Hb as [Ha _].
    assert (0 <= a / 4 < 64) by (Z.div_mod_to_equations; lia).
    assert (0 <= a mod 4 * 16 < 64) by (Z.div_mod_to_equations; lia).
    exists [Base64.encode_sextet (a / 4); Base64.encode_sextet (a mod 4 * 16)].
    repeat split.
    + repeat constructor; apply Hsx; assumption.
    + cbn; lia.
    + cbn [Base64.decode_groups]. rewrite !decode_encode_sextet by assumption.
      do 2 f_equal. Z.div_mod_to_equations; lia.
  - apply Forall_cons_iff in Hb as [Ha Hb]. apply Forall_cons_iff in Hb as [Hb _].
    assert (0 <= a / 4 < 64) by (Z.div_mod_to_equations; lia).
    assert (0 <= a mod 4 * 16 + b / 16 < 64) by (Z.div_mod_to_equations; lia).
    assert (0 <= b mod 16 * 4 < 64) by (Z.div_mod_to_equations; lia).
    exists [Base64.encode_sextet (a / 4); Base64.encode_sextet (a mod 4 * 16 + b / 16);
            Base64.encode_sextet (b mod 16 * 4)].
    repeat split.
    + repeat constructor; apply Hsx; assumption.
    + cbn; lia.
    + cbn [Base64.decode_groups]. rewrite !decode_encode_sextet by assumption.
      f_equal. f_equal; [ | f_equal]; Z.div_mod_to_equations; lia.
  - apply Forall_cons_iff in Hb as [Ha Hb]. apply Forall_cons_iff in Hb as [Hb Hc].
    apply Forall_cons_iff in Hc as [Hc Hrest].
    destruct (IH Hrest) as (body & Eenc & Halpha & Hmod & Hdec).
    assert (0 <= a / 4 < 64) by (Z.div_mod_to_equations; lia).
    assert (0 <= a mod 4 * 16 + b / 16 < 64) by (Z.div_mod_to_equations; lia).
    assert (0 <= b mod 16 * 4 + c / 64 < 64) by (Z.div_mod_to_equations; lia).
    assert (0 <= c mod 64 < 64) by (Z.div_mod_to_equations; lia).
    exists (Base64.encode_sextet (a / 4) :: Base64.encode_sextet (a mod 4 * 16 + b / 16) ::
            Base64.encode_sextet (b mod 16 * 4 + c / 64) ::
            Base64.encode_sextet (c mod 64) :: body).
    assert (Elen : Z.of_nat (List.length
                     (Base64.encode_sextet (a / 4) ::
                      Base64.encode_sextet (a mod 4 * 16 + b / 16) ::
                      Base64.encode_sextet (b mod 16 * 4 + c / 64) ::
                      Base64.encode_sextet (c mod 64) :: body)) mod 4 =
                   Z.of_nat (List.length body) mod 4).
    { cbn [List.length]. rewrite !Nat2Z.inj_succ.
      replace (Z.succ (Z.succ (Z.succ (Z.succ (Z.of_nat (List.length body))))))
        with (Z.of_nat (List.length body) + 1 * 4) by lia.
      apply Z_mod_plus_full. }
    repeat split.
    + cbn [Base64.encode_groups]. rewrite Eenc, Elen. reflexivity.
    + repeat constructor; try (apply Hsx; assumption). exact Halpha.
    + rewrite Elen. exact Hmod.
    + cbn [Base64.decode_groups]. rewrite !decode_encode_sextet by assumption.
      rewrite Hdec. f_equal. f_equal; [ | f_equal; [ | f_equal]];
        Z.div_mod_to_equations; lia.
Qed.

Lemma binaryString_map (bytes : Uint8Array) (acc : JSString) :
  fold_left (fun binaryString b => binaryString ++ [byte_to_Z b]) bytes acc =
  acc ++ map byte_to_Z bytes.
Proof.
  revert acc. induction bytes as [ | b bytes IH]; intros acc; cbn [fold_left map].
  - symmetry. apply app_nil_r.
  - rewrite IH, <- app_assoc. reflexivity.
Qed.

Lemma map_ToUint8_byte_to_Z (bytes : Uint8Array) :
  map ToUint8 (map byte_to_Z bytes) = bytes.
Proof.
  rewrite map_map. rewrite <- (map_id bytes) at 2.
  apply map_ext. intros b. apply ToUint8_byte_to_Z.
Qed.

(** [remove_padding] takes the padding off a padded body. *)
Lemma remove_padding_body (body : JSString) :
  Forall alphabet body ->
  Z.of_nat (List.length body) mod 4 <> 1 ->
  Base64.remove_padding
    (body ++ repeat (ch "=") (Z.to_nat ((4 - Z.of_nat (List.length body) mod 4) mod 4))) =
  body.
Proof.
  intros Halpha Hmod. unfold Base64.remove_padding.
  set (k := (4 - Z.of_nat (List.length body) mod 4) mod 4).
  assert (Hk : 0 <= k < 4) by (apply Z.mod_pos_bound; lia).
  assert (Hlen : Z.of_nat (List.length (body ++ repeat (ch "=") (Z.to_nat k))) mod 4 = 0).
  { rewrite length_app, repeat_length, Nat2Z.inj_add, Z2Nat.id by lia.
    subst k. Z.div_mod_to_equations. lia. }
  rewrite Hlen. cbn [Z.eqb]. rewrite rev_app_distr, rev_repeat.
  assert (Hlast : forall u r, rev body = u :: r -> (u =? ch "=") = false).
  { intros u r E. apply Z.eqb_neq.
    assert (Hin : In u body) by (apply in_rev; rewrite E; left; reflexivity).
    rewrite Forall_forall in Halpha. apply (alphabet_facts (Halpha u Hin)). }
  assert (Hcase : k = 0 \/ k = 1 \/ k = 2).
  { subst k. Z.div_mod_to_equations. lia. }
  destruct Hcase as [E | [E | E]]; rewrite E;
    [change (Z.to_nat 0) with 0%nat | change (Z.to_nat 1) with 1%nat
     | change (Z.to_nat 2) with 2%nat]; cbn [repeat app].
  - destruct (rev body) as [ | u r] eqn:Er; [rewrite app_nil_r; reflexivity | ].
    rewrite (Hlast u r eq_refl). rewrite app_nil_r. reflexivity.
  - rewrite Z.eqb_refl.
    destruct (rev body) as [ | u r] eqn:Er.
    + rewrite <- Er. apply rev_involutive.
    + rewrite (Hlast u r eq_refl). rewrite <- Er. apply rev_involutive.
  - rewrite !Z.eqb_refl. apply rev_involutive.
Qed.

Lemma filter_all (A : Type) (f : A -> bool) (l : list A) :
  Forall (fun x => f x = true) l -> filter f l = l.
Proof.
  induction 1 as [ | x l Hx _ IH]; cbn [filter]; [reflexivity | ].
  rewrite Hx, IH. reflexivity.
Qed.

Lemma filter_none (A : Type) (f : A -> bool) (l : list A) :
  Forall (fun x => f x = false) l -> filter f l = [].
Proof.
  induction 1 as [ | x l Hx _ IH]; cbn [filter]; [reflexivity | ].
  rewrite Hx, IH. reflexivity.
Qed.

(** On alphabet characters the two substitutions of [base64urlToBytes]
    undo the two of [bytesToBase64url]. *)
Lemma url_substitution_inverse (u : Z) :
  alphabet u ->
  let u' := (fun u => if u =? ch "/" then ch "_" else u)
              ((fun u => if u =? ch "+" then ch "-" else u) u) in
  (fun u => if u =? ch "_" then ch "/" else u)
    ((fun u => if u =? ch "-" then ch "+" else u) u') = u /\
  (u' =? ch "=") = false.
Proof.
  intros Hu. destruct (alphabet_facts Hu) as (_ & H1 & H2 & H3 & _).
  cbv zeta beta. revert H1 H2 H3. ch_norm. intros H1 H2 H3.
  destruct (Z.eqb_spec u 43) as [-> | ]; [split; reflexivity | ].
  destruct (Z.eqb_spec u 47) as [-> | ]; [split; reflexivity | ].
  destruct (Z.eqb_spec u 45); [contradiction | ].
  destruct (Z.eqb_spec u 95); [contradiction | ].
  split; [reflexivity | apply Z.eqb_neq; assumption].
Qed.

(** base64url round trip. *)
Lemma base64url_roundtrip (bytes : Uint8Array) :
  exists text,
    bytesToBase64url bytes = Ok text /\
    base64urlToBytes text = Ok bytes /\
    ~ In (ch "+") text /\ ~ In (ch "/") text /\ ~ In (ch "=") text.
Proof.
  unfold bytesToBase64url. cbv zeta.
  rewrite binaryString_map. cbn [app].
  assert (Hbytes : Forall (fun u => 0 <= u < 256) (map byte_to_Z bytes)).
  { apply Forall_forall. intros u Hu. apply in_map_iff in Hu as (b & <- & _).
    apply byte_to_Z_range. }
  unfold Base64.btoa.
  replace (existsb (fun u => 255 <? u) (map byte_to_Z bytes)) with false.
  2:{ symmetry. apply not_true_is_false. intros E.
      apply existsb_exists in E as (u & Hu & Hgt).
      rewrite Forall_forall in Hbytes. specialize (Hbytes u Hu).
      apply Z.ltb_lt in Hgt. lia. }
  destruct (encode_groups_shape Hbytes) as (body & Eenc & Halpha & Hmod & Hdec).
  rewrite Eenc.
  set (k := Z.to_nat ((4 - Z.of_nat (List.length body) mod 4) mod 4)) in *.
  set (f1 := fun u => if u =? ch "+" then ch "-" else u).
  set (f2 := fun u => if u =? ch "/" then ch "_" else u).
  set (g1 := fun u => if u =? ch "-" then ch "+" else u).
  set (g2 := fun u => if u =? ch "_" then ch "/" else u).
  assert (Hpoint : forall u, In u body ->
            g2 (g1 (f2 (f1 u))) = u /\ (f2 (f1 u) =? ch "=") = false).
  { intros u Hu. rewrite Forall_forall in Halpha.
    apply (url_substitution_inverse (Halpha u Hu)). }
  assert (Etext : remove_char (ch "=")
            (replace_char (ch "/") (ch "_")
               (replace_char (ch "+") (ch "-") (body ++ repeat (ch "=") k))) =
          map f2 (map f1 body)).
  { unfold remove_char, replace_char. fold f1 f2.
    rewrite !map_app, filter_app.
    rewrite filter_all.
    2:{ apply Forall_forall. intros u Hu.
        apply in_map_iff in Hu as (u1 & <- & Hu). apply in_map_iff in Hu as (u0 & <- & Hu).
        rewrite (proj2 (Hpoint u0 Hu)). reflexivity. }
    rewrite filter_none; [apply app_nil_r | ].
    apply Forall_forall. intros u Hu.
    apply in_map_iff in Hu as (u1 & <- & Hu). apply in_map_iff in Hu as (u0 & <- & Hu).
    apply repeat_spec in Hu. subst u0. reflexivity. }
  rewrite Etext.
  exists (map f2 (map f1 body)).
  split; [reflexivity | split].
  - unfold base64urlToBytes. cbv zeta. unfold replace_char. fold g1 g2.
    assert (Eback : map g2 (map g1 (map f2 (map f1 body))) = body).
    { rewrite !map_map. rewrite <- (map_id body) at 2.
      apply map_ext_in. intros u Hu. apply (Hpoint u Hu). }
    rewrite Eback. fold k.
    unfold Base64.atob. cbv zeta.
    rewrite filter_all.
    2:{ apply Forall_app. split.
        - apply Forall_forall. intros u Hu. rewrite Forall_forall in Halpha.
          destruct (alphabet_facts (Halpha u Hu)) as (_ & _ & _ & _ & Hw).
          rewrite Hw. reflexivity.
        - apply Forall_forall. intros u Hu. apply repeat_spec in Hu. subst u.
          reflexivity. }
    unfold k. rewrite remove_padding_body by assumption.
    destruct (Z.eqb_spec (Z.of_nat (List.length body) mod 4) 1); [contradiction | ].
    rewrite Hdec. rewrite map_ToUint8_byte_to_Z. reflexivity.
  - assert (Hnot : forall c, In c (map f2 (map f1 body)) ->
              c <> ch "+" /\ c <> ch "/" /\ c <> ch "=").
    { intros c Hc.
      apply in_map_iff in Hc as (u1 & <- & Hc). apply in_map_iff in Hc as (u0 & <- & Hc).
      destruct (Hpoint u0 Hc) as [_ Hne]. apply Z.eqb_neq in Hne.
      split; [ | split; [ | exact Hne]]; subst f1 f2; cbv beta; ch_norm.
      - destruct (Z.eqb_spec u0 43); [discriminate | ].
        destruct (Z.eqb_spec u0 47); [discriminate | assumption].
      - destruct (Z.eqb_spec u0 43); [discriminate | ].
        destruct (Z.eqb_spec u0 47); [discriminate | assumption]. }
    repeat split; intros Hin; apply Hnot in Hin; destruct Hin as (? & ? & ?); congruence.
Qed.

(* ===================================================================== *)
(** ** Digits and numbers *)
(* ===================================================================== *)

Lemma to_digits_eq (b n : Z) :
  to_digits b n =
  if Z_le_dec 2 b then
    if Z_lt_dec 0 n then to_digits b (n / b) ++ [n mod b] else []
  else [].
Proof.
  rewrite to_digits_equation_1.
  destruct (Z_le_dec 2 b); [ | reflexivity].
  cbn. destruct (Z_lt_dec 0 n); reflexivity.
Qed.

Lemma of_digits_snoc (b : Z) (ds : list Z) (d : Z) :
  of_digits b (ds ++ [d]) = of_digits b ds * b + d.
Proof. unfold of_digits. rewrite fold_left_app. reflexivity. Qed.

Lemma canonical_nil (b : Z) : canonical b [].
Proof. split; [constructor | intros d ds' E; discriminate E]. Qed.

Lemma canonical_snoc (b : Z) (ds : list Z) (d : Z) :
  canonical b (ds ++ [d]) -> canonical b ds /\ 0 <= d < b /\ (ds = [] -> d <> 0).
Proof.
  intros [Hall Hhead]. apply Forall_app in Hall as [Hds Hd].
  apply Forall_cons_iff in Hd as [Hd _].
  repeat split; try assumption; try lia.
  - intros x ds' E. subst ds. apply (Hhead x (ds' ++ [d])). reflexivity.
  - intros E. subst ds. apply (Hhead d []). reflexivity.
Qed.

Lemma of_digits_pos (b : Z) (ds : list Z) :
  2 <= b -> canonical b ds -> ds <> [] -> 0 < of_digits b ds.
Proof.
  intros Hb. induction ds as [ | d ds IH] using rev_ind; intros Hc Hne; [contradiction | ].
  apply canonical_snoc in Hc as (Hc & Hd & Hfirst).
  rewrite of_digits_snoc.
  destruct ds as [ | x ds'].
  - cbn. specialize (Hfirst eq_refl). lia.
  - assert (0 < of_digits b (x :: ds')) by (apply IH; [assumption | discriminate]).
    nia.
Qed.

Lemma of_to_digits (b : Z) :
  2 <= b -> forall n, 0 <= n -> of_digits b (to_digits b n) = n.
Proof.
  intros Hb n. induction n as [n IH] using (well_founded_induction (Z.lt_wf 0)).
  intros Hn. rewrite to_digits_eq.
  destruct (Z_le_dec 2 b); [ | lia].
  destruct (Z_lt_dec 0 n); [ | cbn; lia].
  rewrite of_digits_snoc.
  assert (0 <= n / b < n) by (split; [apply Z.div_pos; lia | apply Z.div_lt; lia]).
  rewrite IH by lia.
  rewrite Z.mul_comm. symmetry. apply Z.div_mod. lia.
Qed.

Lemma to_of_digits (b : Z) (ds : list Z) :
  2 <= b -> canonical b ds -> to_digits b (of_digits b ds) = ds.
Proof.
  intros Hb. induction ds as [ | d ds IH] using rev_ind; intros Hc.
  - rewrite to_digits_eq. destruct (Z_le_dec 2 b); [ | lia]. reflexivity.
  - pose proof Hc as Hc'. apply canonical_snoc in Hc' as (Hds & Hd & Hfirst).
    assert (Hpos : 0 < of_digits b (ds ++ [d]))
      by (apply of_digits_pos; [assumption | assumption | destruct ds; discriminate]).
    rewrite to_digits_eq.
    destruct (Z_le_dec 2 b); [ | lia].
    destruct (Z_lt_dec 0 (of_digits b (ds ++ [d]))); [ | lia].
    rewrite of_digits_snoc.
    replace ((of_digits b ds * b + d) / b) with (of_digits b ds)
      by (apply Z.div_unique_pos with (r := d); lia).
    replace ((of_digits b ds * b + d) mod b) with d
      by (apply Z.mod_unique_pos with (q := of_digits b ds); lia).
    rewrite IH by assumption. reflexivity.
Qed.

Lemma to_digits_canonical (b : Z) :
  2 <= b -> forall n, 0 <= n -> canonical b (to_digits b n).
Proof.
  intros Hb n. induction n as [n IH] using (well_founded_induction (Z.lt_wf 0)).
  intros Hn. rewrite to_digits_eq.
  destruct (Z_le_dec 2 b); [ | lia].
  destruct (Z_lt_dec 0 n); [ | apply canonical_nil].
  assert (Hq : 0 <= n / b < n) by (split; [apply Z.div_pos; lia | apply Z.div_lt; lia]).
  destruct (IH (n / b) Hq ltac:(lia)) as [Hall Hhead].
  split.
  - apply Forall_app. split; [exact Hall | ].
    constructor; [apply Z.mod_pos_bound; lia | constructor].
  - intros d ds' E.
    destruct (to_digits b (n / b)) as [ | x xs] eqn:Eq.
    + cbn in E. injection E as <- _.
      assert (n / b = 0).
      { rewrite <- (of_to_digits Hb (n := n / b)) by lia. rewrite Eq. reflexivity. }
      pose proof (Z.div_mod n b ltac:(lia)). lia.
    + cbn in E. injection E as <- _. apply (Hhead x xs). reflexivity.
Qed.

(* ===================================================================== *)
(** ** base58btc round trip *)
(* ===================================================================== *)

Lemma count_leading_split (x : Z) (l : list Z) :
  l = repeat x (count_leading x l) ++ skipn (count_leading x l) l /\
  (forall y l', skipn (count_leading x l) l = y :: l' -> y <> x).
Proof.
  induction l as [ | y l [IH1 IH2]]; cbn [count_leading].
  - split; [reflexivity | intros y l' E; discriminate E].
  - destruct (Z.eqb_spec y x) as [-> | Hne].
    + cbn [repeat skipn app]. split; [f_equal; exact IH1 | exact IH2].
    + cbn [repeat skipn app]. split; [reflexivity | ].
      intros z l' E. injection E as <- _. exact Hne.
Qed.

Lemma count_leading_repeat (x : Z) (k : nat) (l : list Z) :
  (forall y l', l = y :: l' -> y <> x) ->
  count_leading x (repeat x k ++ l) = k /\ skipn k (repeat x k ++ l) = l.
Proof.
  intros Hhead. induction k as [ | k [IH1 IH2]]; cbn [repeat app count_leading skipn].
  - split; [ | reflexivity].
    destruct l as [ | y l']; [reflexivity | ].
    cbn [count_leading]. destruct (Z.eqb_spec y x) as [E | ]; [ | reflexivity].
    exfalso. apply (Hhead y l' eq_refl E).
  - rewrite Z.eqb_refl. split; [f_equal; exact IH1 | exact IH2].
Qed.

Lemma base58_digit_roundtrip (d : Z) :
  0 <= d < 58 ->
  Base58.decode_char (Base58.encode_digit d) = Some d /\
  (Base58.encode_digit d = ch "1" -> d = 0).
Proof.
  intros Hd.
  assert (Hall : forallb (fun n =>
            match Base58.decode_char (Base58.encode_digit (Z.of_nat n)) with
            | Some d' => (d' =? Z.of_nat n) &&
                         ((n =? 0)%nat || negb (Base58.encode_digit (Z.of_nat n) =? ch "1"))
            | None => false
            end) (seq 0 58) = true) by (vm_compute; reflexivity).
  rewrite forallb_forall in Hall.
  specialize (Hall (Z.to_nat d) ltac:(apply in_seq; lia)).
  rewrite Z2Nat.id in Hall by lia.
  destruct (Base58.decode_char (Base58.encode_digit d)) as [d' | ]; [ | discriminate].
  apply andb_true_iff in Hall as [H1 H2]. apply Z.eqb_eq in H1. subst d'.
  split; [reflexivity | ].
  intros E. rewrite E, Z.eqb_refl in H2. cbn [negb] in H2. rewrite orb_false_r in H2.
  apply Nat.eqb_eq in H2. lia.
Qed.

Lemma traverse_decode_digits (ds : list Z) :
  Forall (fun d => 0 <= d < 58) ds ->
  traverse Base58.decode_char (map Base58.encode_digit ds) = Some ds.
Proof.
  induction 1 as [ | d ds Hd _ IH]; cbn [map traverse]; [reflexivity | ].
  rewrite (proj1 (base58_digit_roundtrip Hd)), IH. reflexivity.
Qed.

Lemma byte_to_Z_zero (b : byte) : byte_to_Z b = 0 -> b = x00.
Proof.
  intros E. rewrite <- (ToUint8_byte_to_Z b), E. reflexivity.
Qed.

Lemma base58_roundtrip (bytes : Uint8Array) :
  Base58.decode (Base58.encode bytes) = Some bytes.
Proof.
  unfold Base58.encode, Base58.decode. cbv zeta.
  set (values := map byte_to_Z bytes).
  set (zeroes := count_leading 0 values).
  destruct (count_leading_split 0 values) as [Hsplit Hhead]. fold zeroes in Hsplit, Hhead.
  set (rest := skipn zeroes values) in *.
  assert (Hrest : canonical 256 rest).
  { split; [ | exact Hhead].
    apply Forall_forall. intros u Hu.
    assert (Hin : In u values) by (rewrite Hsplit; apply in_or_app; right; exact Hu).
    apply in_map_iff in Hin as (b & <- & _). apply byte_to_Z_range. }
  assert (Hn : 0 <= of_digits 256 rest).
  { destruct rest as [ | x xs] eqn:Er; [cbn; lia | ].
    apply Z.lt_le_incl, of_digits_pos; [lia | exact Hrest | discriminate]. }
  destruct (@to_digits_canonical 58 ltac:(lia) (of_digits 256 rest) Hn) as [Hdig Hfirst].
  destruct (@count_leading_repeat (ch "1") zeroes
              (map Base58.encode_digit (to_digits 58 (of_digits 256 rest)))) as [Hcount Hskip].
  { intros y l' E.
    destruct (to_digits 58 (of_digits 256 rest)) as [ | d ds] eqn:Ed; [discriminate E | ].
    cbn [map] in E. injection E as <- _.
    apply Forall_cons_iff in Hdig as [Hd _].
    intros Eone. apply (Hfirst d ds eq_refl).
    apply (proj2 (base58_digit_roundtrip Hd)). exact Eone. }
  rewrite Hcount, Hskip.
  rewrite traverse_decode_digits by exact Hdig.
  rewrite of_to_digits by lia.
  rewrite to_of_digits by (try lia; exact Hrest).
  f_equal.
  assert (E : map ToUint8 (repeat 0 zeroes ++ rest) = bytes).
  { rewrite <- Hsplit. apply map_ToUint8_byte_to_Z. }
  rewrite map_app, map_repeat in E. exact E.
Qed.

Lemma base58btc_roundtrip (bytes : Uint8Array) :
  base58btc_decode (base58btc_encode bytes) = Some bytes.
Proof.
  unfold base58btc_decode, base58btc_encode. rewrite Z.eqb_refl.
  apply base58_roundtrip.
Qed.

(* ===================================================================== *)
(** ** did:key helpers: the multikey and its recovery *)
(* ===================================================================== *)

Lemma createEd25519Did_multikey (publicKey : Uint8Array) :
  createEd25519Did publicKey =
  Ok (str "did:key:" ++ base58btc_encode ([xed; x01] ++ publicKey)).
Proof.
  unfold createEd25519Did. cbv zeta.
  pose proof (len_nonneg publicKey) as Hlen.
  assert (Enew : Uint8Array_new (2 + len publicKey) =
                 [x00; x00] ++ Uint8Array_new (len publicKey)).
  { unfold Uint8Array_new. rewrite Z2Nat.inj_add by lia. reflexivity. }
  rewrite Enew.
  assert (Elen : len (Uint8Array_new (len publicKey)) = len publicKey).
  { unfold Uint8Array_new, len at 1. rewrite repeat_length, Z2Nat.id by lia. reflexivity. }
  assert (E0 : store ([x00; x00] ++ Uint8Array_new (len publicKey)) 0 0xed =
               [xed; x00] ++ Uint8Array_new (len publicKey)).
  { unfold store. rewrite len_app. change (len [x00; x00]) with 2.
    destruct (Z.ltb_spec 0 (2 + len (Uint8Array_new (len publicKey)))); [ | lia].
    reflexivity. }
  rewrite E0.
  assert (E1 : store ([xed; x00] ++ Uint8Array_new (len publicKey)) 1 0x01 =
               [xed; x01] ++ Uint8Array_new (len publicKey)).
  { unfold store. rewrite len_app. change (len [xed; x00]) with 2.
    destruct (Z.ltb_spec 1 (2 + len (Uint8Array_new (len publicKey)))); [ | lia].
    reflexivity. }
  rewrite E1.
  pose proof (@set_in_place [xed; x01] (Uint8Array_new (len publicKey)) publicKey
                ltac:(lia)) as Eset.
  change (len [xed; x01]) with 2 in Eset. rewrite Eset. cbn [bind].
  rewrite skipn_all2 by (unfold Uint8Array_new; rewrite repeat_length; lia).
  rewrite app_nil_r. reflexivity.
Qed.

Lemma createP256Did_multikey (publicKey : Uint8Array) :
  createP256Did publicKey =
  Ok (str "did:key:" ++ base58btc_encode ([x80; x24] ++ publicKey)).
Proof.
  unfold createP256Did. cbv zeta.
  pose proof (len_nonneg publicKey) as Hlen.
  change (len [x80; x24]) with 2.
  assert (Enew : Uint8Array_new (2 + len publicKey) =
                 [] ++ [x00; x00] ++ Uint8Array_new (len publicKey)).
  { unfold Uint8Array_new. rewrite Z2Nat.inj_add by lia. reflexivity. }
  rewrite Enew.
  assert (Elen : len (Uint8Array_new (len publicKey)) = len publicKey).
  { unfold Uint8Array_new, len at 1. rewrite repeat_length, Z2Nat.id by lia. reflexivity. }
  pose proof (@set_in_place [] ([x00; x00] ++ Uint8Array_new (len publicKey)) [x80; x24])
    as Eset0.
  change (len []) with 0 in Eset0.
  rewrite Eset0 by (rewrite len_app; change (len [x80; x24]) with 2;
                    change (len [x00; x00]) with 2; lia).
  cbn [bind]. change (Z.to_nat (len [x80; x24])) with 2%nat.
  cbn [app skipn].
  pose proof (@set_in_place [x80; x24] (Uint8Array_new (len publicKey)) publicKey
                ltac:(lia)) as Eset.
  change (len [x80; x24]) with 2 in Eset. cbn [app] in Eset. rewrite Eset. cbn [bind].
  rewrite skipn_all2 by (unfold Uint8Array_new; rewrite repeat_length; lia).
  rewrite app_nil_r. reflexivity.
Qed.

Lemma startsWith_app (prefix s : JSString) : startsWith (prefix ++ s) prefix = true.
Proof.
  induction prefix as [ | p prefix IH]; cbn [app startsWith]; [reflexivity | ].
  rewrite Z.eqb_refl, IH. reflexivity.
Qed.

Lemma extractPublicKeyFromDid_multikey (tag0 tag1 : byte) (publicKey : Uint8Array) :
  extractPublicKeyFromDid
    (str "did:key:" ++ base58btc_encode ([tag0; tag1] ++ publicKey)) = Ok publicKey.
Proof.
  unfold extractPublicKeyFromDid.
  assert (Estart : startsWith
            (str "did:key:" ++ base58btc_encode ([tag0; tag1] ++ publicKey))
            (str "did:key:z") = true).
  { unfold base58btc_encode.
    change (str "did:key:" ++ ch "z" :: Base58.encode ([tag0; tag1] ++ publicKey))
      with (str "did:key:z" ++ Base58.encode ([tag0; tag1] ++ publicKey)).
    apply startsWith_app. }
  rewrite Estart. cbn [negb].
  change (skipn 8 (str "did:key:" ++ base58btc_encode ([tag0; tag1] ++ publicKey)))
    with (base58btc_encode ([tag0; tag1] ++ publicKey)).
  rewrite base58btc_roundtrip.
  pose proof (@slice_from_end [tag0; tag1] publicKey) as E.
  change (len [tag0; tag1]) with 2 in E. rewrite E. reflexivity.
Qed.

Lemma didKey_multikey (algorithm : SignatureAlgorithm) (publicKey : Uint8Array) :
  didKey algorithm publicKey =
  Ok (str "did:key:" ++ base58btc_encode (tagBytes algorithm ++ publicKey)).
Proof.
  destruct algorithm; [apply createEd25519Did_multikey | apply createP256Did_multikey].
Qed.

(** Algorithm and key can be read back from the identifier. *)
Lemma didKey_injective (a a' : SignatureAlgorithm) (pk pk' : Uint8Array) (did : JSString) :
  didKey a pk = Ok did -> didKey a' pk' = Ok did -> a = a' /\ pk = pk'.
Proof.
  rewrite !didKey_multikey. intros E E'. rewrite <- E' in E. clear E'.
  injection E as E.
  apply (f_equal Base58.decode) in E. rewrite !base58_roundtrip in E.
  injection E as E.
  destruct a, a'; cbn [tagBytes app] in E; try discriminate E;
    injection E as ->; split; reflexivity.
Qed.

(* ===================================================================== *)
(** * Part IV.  Claims *)
(* ===================================================================== *)

(** C1 (the code departs from the claim).  The concrete values of the
    claim hold: [varintEncode(300) = [0xAC, 0x02]] and
    [varintDecode([0xAC, 0x02], 0) = (300, 2)].  The round trip holds for
    every [n] in [[0, 2^31)].  It does not hold on the rest of
    [[0, 2^32)]: the decoder, whose [<<] and [|=] work on signed 32-bit
    integers, returns [n - 2^32]; at [n = 2^31] the encoder yields
    [80 80 80 80 08] and the decoder returns [-2^31]. *)
Theorem C1_varint_roundtrip_breaks_at_2_31 :
  varintEncode 300 = [xac; x02] /\
  varintDecode [xac; x02] 0 = Ok (300, 2) /\
  (forall n, 0 <= n < 2 ^ 31 ->
     varintDecode (varintEncode n) 0 = Ok (n, len (varintEncode n))) /\
  (forall n, 2 ^ 31 <= n < 2 ^ 32 ->
     varintDecode (varintEncode n) 0 = Ok (n - 2 ^ 32, len (varintEncode n))) /\
  varintEncode 2147483648 = [x80; x80; x80; x80; x08] /\
  varintDecode (varintEncode 2147483648) 0 = Ok (-2147483648, 5).
Proof.
  split; [reflexivity | split; [reflexivity | ]].
  split; [exact varint_roundtrip | ].
  split; [exact varint_roundtrip_wraps | ].
  split; reflexivity.
Qed.

(** C2 (amended).  Let [v] be an accepted envelope whose two length
    prefixes are not negative and [p] a strict prefix of [v], [cut] bytes
    shorter.
    - When the cut removes more than the signature, decoding [p] fails
      with 'Varint incomplete', 'Invalid authenticatorData length' or
      'Invalid clientDataJSON length'.
    - When the cut falls inside the signature, [n] signature bytes are
      left: an Ed25519 envelope fails with 'Invalid Ed25519 signature
      length' reporting [n]; a P-256 envelope fails with 'Invalid P-256
      signature length' when [n < 64], and when [64 <= n] it is decoded,
      to the same tag, authenticatorData and clientDataJSON and the first
      [n] bytes of the signature.
    - A varint read of [p] from a non-negative offset never consumes bytes
      beyond the end of [p]. *)
Theorem C2_strict_prefix_decoding
    (v : Uint8Array) (d : DecodedVarsig) (la lc : Z) (k : nat) :
  decodeWebAuthnVarsig v = Ok d ->
  lengthPrefixes v = Ok (la, lc) -> 0 <= la -> 0 <= lc ->
  (k < List.length v)%nat ->
  let p := firstn k v in
  let cut := len v - len p in
  let n := len (signature d) - cut in
  (n < 0 ->
   exists e, decodeWebAuthnVarsig p = Err e /\ truncation_error e) /\
  (0 <= n -> algorithm d = Some Ed25519 ->
   decodeWebAuthnVarsig p = Err (InvalidEd25519SignatureLength n) /\ n < 64) /\
  (0 <= n < 64 -> algorithm d = Some P256 ->
   decodeWebAuthnVarsig p = Err (InvalidP256SignatureLength n)) /\
  (64 <= n -> algorithm d = Some P256 ->
   decodeWebAuthnVarsig p =
   Ok {| multicodec := multicodec d; algorithm := algorithm d;
         authenticatorData := authenticatorData d;
         clientDataJSON := clientDataJSON d;
         signature := firstn (Z.to_nat n) (signature d) |}) /\
  (forall offset val m,
     0 <= offset -> varintDecode p offset = Ok (val, m) -> offset + m <= len p).
Proof.
  intros Hd Hlp Hla Hlc Hk p cut n.
  destruct (decodeWebAuthnVarsig_cut _ Hd Hlp Hla Hlc Hk) as (Hcut & Hbefore & Hinside).
  fold p in Hcut, Hbefore, Hinside. fold cut in Hcut, Hbefore, Hinside.
  fold n in Hinside.
  destruct (decodeWebAuthnVarsig_signature_length _ Hd) as (a & Ha & Hlen).
  pose proof (len_nonneg (signature d)) as Hs.
  assert (Hnew : 0 <= n -> len (firstn (Z.to_nat n) (signature d)) = n).
  { intros Hn. rewrite len_firstn. lia. }
  assert (Hp : 0 <= n ->
            decodeWebAuthnVarsig p =
            checkSignatureLength a
              {| multicodec := multicodec d; algorithm := algorithm d;
                 authenticatorData := authenticatorData d;
                 clientDataJSON := clientDataJSON d;
                 signature := firstn (Z.to_nat n) (signature d) |}).
  { intros Hn. destruct (Hinside ltac:(lia)) as (a' & Ha' & Hp).
    rewrite Ha in Ha'. injection Ha' as <-. exact Hp. }
  split; [ | split; [ | split; [ | split]]].
  - intros Hn. apply Hbefore. lia.
  - intros Hn Halg. rewrite Ha in Halg. injection Halg as ->.
    cbn [signatureLengthOk] in Hlen.
    rewrite (Hp Hn). unfold checkSignatureLength. cbn [signature].
    rewrite (Hnew Hn).
    destruct (Z.eqb_spec n 64); [lia | ]. split; [reflexivity | lia].
  - intros Hn Halg. rewrite Ha in Halg. injection Halg as ->.
    rewrite (Hp ltac:(lia)). unfold checkSignatureLength. cbn [signature].
    rewrite (Hnew ltac:(lia)).
    destruct (Z.ltb_spec n 64); [reflexivity | lia].
  - intros Hn Halg. rewrite Ha in Halg. injection Halg as ->.
    cbn [signatureLengthOk] in Hlen.
    rewrite (Hp ltac:(lia)). unfold checkSignatureLength. cbn [signature].
    rewrite (Hnew ltac:(lia)).
    destruct (Z.ltb_spec n 64); [lia | ].
    destruct (Z.gtb_spec n 74); [lia | ]. reflexivity.
  - intros offset val m Hoff Hread.
    destruct (@varintDecode_in_bounds p offset val m Hoff Hread) as [_ Hin].
    exact Hin.
Qed.

(** C2, the claim as written fails: the P-256 envelope of a 65-byte
    signature is accepted, and so is its strict prefix that drops the last
    byte. *)
Lemma C2_counterexample :
  encodeWebAuthnVarsig (Sample.assertion 65) P256 = Ok (Sample.p256_envelope 65) /\
  decodeWebAuthnVarsig (Sample.p256_envelope 65) =
    Ok {| multicodec := WEBAUTHN_P256; algorithm := Some P256;
          authenticatorData := Sample.authData x05;
          clientDataJSON := Sample.clientData;
          signature := Sample.sig 65 |} /\
  (List.length (removelast (Sample.p256_envelope 65)) < List.length (Sample.p256_envelope 65))%nat /\
  removelast (Sample.p256_envelope 65) = firstn 128 (Sample.p256_envelope 65) /\
  decodeWebAuthnVarsig (removelast (Sample.p256_envelope 65)) =
    Ok {| multicodec := WEBAUTHN_P256; algorithm := Some P256;
          authenticatorData := Sample.authData x05;
          clientDataJSON := Sample.clientData;
          signature := Sample.sig 64 |}.
Proof. repeat split; vm_compute; try reflexivity; lia. Qed.

(** C2, instances of the amended statement on the P-256 envelope of a
    65-byte signature: cut inside the client data it is rejected for the
    clientDataJSON length, cut to 124 bytes it is rejected for a signature
    of 60 bytes, and without its last byte it is accepted. *)
Lemma C2_witness :
  (exists e, decodeWebAuthnVarsig (firstn 50 (Sample.p256_envelope 65)) = Err e /\
             truncation_error e) /\
  decodeWebAuthnVarsig (firstn 124 (Sample.p256_envelope 65)) =
    Err (InvalidP256SignatureLength 60) /\
  decodeWebAuthnVarsig (firstn 128 (Sample.p256_envelope 65)) =
    Ok {| multicodec := WEBAUTHN_P256; algorithm := Some P256;
          authenticatorData := Sample.authData x05;
          clientDataJSON := Sample.clientData;
          signature := Sample.sig 64 |}.
Proof.
  pose (d := {| multicodec := WEBAUTHN_P256; algorithm := Some P256;
                authenticatorData := Sample.authData x05;
                clientDataJSON := Sample.clientData;
                signature := Sample.sig 65 |}).
  split; [ | split].
  - apply (proj1 (@C2_strict_prefix_decoding (Sample.p256_envelope 65) d 37 23 50%nat
             eq_refl eq_refl ltac:(lia) ltac:(lia) ltac:(vm_compute; lia))).
    vm_compute. reflexivity.
  - apply (proj1 (proj2 (proj2 (@C2_strict_prefix_decoding (Sample.p256_envelope 65) d
             37 23 124%nat
             eq_refl eq_refl ltac:(lia) ltac:(lia) ltac:(vm_compute; lia)))));
      [vm_compute; split; [discriminate | reflexivity] | reflexivity].
  - apply (proj1 (proj2 (proj2 (proj2 (@C2_strict_prefix_decoding
             (Sample.p256_envelope 65) d 37 23 128%nat
             eq_refl eq_refl ltac:(lia) ltac:(lia) ltac:(vm_compute; lia))))));
      [vm_compute; discriminate | reflexivity].
Defined.

(** C3 (the code departs from the claim).  The round trip holds for
    every algorithm and all byte strings that satisfy the signature-length
    rule when authenticatorData and clientDataJSON are shorter than [2^31]
    bytes.  It does not hold for all byte strings: an Ed25519 assertion
    with a 64-byte signature whose authenticatorData has [2^31] bytes is
    encoded, but the decoder reads the length back as [-2^31] and rejects
    the envelope with an invalid signature length of [2^31 - 8]. *)
Theorem C3_roundtrip_breaks_at_2_31_bytes :
  (forall (algorithm : SignatureAlgorithm) (a c s : Uint8Array),
     len a < 2 ^ 31 -> len c < 2 ^ 31 -> signatureLengthOk algorithm (len s) ->
     decode_encoded
       {| assertion_authenticatorData := a; assertion_clientDataJSON := c;
          assertion_signature := s |} algorithm =
     Ok {| multicodec := ALGORITHM_TO_MULTICODEC algorithm;
           algorithm := Some algorithm;
           authenticatorData := a; clientDataJSON := c; signature := s |}) /\
  signatureLengthOk Ed25519 (len (Sample.sig 64)) /\
  decode_encoded
    {| assertion_authenticatorData := Sample.huge_authData;
       assertion_clientDataJSON := Sample.clientData;
       assertion_signature := Sample.sig 64 |} Ed25519 =
  Err (InvalidEd25519SignatureLength 2147483640).
Proof.
  split; [exact envelope_roundtrip | split; [reflexivity | ]].
  unfold decode_encoded. rewrite encodeWebAuthnVarsig_layout. cbn [bind].
  cbn [assertion_authenticatorData assertion_clientDataJSON assertion_signature].
  rewrite decodeWebAuthnVarsig_layout_2_31.
  - reflexivity.
  - unfold Sample.huge_authData, len. rewrite repeat_length.
    apply Z2Nat.id. apply Z.pow_nonneg. lia.
  - change (len Sample.clientData) with 23. lia.
Qed.

(** C4.  A decoded envelope always satisfies the signature-length rule of
    its tag: exactly 64 bytes for Ed25519, 64 to 74 bytes for P-256.  And
    an envelope whose header is read without error is rejected with the
    invalid-signature-length error of its tag as soon as the bytes that
    remain after clientDataJSON break that rule: any number but 64 (63,
    65, ...) for Ed25519, fewer than 64 or more than 74 (200, ...) for
    P-256; the error reports that number. *)
Theorem C4_signature_length_enforced :
  (forall (v : Uint8Array) (d : DecodedVarsig),
     decodeWebAuthnVarsig v = Ok d ->
     (algorithm d = Some Ed25519 /\ len (signature d) = 64) \/
     (algorithm d = Some P256 /\ 64 <= len (signature d) <= 74)) /\
  (forall (v : Uint8Array) (mc n0 la n1 lc n2 : Z),
     varintDecode v 0 = Ok (mc, n0) ->
     varintDecode v n0 = Ok (la, n1) ->
     varintDecode v (n0 + n1 + la) = Ok (lc, n2) ->
     n0 + n1 + la <= len v ->
     n0 + n1 + la + n2 + lc <= len v ->
     let remainder := slice_from v (n0 + n1 + la + n2 + lc) in
     (mc = WEBAUTHN_ED25519 -> len remainder <> 64 ->
      decodeWebAuthnVarsig v = Err (InvalidEd25519SignatureLength (len remainder))) /\
     (mc = WEBAUTHN_P256 -> len remainder < 64 \/ 74 < len remainder ->
      decodeWebAuthnVarsig v = Err (InvalidP256SignatureLength (len remainder)))).
Proof.
  split.
  - intros v d Hd.
    destruct (decodeWebAuthnVarsig_signature_length _ Hd) as ([ | ] & Ha & Hlen);
      [left | right]; split; assumption.
  - intros v mc n0 la n1 lc n2 E0 E1 E2 Hfit1 Hfit2 remainder.
    rewrite (decodeWebAuthnVarsig_header _ E0 E1 E2).
    destruct (Z.gtb_spec (n0 + n1 + la) (len v)); [lia | ].
    destruct (Z.gtb_spec (n0 + n1 + la + n2 + lc) (len v)); [lia | ].
    cbv zeta. fold remainder.
    split; intros -> Hlen; cbn [negb andb Z.eqb getAlgorithm].
    + change (negb (WEBAUTHN_ED25519 =? WEBAUTHN_ED25519) &&
              negb (WEBAUTHN_ED25519 =? WEBAUTHN_P256)) with false.
      change (getAlgorithm WEBAUTHN_ED25519) with (Some Ed25519). cbv iota.
      destruct (Z.eqb_spec (len remainder) 64); [contradiction | reflexivity].
    + change (negb (WEBAUTHN_P256 =? WEBAUTHN_ED25519) &&
              negb (WEBAUTHN_P256 =? WEBAUTHN_P256)) with false.
      change (getAlgorithm WEBAUTHN_P256) with (Some P256). cbv iota.
      destruct (Z.ltb_spec (len remainder) 64); [reflexivity | ].
      destruct (Z.gtb_spec (len remainder) 74); [reflexivity | lia].
Qed.

(** C4, instances: the encoded envelopes of a 63-byte and of a 65-byte
    signature under Ed25519 and of a 200-byte signature under P-256 are
    rejected; the accepted P-256 envelope of the examples holds a 65-byte
    signature. *)
Lemma C4_witness :
  decode_encoded (Sample.assertion 63) Ed25519 = Err (InvalidEd25519SignatureLength 63) /\
  decode_encoded (Sample.assertion 65) Ed25519 = Err (InvalidEd25519SignatureLength 65) /\
  decode_encoded (Sample.assertion 200) P256 = Err (InvalidP256SignatureLength 200) /\
  ((algorithm
      {| multicodec := WEBAUTHN_P256; algorithm := Some P256;
         authenticatorData := Sample.authData x05;
         clientDataJSON := Sample.clientData;
         signature := Sample.sig 65 |} = Some Ed25519 /\
    len (Sample.sig 65) = 64) \/
   (Some P256 = Some P256 /\ 64 <= len (Sample.sig 65) <= 74)).
Proof.
  split; [ | split; [ | split]].
  - exact (proj1 (proj2 C4_signature_length_enforced
             (Sample.ed25519_envelope 63) WEBAUTHN_ED25519 2 37 1 23 1
             eq_refl eq_refl eq_refl ltac:(vm_compute; discriminate)
             ltac:(vm_compute; discriminate))
             eq_refl ltac:(vm_compute; discriminate)).
  - exact (proj1 (proj2 C4_signature_length_enforced
             (Sample.ed25519_envelope 65) WEBAUTHN_ED25519 2 37 1 23 1
             eq_refl eq_refl eq_refl ltac:(vm_compute; discriminate)
             ltac:(vm_compute; discriminate))
             eq_refl ltac:(vm_compute; discriminate)).
  - exact (proj2 (proj2 C4_signature_length_enforced
             (Sample.p256_envelope 200) WEBAUTHN_P256 2 37 1 23 1
             eq_refl eq_refl eq_refl ltac:(vm_compute; discriminate)
             ltac:(vm_compute; discriminate))
             eq_refl ltac:(right; vm_compute; reflexivity)).
  - apply (proj1 C4_signature_length_enforced (Sample.p256_envelope 65)). reflexivity.
Defined.

(** C8.  For every algorithm and all byte strings, the encoder returns
    varint(tag) ++ varint(len authData) ++ authData ++
    varint(len clientData) ++ clientData ++ signature: the signature comes
    last and carries no length prefix. *)
Theorem C8_encoder_layout
    (algorithm : SignatureAlgorithm) (authData clientData signature : Uint8Array) :
  encodeWebAuthnVarsig
    {| assertion_authenticatorData := authData;
       assertion_clientDataJSON := clientData;
       assertion_signature := signature |} algorithm =
  Ok (varintEncode (ALGORITHM_TO_MULTICODEC algorithm) ++
      varintEncode (len authData) ++ authData ++
      varintEncode (len clientData) ++ clientData ++ signature).
Proof. apply encodeWebAuthnVarsig_layout. Qed.

(** C5 (amended).  For every decoded envelope that passes the type, origin
    and challenge checks, whose authenticatorData is at least 37 bytes long
    and has the flags byte [0x01] at offset 32: the result is valid, with
    the parsed client data and the flags (only userPresent set), when
    [requireUserVerification] is [false]; it is the user-verification
    failure when [requireUserVerification] is [true] or omitted. *)
Theorem C5_user_verification_gate
    (TextDecoder_decode : Uint8Array -> JSString)
    (JSON_parse : JSString -> option JSValue)
    (decoded : DecodedVarsig) (options : VerificationOptions)
    (cd : ClientDataJSON) (challengeBytes : Uint8Array) :
  parseClientDataJSON TextDecoder_decode JSON_parse (clientDataJSON decoded) = Ok cd ->
  strict_equals_string (type cd) (str "webauthn.get") = true ->
  strict_equals_string (origin cd) (expectedOrigin options) = true ->
  base64urlToBytes_value (challenge cd) = Ok challengeBytes ->
  bytesEqual challengeBytes (expectedChallenge options) = true ->
  37 <= len (authenticatorData decoded) ->
  get (authenticatorData decoded) 32 = Some 0x01 ->
  verifyWebAuthnAssertion TextDecoder_decode JSON_parse decoded options =
  match requireUserVerification options with
  | Some false =>
      Ok {| valid := true; error := None; clientData := Some cd;
            flags := Some {| userPresent := true; userVerified := false;
                             backupEligible := false; backupState := false |} |}
  | _ => Ok (invalid UserVerificationNotSet)
  end.
Proof.
  intros Hparse Htype Horigin Hchal Heq Hlen Hflags.
  unfold verifyWebAuthnAssertion.
  rewrite Hparse. cbn [bind]. rewrite Htype, Horigin. cbn [negb].
  rewrite Hchal. cbn [bind]. rewrite Heq. cbn [negb].
  destruct (Z.ltb_spec (len (authenticatorData decoded)) 37); [lia | ].
  rewrite Hflags. cbn [JS.num].
  destruct (requireUserVerification options) as [[ | ] | ]; reflexivity.
Qed.

(** C5, the claim as written fails: a 33-byte authenticatorData with flags
    byte [0x01] passes the type, origin and challenge checks, and is
    rejected for its length even when user verification is not required. *)
Lemma C5_counterexample :
  get (repeat x00 32 ++ [x01]) 32 = Some 0x01 /\
  Sample.verify
    (Sample.decoded (repeat x00 32 ++ [x01]) (Sample.render Sample.get_example))
    (Sample.options (Some false)) =
  Ok (invalid (AuthenticatorDataTooShort 33)).
Proof. split; vm_compute; reflexivity. Qed.

(** C5, instances of the amended statement on a 37-byte authenticatorData
    with flags [0x01]: accepted without user verification, rejected with
    it and by default. *)
Lemma C5_witness :
  Sample.verify
    (Sample.decoded (Sample.authData x01) (Sample.render Sample.get_example))
    (Sample.options (Some false)) =
  Ok {| valid := true; error := None;
        clientData := Some {| type := JString (str "webauthn.get");
                              challenge := JString (str "AQID");
                              origin := JString (str "https://example.com");
                              crossOrigin := JUndefined |};
        flags := Some {| userPresent := true; userVerified := false;
                         backupEligible := false; backupState := false |} |} /\
  Sample.verify
    (Sample.decoded (Sample.authData x01) (Sample.render Sample.get_example))
    (Sample.options (Some true)) = Ok (invalid UserVerificationNotSet) /\
  Sample.verify
    (Sample.decoded (Sample.authData x01) (Sample.render Sample.get_example))
    (Sample.options None) = Ok (invalid UserVerificationNotSet).
Proof.
  split; [ | split].
  - apply (@C5_user_verification_gate Sample.TextDecoder_decode Sample.JSON_parse
             (Sample.decoded (Sample.authData x01) (Sample.render Sample.get_example))
             (Sample.options (Some false)) _ [x01; x02; x03]);
      vm_compute; solve [reflexivity | discriminate].
  - apply (@C5_user_verification_gate Sample.TextDecoder_decode Sample.JSON_parse
             (Sample.decoded (Sample.authData x01) (Sample.render Sample.get_example))
             (Sample.options (Some true)) 
             {| type := JString (str "webauthn.get");
                challenge := JString (str "AQID");
                origin := JString (str "https://example.com");
                crossOrigin := JUndefined |} [x01; x02; x03]);
      vm_compute; solve [reflexivity | discriminate].
  - apply (@C5_user_verification_gate Sample.TextDecoder_decode Sample.JSON_parse
             (Sample.decoded (Sample.authData x01) (Sample.render Sample.get_example))
             (Sample.options None)
             {| type := JString (str "webauthn.get");
                challenge := JString (str "AQID");
                origin := JString (str "https://example.com");
                crossOrigin := JUndefined |} [x01; x02; x03]);
      vm_compute; solve [reflexivity | discriminate].
Defined.

(** C6 (amended).  For every decoded envelope whose parsed clientData
    declares an origin that is not the expected origin (strict string
    comparison), the result is invalid, and it does not depend on the
    signature bytes.  The ceremony type is checked first.  When the type
    is ['webauthn.get'], the result carries the origin-mismatch error if
    the declared origin converts to a string, as every string does, and
    the 'Verification failed' error of the caught [TypeError] if that
    conversion throws.  When the type is anything else, the result carries
    the invalid-ceremony-type error if the type converts to a string, and
    the 'Verification failed' error of the caught [TypeError] if that
    conversion throws. *)
Theorem C6_origin_mismatch
    (TextDecoder_decode : Uint8Array -> JSString)
    (JSON_parse : JSString -> option JSValue)
    (decoded : DecodedVarsig) (options : VerificationOptions) (cd : ClientDataJSON) :
  parseClientDataJSON TextDecoder_decode JSON_parse (clientDataJSON decoded) = Ok cd ->
  strict_equals_string (origin cd) (expectedOrigin options) = false ->
  (exists e,
     verifyWebAuthnAssertion TextDecoder_decode JSON_parse decoded options =
     Ok (invalid e)) /\
  (strict_equals_string (type cd) (str "webauthn.get") = true ->
   toString_throws (origin cd) = false ->
   verifyWebAuthnAssertion TextDecoder_decode JSON_parse decoded options =
   Ok (invalid (OriginMismatch (expectedOrigin options) (origin cd)))) /\
  (strict_equals_string (type cd) (str "webauthn.get") = true ->
   toString_throws (origin cd) = true ->
   verifyWebAuthnAssertion TextDecoder_decode JSON_parse decoded options =
   Ok (invalid (VerificationFailed TypeError))) /\
  (strict_equals_string (type cd) (str "webauthn.get") = false ->
   toString_throws (type cd) = false ->
   verifyWebAuthnAssertion TextDecoder_decode JSON_parse decoded options =
   Ok (invalid (InvalidCeremonyType (type cd)))) /\
  (strict_equals_string (type cd) (str "webauthn.get") = false ->
   toString_throws (type cd) = true ->
   verifyWebAuthnAssertion TextDecoder_decode JSON_parse decoded options =
   Ok (invalid (VerificationFailed TypeError))) /\
  (forall o, toString_throws (JString o) = false) /\
  (forall signature' : Uint8Array,
     verifyWebAuthnAssertion TextDecoder_decode JSON_parse
       {| multicodec := multicodec decoded; algorithm := algorithm decoded;
          authenticatorData := authenticatorData decoded;
          clientDataJSON := clientDataJSON decoded;
          signature := signature' |} options =
     verifyWebAuthnAssertion TextDecoder_decode JSON_parse decoded options).
Proof.
  intros Hparse Horigin.
  split; [ | split; [ | split; [ | split; [ | split; [ | split]]]]].
  - unfold verifyWebAuthnAssertion, template. rewrite Hparse. cbn [bind].
    destruct (strict_equals_string (type cd) (str "webauthn.get")); cbn [negb].
    + rewrite Horigin. cbn [negb].
      destruct (toString_throws (origin cd)); cbn [bind try_catch];
        eexists; reflexivity.
    + destruct (toString_throws (type cd)); cbn [bind try_catch];
        eexists; reflexivity.
  - intros Htype Hstr. unfold verifyWebAuthnAssertion, template.
    rewrite Hparse. cbn [bind].
    rewrite Htype, Horigin. cbn [negb]. rewrite Hstr. reflexivity.
  - intros Htype Hstr. unfold verifyWebAuthnAssertion, template.
    rewrite Hparse. cbn [bind].
    rewrite Htype, Horigin. cbn [negb]. rewrite Hstr. reflexivity.
  - intros Htype Hstr. unfold verifyWebAuthnAssertion, template.
    rewrite Hparse. cbn [bind].
    rewrite Htype. cbn [negb]. rewrite Hstr. reflexivity.
  - intros Htype Hstr. unfold verifyWebAuthnAssertion, template.
    rewrite Hparse. cbn [bind].
    rewrite Htype. cbn [negb]. rewrite Hstr. reflexivity.
  - intros o. reflexivity.
  - intros signature'. reflexivity.
Qed.

(** C6, the claim as written fails: client data of a ['webauthn.create']
    ceremony at [https://evil.com], checked against
    [https://example.com], is rejected for its ceremony type, not with an
    origin mismatch. *)
Lemma C6_counterexample :
  Sample.verify
    (Sample.decoded (Sample.authData x05) (Sample.render Sample.create_evil))
    (Sample.options None) =
  Ok (invalid (InvalidCeremonyType (JString (str "webauthn.create")))).
Proof. vm_compute. reflexivity. Qed.

(** C6, instances of the amended statement, all at [https://evil.com]
    against [https://example.com]: a ['webauthn.get'] ceremony; a
    ['webauthn.create'] ceremony; a ['webauthn.get'] ceremony whose origin
    is the object [{"toString":1}]; and client data whose type is that
    object. *)
Lemma C6_witness :
  Sample.verify
    (Sample.decoded (Sample.authData x05) (Sample.render Sample.get_evil))
    (Sample.options None) =
  Ok (invalid (OriginMismatch (str "https://example.com")
                 (JString (str "https://evil.com")))) /\
  Sample.verify
    (Sample.decoded (Sample.authData x05) (Sample.render Sample.create_evil))
    (Sample.options None) =
  Ok (invalid (InvalidCeremonyType (JString (str "webauthn.create")))) /\
  verifyWebAuthnAssertion Sample.TextDecoder_decode Sample.JSON_parse_objects
    (Sample.decoded (Sample.authData x05) Sample.origin_object_text)
    (Sample.options None) =
  Ok (invalid (VerificationFailed TypeError)) /\
  verifyWebAuthnAssertion Sample.TextDecoder_decode Sample.JSON_parse_objects
    (Sample.decoded (Sample.authData x05) Sample.type_object_text)
    (Sample.options None) =
  Ok (invalid (VerificationFailed TypeError)).
Proof.
  split; [ | split; [ | split]].
  - apply (proj1 (proj2 (@C6_origin_mismatch Sample.TextDecoder_decode Sample.JSON_parse
             (Sample.decoded (Sample.authData x05) (Sample.render Sample.get_evil))
             (Sample.options None)
             (Sample.parsed "webauthn.get" "https://evil.com")
             ltac:(vm_compute; reflexivity) ltac:(vm_compute; reflexivity))));
      vm_compute; reflexivity.
  - apply (proj1 (proj2 (proj2 (proj2
             (@C6_origin_mismatch Sample.TextDecoder_decode Sample.JSON_parse
             (Sample.decoded (Sample.authData x05) (Sample.render Sample.create_evil))
             (Sample.options None)
             (Sample.parsed "webauthn.create" "https://evil.com")
             ltac:(vm_compute; reflexivity) ltac:(vm_compute; reflexivity))))));
      vm_compute; reflexivity.
  - apply (proj1 (proj2 (proj2
             (@C6_origin_mismatch Sample.TextDecoder_decode Sample.JSON_parse_objects
             (Sample.decoded (Sample.authData x05) Sample.origin_object_text)
             (Sample.options None)
             {| type := JString (str "webauthn.get");
                challenge := JString (str "AQID");
                origin := JObject [(str "toString", JNumber 1)];
                crossOrigin := JUndefined |}
             ltac:(vm_compute; reflexivity) ltac:(vm_compute; reflexivity)))));
      vm_compute; reflexivity.
  - apply (proj1 (proj2 (proj2 (proj2 (proj2
             (@C6_origin_mismatch Sample.TextDecoder_decode Sample.JSON_parse_objects
             (Sample.decoded (Sample.authData x05) Sample.type_object_text)
             (Sample.options None)
             {| type := JObject [(str "toString", JNumber 1)];
                challenge := JString (str "AQID");
                origin := JString (str "https://evil.com");
                crossOrigin := JUndefined |}
             ltac:(vm_compute; reflexivity) ltac:(vm_compute; reflexivity)))))));
      vm_compute; reflexivity.
Defined.







(** C9.  The identifier of a key is ['did:key:z'] followed by the base58
    text of [tagBytes ++ publicKey], where [tagBytes] is [ed 01] (the
    varint of 0xed) for an Ed25519 key and the varint of 0x1200, that is
    [80 24], for a P-256 key.  The two tags differ and have the same
    length, so equal identifiers mean equal algorithm and equal key; and
    [extractPublicKeyFromDid] returns the key that [createEd25519Did] was
    given (of 32 bytes or of any other length). *)
Theorem C9_did_key_identifier :
  (forall publicKey : Uint8Array,
     createEd25519Did publicKey =
     Ok (str "did:key:z" ++ Base58.encode ([xed; x01] ++ publicKey))) /\
  (forall publicKey : Uint8Array,
     createP256Did publicKey =
     Ok (str "did:key:z" ++ Base58.encode (varintEncode P256_PUB ++ publicKey))) /\
  varintEncode P256_PUB = [x80; x24] /\
  varintEncode ED25519_PUB = [xed; x01] /\
  (forall (a a' : SignatureAlgorithm) (pk pk' : Uint8Array) (did : JSString),
     didKey a pk = Ok did -> didKey a' pk' = Ok did -> a = a' /\ pk = pk') /\
  (forall publicKey : Uint8Array,
     exists did,
       createEd25519Did publicKey = Ok did /\
       extractPublicKeyFromDid did = Ok publicKey).
Proof.
  split; [ | split; [ | split; [ | split; [ | split]]]].
  - intros publicKey. rewrite createEd25519Did_multikey. reflexivity.
  - intros publicKey. rewrite createP256Did_multikey. reflexivity.
  - reflexivity.
  - reflexivity.
  - intros a a' pk pk' did. apply didKey_injective.
  - intros publicKey. eexists. split; [apply createEd25519Did_multikey | ].
    apply extractPublicKeyFromDid_multikey.
Qed.

(** C9, instance: the identifier of the all-zero Ed25519 key is
    [did:key:z6MkeTG3bFFSLYVU7VqhgZxqr6YzpaGrQtFMh1uvqGy1vDnP]; the key is
    read back from it, and two Ed25519 keys with this identifier are
    equal. *)
Lemma C9_witness :
  extractPublicKeyFromDid
    (str "did:key:z6MkeTG3bFFSLYVU7VqhgZxqr6YzpaGrQtFMh1uvqGy1vDnP") =
    Ok (repeat x00 32) /\
  (Ed25519 = Ed25519 /\ repeat x00 32 = repeat x00 16 ++ repeat x00 16).
Proof.
  split.
  - destruct (proj2 (proj2 (proj2 (proj2 (proj2 C9_did_key_identifier))))
                (repeat x00 32)) as (did & Hcreate & Hextract).
    vm_compute in Hcreate. injection Hcreate as <-. exact Hextract.
  - apply (proj1 (proj2 (proj2 (proj2 (proj2 C9_did_key_identifier))))
             Ed25519 Ed25519 (repeat x00 32) (repeat x00 16 ++ repeat x00 16)
             (str "did:key:z6MkeTG3bFFSLYVU7VqhgZxqr6YzpaGrQtFMh1uvqGy1vDnP"));
      vm_compute; reflexivity.
Defined.

(** C10.  For every byte string [b], [bytesToBase64url(b)] returns a text
    that holds none of [+], [/], [=], and [base64urlToBytes] of that text
    returns [b]. *)
Theorem C10_base64url_roundtrip (b : Uint8Array) :
  exists text,
    bytesToBase64url b = Ok text /\
    base64urlToBytes text = Ok b /\
    ~ In (ch "+") text /\ ~ In (ch "/") text /\ ~ In (ch "=") text.
Proof. apply base64url_roundtrip. Qed.

(* ===================================================================== *)
(** * Part V.  Further properties of the code *)
(* ===================================================================== *)

(* ===================================================================== *)
(** ** Signed 32-bit results *)
(* ===================================================================== *)

(** A number is a signed 32-bit integer exactly when its bits from bit 31
    up are all equal. *)
Lemma int32_shiftr (x : Z) :
  - 2 ^ 31 <= x < 2 ^ 31 <-> Z.shiftr x 31 = 0 \/ Z.shiftr x 31 = -1.
Proof.
  rewrite Z.shiftr_div_pow2 by lia.
  change (2 ^ 31) with 2147483648.
  split; intros H; Z.div_mod_to_equations; lia.
Qed.

(** [a | b] is a signed 32-bit integer. *)
Lemma bor_range (a b : Z) : - 2 ^ 31 <= JS.bor a b < 2 ^ 31.
Proof.
  unfold JS.bor. apply int32_shiftr. rewrite Z.shiftr_lor.
  destruct (proj1 (int32_shiftr _) (ToInt32_range a)) as [-> | ->];
    destruct (proj1 (int32_shiftr _) (ToInt32_range b)) as [-> | ->];
    cbn; auto.
Qed.

(* ===================================================================== *)
(** ** varintDecode: what a successful read returns *)
(* ===================================================================== *)

(** Invariant of the loop of [varintDecode]: [shift = 7 * bytesRead], and
    [shift <= 53] on entry. *)
Lemma varintDecode_loop_bounds (bytes : Uint8Array) (offset : Z) :
  forall (r : nat) (value shift bytesRead val n : Z),
    shift_room shift = r ->
    shift = 7 * bytesRead -> 0 <= bytesRead -> shift <= 53 ->
    varintDecode_loop bytes offset value shift bytesRead = Ok (val, n) ->
    bytesRead < n <= 8 /\ - 2 ^ 31 <= val < 2 ^ 31.
Proof.
  induction r as [r IH] using lt_wf_ind.
  intros value shift bytesRead val n Hr Hs Hb H53 H.
  rewrite varintDecode_loop_eq in H.
  destruct (Z_lt_dec (offset + bytesRead) (len bytes)); [ | discriminate].
  cbv zeta in H.
  destruct (JS.band (JS.num (get bytes (offset + bytesRead))) 128 =? 0).
  - injection H as <- <-. split; [lia | apply bor_range].
  - destruct (Z_gt_dec (shift + 7) 53); [discriminate | ].
    apply IH with (m := shift_room (shift + 7)) in H;
      [lia | subst r; apply shift_room_decr; assumption | reflexivity | lia | lia | lia].
Qed.

(** Bytes consumed and range of the value after a successful read. *)
Lemma varintDecode_bounds (bytes : Uint8Array) (offset value bytesRead : Z) :
  varintDecode bytes offset = Ok (value, bytesRead) ->
  1 <= bytesRead <= 8 /\ - 2 ^ 31 <= value < 2 ^ 31.
Proof.
  intros H. unfold varintDecode in H.
  destruct (@varintDecode_loop_bounds bytes offset (shift_room 0)
              0 0 0 value bytesRead eq_refl eq_refl
              ltac:(lia) ltac:(lia) H) as [Hn Hv].
  split; [lia | exact Hv].
Qed.

(** X3.  A successful [varintDecode] consumed between 1 and 8 bytes and
    returns a signed 32-bit integer; from an offset that is not negative,
    the bytes it consumed all lie inside the buffer. *)
Theorem varintDecode_result_bounds (bytes : Uint8Array) (offset value bytesRead : Z) :
  varintDecode bytes offset = Ok (value, bytesRead) ->
  1 <= bytesRead <= 8 /\
  - 2 ^ 31 <= value < 2 ^ 31 /\
  (0 <= offset -> offset + bytesRead <= len bytes).
Proof.
  intros H. unfold varintDecode in H.
  destruct (@varintDecode_loop_bounds bytes offset (shift_room 0)
              0 0 0 value bytesRead eq_refl eq_refl
              ltac:(lia) ltac:(lia) H) as [Hn Hv].
  split; [lia | split; [exact Hv | ]].
  intros Hoff.
  destruct (@varintDecode_in_bounds bytes offset value bytesRead Hoff H) as [_ Hin].
  exact Hin.
Qed.

(** X3, instance: 300 read at offset 1 of a four-byte buffer. *)
Lemma varintDecode_result_bounds_witness :
  1 <= 2 <= 8 /\ - 2 ^ 31 <= 300 < 2 ^ 31 /\ (0 <= 1 -> 1 + 2 <= len [x00; xac; x02; xff]).
Proof.
  apply (@varintDecode_result_bounds [x00; xac; x02; xff] 1 300 2). reflexivity.
Defined.

(* ===================================================================== *)
(** ** varintDecode: outcome by the continuation bytes *)
(* ===================================================================== *)

(** The run of continuation bytes from index [i], by the byte at [i]. *)
Lemma continuation_run_skipn (bytes : Uint8Array) (i : nat) :
  continuation_run (skipn i bytes) =
  match nth_error bytes i with
  | Some b => if 0x80 <=? byte_to_Z b then S (continuation_run (skipn (S i) bytes)) else O
  | None => O
  end.
Proof.
  revert i. induction bytes as [ | b bytes IH]; intros i.
  - destruct i; reflexivity.
  - destruct i as [ | i].
    + reflexivity.
    + cbn [skipn nth_error]. apply IH.
Qed.

(** The loop of [varintDecode] after [bytesRead] continuation bytes, by the
    run [r] of continuation bytes still ahead. *)
Lemma varintDecode_loop_outcome (bytes : Uint8Array) (offset : Z) :
  0 <= offset ->
  forall (r : nat) (value bytesRead : Z),
    0 <= bytesRead <= 7 ->
    continuation_run (skipn (Z.to_nat (offset + bytesRead)) bytes) = r ->
    let total := bytesRead + Z.of_nat r in
    (8 <= total ->
     varintDecode_loop bytes offset value (7 * bytesRead) bytesRead = Err VarintTooLarge) /\
    (total < 8 -> len bytes <= offset + total ->
     varintDecode_loop bytes offset value (7 * bytesRead) bytesRead = Err VarintIncomplete) /\
    (total < 8 -> offset + total < len bytes ->
     exists val,
       varintDecode_loop bytes offset value (7 * bytesRead) bytesRead = Ok (val, total + 1)).
Proof.
  intros Hoff. induction r as [ | r IH]; intros value bytesRead Hb Hrun total.
  - subst total. rewrite Z.add_0_r.
    rewrite continuation_run_skipn in Hrun.
    rewrite varintDecode_loop_eq. cbv zeta.
    destruct (Z_lt_dec (offset + bytesRead) (len bytes)) as [Hlt | Hge].
    + destruct (@get_in_range bytes (offset + bytesRead) ltac:(lia)) as [b Hget].
      rewrite Hget. cbn [JS.num]. rewrite band_0x80_byte.
      unfold get in Hget. destruct (offset + bytesRead <? 0) eqn:E; [discriminate | ].
      destruct (nth_error bytes (Z.to_nat (offset + bytesRead))) as [b' | ]; [ | discriminate].
      cbn in Hget. injection Hget as Hget. apply byte_to_Z_inj in Hget. subst b'.
      destruct (Z.leb_spec 128 (byte_to_Z b)); [discriminate | ].
      destruct (Z.ltb_spec (byte_to_Z b) 128); [ | lia].
      change (0 =? 0) with true. cbv iota.
      split; [lia | split; [lia | ]]. intros _ _. eexists. reflexivity.
    + split; [lia | split; [reflexivity | lia]].
  - subst total.
    rewrite continuation_run_skipn in Hrun.
    rewrite varintDecode_loop_eq. cbv zeta.
    destruct (nth_error bytes (Z.to_nat (offset + bytesRead))) as [b | ] eqn:Enth;
      [ | discriminate].
    destruct (Z.leb_spec 128 (byte_to_Z b)) as [Hc | ]; [ | discriminate].
    apply Nat.succ_inj in Hrun.
    assert (Hlt : offset + bytesRead < len bytes).
    { assert (Hne : nth_error bytes (Z.to_nat (offset + bytesRead)) <> None) by congruence.
      apply nth_error_Some in Hne. unfold len. lia. }
    destruct (Z_lt_dec (offset + bytesRead) (len bytes)); [ | lia].
    assert (Hget : get bytes (offset + bytesRead) = Some (byte_to_Z b)).
    { unfold get. destruct (Z.ltb_spec (offset + bytesRead) 0); [lia | ].
      rewrite Enth. reflexivity. }
    rewrite Hget. cbn [JS.num]. rewrite band_0x80_byte.
    destruct (Z.ltb_spec (byte_to_Z b) 128); [lia | ].
    change (128 =? 0) with false. cbv iota.
    destruct (Z_gt_dec (7 * bytesRead + 7) 53) as [Hbig | Hsmall].
    + split; [reflexivity | split; lia].
    + replace (S (Z.to_nat (offset + bytesRead))) with (Z.to_nat (offset + (bytesRead + 1)))
        in Hrun by lia.
      specialize (IH (JS.bor value (JS.shl (JS.band (byte_to_Z b) 127) (7 * bytesRead)))
                    (bytesRead + 1) ltac:(lia) Hrun).
      cbv zeta in IH.
      replace (bytesRead + Z.of_nat (S r)) with (bytesRead + 1 + Z.of_nat r) by lia.
      replace (7 * (bytesRead + 1)) with (7 * bytesRead + 7) in IH by lia.
      exact IH.
Qed.

(** X4.  The outcome of [varintDecode] at an offset that is not negative
    is fixed by the run of bytes with the continuation bit found there:
    eight or more give 'Varint too large'; fewer than eight that reach the
    end of the buffer give 'Varint incomplete' (an empty buffer and an
    offset past the end are such cases); otherwise the read succeeds and
    consumes the run and the byte after it. *)
Theorem varintDecode_outcome (bytes : Uint8Array) (offset : Z) :
  0 <= offset ->
  let run := Z.of_nat (continuation_run (skipn (Z.to_nat offset) bytes)) in
  (8 <= run -> varintDecode bytes offset = Err VarintTooLarge) /\
  (run < 8 -> len bytes <= offset + run ->
   varintDecode bytes offset = Err VarintIncomplete) /\
  (run < 8 -> offset + run < len bytes ->
   exists value, varintDecode bytes offset = Ok (value, run + 1)).
Proof.
  intros Hoff run.
  pose proof (@varintDecode_loop_outcome bytes offset Hoff
                (continuation_run (skipn (Z.to_nat offset) bytes)) 0 0 ltac:(lia)) as H.
  rewrite Z.add_0_r in H. specialize (H eq_refl). cbv zeta in H.
  change (7 * 0) with 0 in H. rewrite Z.add_0_l in H.
  exact H.
Qed.

(** X4, instances: nine continuation bytes; a buffer that ends on two
    continuation bytes; the varint of 300 followed by another byte. *)
Lemma varintDecode_outcome_witness :
  varintDecode (repeat xff 9) 0 = Err VarintTooLarge /\
  varintDecode [x01; x80; x80] 1 = Err VarintIncomplete /\
  (exists value, varintDecode [xac; x02; x07] 0 = Ok (value, 1 + 1)).
Proof.
  split; [ | split].
  - apply (proj1 (@varintDecode_outcome (repeat xff 9) 0 ltac:(lia))).
    vm_compute. discriminate.
  - apply (proj1 (proj2 (@varintDecode_outcome [x01; x80; x80] 1 ltac:(lia))));
      vm_compute; [reflexivity | discriminate].
  - apply (proj2 (proj2 (@varintDecode_outcome [xac; x02; x07] 0 ltac:(lia))));
      vm_compute; reflexivity.
Defined.

(* ===================================================================== *)
(** ** varintEncode: minimal encodings, read back anywhere *)
(* ===================================================================== *)

Lemma continuation_run_cons (b : byte) (l : Uint8Array) :
  continuation_run (b :: l) =
  if 0x80 <=? byte_to_Z b then S (continuation_run l) else O.
Proof. reflexivity. Qed.

(** Continuation bits and length of an encoding, by induction on the value. *)
Lemma varintEncode_minimal_aux (n : Z) :
  0 <= n < 2 ^ 32 ->
  Z.of_nat (continuation_run (varintEncode n)) = len (varintEncode n) - 1 /\
  (0 < n -> 128 ^ (len (varintEncode n) - 1) <= n < 128 ^ len (varintEncode n)).
Proof.
  induction n as [n IH] using (well_founded_induction (Z.lt_wf 0)).
  intros Hn.
  destruct (Z_le_dec 0x80 n) as [Hge | Hsmall].
  - rewrite (varintEncode_cont Hge).
    rewrite band_0x7f, ushr7_div by lia.
    assert (Hd : 0 <= n mod 128 < 128) by (apply Z.mod_pos_bound; lia).
    rewrite bor_0x80 by exact Hd.
    assert (Hq : 0 < n / 128) by (apply Z.div_str_pos; lia).
    assert (Hq' : n / 128 < n) by (apply Z.div_lt; lia).
    assert (Hq32 : n / 128 < 2 ^ 32) by lia.
    destruct (IH (n / 128) ltac:(lia) ltac:(lia)) as [Hrun Hlen].
    specialize (Hlen Hq).
    pose proof (@varintEncode_len (n / 128) ltac:(lia)) as Hl.
    rewrite continuation_run_cons, byte_to_Z_ToUint8.
    rewrite (Z.mod_small (n mod 128 + 128) 256) by lia.
    destruct (Z.leb_spec 128 (n mod 128 + 128)); [ | lia].
    rewrite len_cons. split; [lia | ].
    intros _.
    replace (1 + len (varintEncode (n / 128)) - 1)
      with (Z.succ (len (varintEncode (n / 128)) - 1)) by lia.
    replace (1 + len (varintEncode (n / 128)))
      with (Z.succ (len (varintEncode (n / 128)))) by lia.
    rewrite !Z.pow_succ_r by lia.
    assert (Hm : n = 128 * (n / 128) + n mod 128) by (apply Z.div_mod; lia).
    lia.
  - rewrite (varintEncode_final (value := n)) by lia.
    rewrite band_0x7f, (Z.mod_small n 128) by lia.
    rewrite continuation_run_cons, byte_to_Z_ToUint8, (Z.mod_small n 256) by lia.
    destruct (Z.leb_spec 128 n); [lia | ].
    unfold len. cbn [List.length continuation_run]. split; [reflexivity | ].
    intros Hpos. change (Z.of_nat 1 - 1) with 0. change (Z.of_nat 1) with 1. lia.
Qed.

(** X5.  For [0 < n < 2^32], [varintEncode] writes the minimal varint:
    every byte but the last carries the continuation bit, the last does
    not, and the number [k] of bytes is the one with
    [128^(k-1) <= n < 128^k]. *)
Theorem varintEncode_minimal (n : Z) :
  0 < n < 2 ^ 32 ->
  Z.of_nat (continuation_run (varintEncode n)) = len (varintEncode n) - 1 /\
  128 ^ (len (varintEncode n) - 1) <= n < 128 ^ len (varintEncode n).
Proof.
  intros Hn. destruct (@varintEncode_minimal_aux n ltac:(lia)) as [H1 H2].
  split; [exact H1 | apply H2; lia].
Qed.

(** X5, instance: 16384, the first value of three bytes. *)
Lemma varintEncode_minimal_witness :
  Z.of_nat (continuation_run (varintEncode 16384)) = len (varintEncode 16384) - 1 /\
  128 ^ (len (varintEncode 16384) - 1) <= 16384 < 128 ^ len (varintEncode 16384).
Proof. apply (@varintEncode_minimal 16384). lia. Defined.

(** X1.  A varint that [varintEncode] wrote for a value below [2^31] is
    read back from the middle of any buffer: whatever bytes stand before and
    after it, [varintDecode] at its first byte returns the value and the
    number of bytes of the encoding. *)
Theorem varint_self_delimiting (pre post : Uint8Array) (n : Z) :
  0 <= n < 2 ^ 31 ->
  varintDecode (pre ++ varintEncode n ++ post) (len pre) =
  Ok (n, len (varintEncode n)).
Proof.
  intros Hn. rewrite varintDecode_encoded by lia.
  rewrite ToInt32_small by lia. reflexivity.
Qed.

(** X1, instance: the varint of 300 between two other pairs of bytes. *)
Lemma varint_self_delimiting_witness :
  varintDecode ([xd1; x5d] ++ varintEncode 300 ++ [xff; xff]) (len [xd1; x5d]) =
  Ok (300, len (varintEncode 300)).
Proof. apply (@varint_self_delimiting [xd1; x5d] [xff; xff] 300). lia. Defined.

(* ===================================================================== *)
(** ** varintEncode outside [0, 2^32) *)
(* ===================================================================== *)

(** [ToInt32] looks at the low 32 bits only. *)
Lemma ToInt32_mod (n : Z) : JS.ToInt32 (n mod 2 ^ 32) = JS.ToInt32 n.
Proof.
  unfold JS.ToInt32. f_equal.
  rewrite Zplus_mod_idemp_l. reflexivity.
Qed.

(** X6.  [varintEncode] does not reject a value outside [[0, 2^32)].
    From [2^32] on it writes, in 2 to 5 bytes, the low 32 bits only, so that
    decoding returns the Int32 of the value; for a negative value it writes
    the single byte of its low 7 bits. *)
Theorem varintEncode_out_of_range (n : Z) :
  (2 ^ 32 <= n ->
   varintDecode (varintEncode n) 0 = Ok (JS.ToInt32 n, len (varintEncode n)) /\
   2 <= len (varintEncode n) <= 5) /\
  (n < 0 -> varintEncode n = [ToUint8 (n mod 128)]).
Proof.
  split.
  - intros Hn.
    rewrite (varintEncode_cont (value := n)) by lia.
    rewrite band_0x7f.
    assert (Hd : 0 <= n mod 128 < 128) by (apply Z.mod_pos_bound; lia).
    rewrite bor_0x80 by exact Hd.
    set (m := JS.ushr n 7).
    assert (Hm : m = n mod 2 ^ 32 / 128).
    { unfold m, JS.ushr, JS.ToUint32. change (7 mod 2 ^ 32 mod 32) with 7.
      rewrite Z.shiftr_div_pow2 by lia. reflexivity. }
    clearbody m.
    assert (Hu : 0 <= n mod 2 ^ 32 < 2 ^ 32) by (apply Z.mod_pos_bound; lia).
    assert (Hm0 : 0 <= m) by (rewrite Hm; apply Z.div_pos; lia).
    assert (Hm25 : m < 2 ^ 25).
    { rewrite Hm. apply Z.div_lt_upper_bound; lia. }
    assert (Hr : n mod 128 = n mod 2 ^ 32 mod 128).
    { change (2 ^ 32) with 4294967296. Z.div_mod_to_equations. lia. }
    assert (Hsum : m * 2 ^ 7 + n mod 128 = n mod 2 ^ 32).
    { rewrite Hm, Hr. change (2 ^ 7) with 128.
      pose proof (Z.div_mod (n mod 2 ^ 32) 128 ltac:(lia)). lia. }
    pose proof (@varintEncode_len m ltac:(lia)) as Hl.
    assert (Hl4 : len (varintEncode m) <= 4).
    { destruct (Z.eq_dec m 0) as [E0 | Hne];
        [rewrite E0; change (len (varintEncode 0)) with 1; lia | ].
      destruct (@varintEncode_minimal_aux m ltac:(lia)) as [_ Hmin].
      specialize (Hmin ltac:(lia)).
      destruct (Z_le_dec (len (varintEncode m)) 4) as [ | Hgt]; [assumption | exfalso].
      assert (Hfive : len (varintEncode m) = 5) by lia.
      rewrite Hfive in Hmin. cbn in Hmin. lia. }
    split; [ | rewrite len_cons; lia].
    unfold varintDecode. rewrite varintDecode_loop_eq.
    change (0 + 0) with 0.
    change (get (ToUint8 (n mod 128 + 128) :: varintEncode m) 0)
      with (Some (byte_to_Z (ToUint8 (n mod 128 + 128)))).
    cbn [JS.num]. rewrite len_cons.
    destruct (Z_lt_dec 0 (1 + len (varintEncode m))) as [_ | Hc]; [ | lia].
    cbv zeta. rewrite band_0x80_byte, band_0x7f, byte_to_Z_ToUint8.
    rewrite (Z.mod_small (n mod 128 + 128) 256) by lia.
    destruct (Z.ltb_spec (n mod 128 + 128) 128); [lia | ].
    change (128 =? 0) with false. cbv iota.
    destruct (Z_gt_dec (0 + 7) 53); [lia | ].
    replace ((n mod 128 + 128) mod 128) with (n mod 128)
      by (rewrite <- (Z.mul_1_l 128) at 3; rewrite Z_mod_plus_full, Z.mod_mod; lia).
    rewrite bor_shl_low by (cbn; lia).
    change (2 ^ 0) with 1. rewrite Z.mul_1_r, Z.add_0_r.
    rewrite ToInt32_small by lia.
    change (ToUint8 (n mod 128 + 128) :: varintEncode m)
      with ([ToUint8 (n mod 128 + 128)] ++ varintEncode m).
    rewrite <- (app_nil_r (varintEncode m)) at 1.
    rewrite (@varintDecode_loop_encoded m Hm0 [ToUint8 (n mod 128 + 128)] [] 0
               (n mod 128) (0 + 7) (0 + 1));
      [ | reflexivity | lia | cbn; lia | cbn; lia ].
    change (0 + 7) with 7. rewrite Hsum, ToInt32_mod.
    reflexivity.
  - intros Hn. rewrite (varintEncode_final (value := n)) by lia.
    rewrite band_0x7f. reflexivity.
Qed.

(** X6, instances: [2^32 + 5] is written as [85 00] and read back as 5; [-1]
    is written as [7f]. *)
Lemma varintEncode_out_of_range_witness :
  (varintDecode (varintEncode 4294967301) 0 = Ok (5, 2) /\ 2 <= 2 <= 5) /\
  varintEncode (-1) = [x7f].
Proof.
  split.
  - apply (proj1 (varintEncode_out_of_range 4294967301)). lia.
  - apply (proj2 (varintEncode_out_of_range (-1))). lia.
Defined.

(* ===================================================================== *)
(** ** Varints that are not minimal *)
(* ===================================================================== *)

(** Setting the continuation bit of a byte. *)
Lemma set_continuation_bit (b : byte) :
  ToUint8 (JS.bor (byte_to_Z b) 0x80) = ToUint8 (byte_to_Z b mod 128 + 128).
Proof. destruct b; reflexivity. Qed.

Lemma shl_zero (n : Z) : JS.shl 0 n = 0.
Proof. unfold JS.shl. change (JS.ToInt32 0) with 0. rewrite Z.shiftl_0_l. reflexivity. Qed.

Lemma bor_zero_r (x : Z) : JS.bor (JS.ToInt32 x) 0 = JS.ToInt32 x.
Proof.
  unfold JS.bor. change (JS.ToInt32 0) with 0. rewrite Z.lor_0_r.
  apply ToInt32_small. apply ToInt32_range.
Qed.

Lemma overlong_cont (m : Z) :
  0x80 <= m < 2 ^ 32 ->
  overlong m = ToUint8 (m mod 128 + 128) :: overlong (m / 128).
Proof.
  intros Hm. unfold overlong. rewrite (varintEncode_cont (value := m)) by lia.
  rewrite band_0x7f, ushr7_div by lia.
  assert (Hd : 0 <= m mod 128 < 128) by (apply Z.mod_pos_bound; lia).
  rewrite bor_0x80 by exact Hd.
  cbn [map app]. f_equal.
  rewrite set_continuation_bit, byte_to_Z_ToUint8.
  rewrite (Z.mod_small (m mod 128 + 128) 256) by lia.
  replace ((m mod 128 + 128) mod 128) with (m mod 128)
    by (rewrite <- (Z.mul_1_l 128) at 3; rewrite Z_mod_plus_full, Z.mod_mod; lia).
  reflexivity.
Qed.

Lemma overlong_final (m : Z) :
  0 <= m < 0x80 -> overlong m = [ToUint8 (m + 128); x00].
Proof.
  intros Hm. unfold overlong. rewrite (varintEncode_final (value := m)) by lia.
  rewrite band_0x7f, (Z.mod_small m 128) by lia.
  cbn [map app]. rewrite set_continuation_bit, byte_to_Z_ToUint8.
  rewrite (Z.mod_small m 256), (Z.mod_small m 128) by lia. reflexivity.
Qed.

Lemma len_overlong (n : Z) : len (overlong n) = len (varintEncode n) + 1.
Proof.
  unfold overlong. rewrite len_app. unfold len at 1.
  rewrite length_map. reflexivity.
Qed.

(** Decoding a non-minimal encoding that sits somewhere in a buffer; the
    loop state is as in [varintDecode_loop_encoded]. *)
Lemma varintDecode_loop_overlong (m : Z) :
  0 <= m ->
  forall (pre post : Uint8Array) (offset value shift bytesRead : Z),
    offset + bytesRead = len pre ->
    0 <= shift < 32 ->
    0 <= value < 2 ^ shift ->
    m * 2 ^ shift + value < 2 ^ 32 ->
    varintDecode_loop (pre ++ overlong m ++ post) offset value shift bytesRead =
    Ok (JS.ToInt32 (m * 2 ^ shift + value), bytesRead + len (overlong m)).
Proof.
  induction m as [m IH] using (well_founded_induction (Z.lt_wf 0)).
  intros Hm pre post offset value shift bytesRead Hoff Hs Hv Hlt.
  assert (Hp : 0 < 2 ^ shift) by (apply Z.pow_pos_nonneg; lia).
  assert (Hm32 : m < 2 ^ 32) by nia.
  rewrite varintDecode_loop_eq. rewrite Hoff.
  destruct (Z_le_dec 0x80 m) as [Hge | Hsmall].
  - rewrite (@overlong_cont m) by lia.
    assert (Hd : 0 <= m mod 128 < 128) by (apply Z.mod_pos_bound; lia).
    cbn [app]. rewrite get_middle. cbn [JS.num].
    rewrite len_app, len_cons.
    destruct (Z_lt_dec (len pre) (len pre + (1 + len (overlong (m / 128) ++ post))))
      as [_ | Hc]; [ | pose proof (len_nonneg (overlong (m / 128) ++ post)); lia].
    cbv zeta. rewrite band_0x80_byte, band_0x7f.
    rewrite byte_to_Z_ToUint8.
    rewrite (Z.mod_small (m mod 128 + 128) 256) by lia.
    destruct (Z.ltb_spec (m mod 128 + 128) 128); [lia | ].
    change (128 =? 0) with false. cbv iota.
    assert (Hshift : shift + 7 < 32).
    { destruct (Z_lt_dec (shift + 7) 32); [assumption | exfalso].
      assert (2 ^ 32 <= 2 ^ (shift + 7)) by (apply Z.pow_le_mono_r; lia).
      rewrite Z.pow_add_r in * by lia. nia. }
    destruct (Z_gt_dec (shift + 7) 53); [lia | ].
    replace ((m mod 128 + 128) mod 128) with (m mod 128)
      by (rewrite <- (Z.mul_1_l 128) at 3; rewrite Z_mod_plus_full, Z.mod_mod; lia).
    assert (Hm' : m = 128 * (m / 128) + m mod 128) by (apply Z.div_mod; lia).
    assert (Hq : 0 <= m / 128) by (apply Z.div_pos; lia).
    assert (Hpow : 2 ^ (shift + 7) = 128 * 2 ^ shift)
      by (rewrite Z.pow_add_r by lia; lia).
    assert (Hval : m mod 128 * 2 ^ shift + value < 2 ^ (shift + 7)) by nia.
    assert (H31 : 2 ^ (shift + 7) <= 2 ^ 31) by (apply Z.pow_le_mono_r; lia).
    rewrite bor_shl_low by (try lia; nia).
    rewrite (ToInt32_small (x := m mod 128 * 2 ^ shift + value)) by nia.
    replace (pre ++ ToUint8 (m mod 128 + 128) :: overlong (m / 128) ++ post)
      with ((pre ++ [ToUint8 (m mod 128 + 128)]) ++ overlong (m / 128) ++ post)
      by (rewrite <- app_assoc; reflexivity).
    rewrite IH.
    + f_equal. f_equal; [f_equal; nia | rewrite len_cons; lia].
    + split; [lia | ]. apply Z.div_lt; lia.
    + exact Hq.
    + rewrite len_app, len_cons. unfold len at 2. cbn [List.length]. lia.
    + lia.
    + nia.
    + nia.
  - rewrite (@overlong_final m) by lia.
    cbn [app]. rewrite get_middle. cbn [JS.num].
    rewrite len_app, !len_cons.
    pose proof (len_nonneg post) as Hpost.
    destruct (Z_lt_dec (len pre) (len pre + (1 + (1 + len post))))
      as [_ | Hc]; [ | lia].
    cbv zeta. rewrite band_0x80_byte, band_0x7f.
    rewrite byte_to_Z_ToUint8.
    rewrite (Z.mod_small (m + 128) 256) by lia.
    destruct (Z.ltb_spec (m + 128) 128); [lia | ].
    change (128 =? 0) with false. cbv iota.
    destruct (Z_gt_dec (shift + 7) 53); [lia | ].
    replace ((m + 128) mod 128) with m
      by (apply Z.mod_unique_pos with (q := 1); lia).
    rewrite bor_shl_low by lia.
    (* the zero group *)
    rewrite varintDecode_loop_eq.
    replace (offset + (bytesRead + 1)) with (len (pre ++ [ToUint8 (m + 128)]))
      by (rewrite len_app, len_cons; unfold len at 2; cbn [List.length]; lia).
    replace (pre ++ ToUint8 (m + 128) :: x00 :: post)
      with ((pre ++ [ToUint8 (m + 128)]) ++ x00 :: post)
      by (rewrite <- app_assoc; reflexivity).
    rewrite get_middle. cbn [JS.num].
    rewrite (len_app (pre ++ [ToUint8 (m + 128)])), len_cons.
    destruct (Z_lt_dec (len (pre ++ [ToUint8 (m + 128)]))
                (len (pre ++ [ToUint8 (m + 128)]) + (1 + len post)))
      as [_ | Hc]; [ | lia].
    cbv zeta.
    change (JS.band (byte_to_Z x00) 128 =? 0) with true. cbv iota.
    change (JS.band (byte_to_Z x00) 127) with 0.
    rewrite shl_zero, bor_zero_r.
    f_equal. f_equal. unfold len at 1. cbn [List.length]. lia.
Qed.

Lemma varintDecode_overlong (pre post : Uint8Array) (n : Z) :
  0 <= n < 2 ^ 31 ->
  varintDecode (pre ++ overlong n ++ post) (len pre) = Ok (n, len (overlong n)).
Proof.
  intros Hn. unfold varintDecode.
  rewrite (@varintDecode_loop_overlong n ltac:(lia) pre post (len pre) 0 0 0);
    [ | lia | lia | cbn; lia | cbn; lia].
  change (2 ^ 0) with 1. rewrite Z.mul_1_r, Z.add_0_r, ToInt32_small by lia.
  reflexivity.
Qed.

(* ===================================================================== *)
(** ** Envelope: what a decoded result is made of *)
(* ===================================================================== *)

(** An accepted envelope: its three varints were read, the two bounds
    hold, and the result is made of these slices. *)
Lemma decodeWebAuthnVarsig_fields (v : Uint8Array) (d : DecodedVarsig) :
  decodeWebAuthnVarsig v = Ok d ->
  exists mc n0 la n1 lc n2,
    varintDecode v 0 = Ok (mc, n0) /\ recognized mc /\
    varintDecode v n0 = Ok (la, n1) /\
    varintDecode v (n0 + n1 + la) = Ok (lc, n2) /\
    n0 + n1 + la <= len v /\
    n0 + n1 + la + n2 + lc <= len v /\
    d = {| multicodec := mc; algorithm := getAlgorithm mc;
           authenticatorData := slice v (n0 + n1) (n0 + n1 + la);
           clientDataJSON := slice v (n0 + n1 + la + n2) (n0 + n1 + la + n2 + lc);
           signature := slice_from v (n0 + n1 + la + n2 + lc) |}.
Proof.
  intros H.
  destruct (decodeWebAuthnVarsig_reads _ H) as (mc & n0 & la & n1 & lc & n2 & R0 & Hmc & R1 & R2).
  exists mc, n0, la, n1, lc, n2.
  rewrite (decodeWebAuthnVarsig_header _ R0 R1 R2) in H.
  rewrite (recognized_check Hmc) in H.
  destruct (Z.gtb_spec (n0 + n1 + la) (len v)); [discriminate | ].
  destruct (Z.gtb_spec (n0 + n1 + la + n2 + lc) (len v)); [discriminate | ].
  cbv zeta in H.
  repeat (split; [assumption | ]).
  destruct (getAlgorithm mc) as [[ | ] | ].
  - destruct (negb _); [discriminate | ]. injection H as <-. reflexivity.
  - destruct (_ || _); [discriminate | ]. injection H as <-. reflexivity.
  - injection H as <-. reflexivity.
Qed.

(** A slice is no longer than the array. *)
Lemma len_slice_le (a : Uint8Array) (start stop : Z) : len (slice a start stop) <= len a.
Proof.
  unfold slice. cbv zeta. rewrite len_firstn, len_skipn.
  pose proof (len_nonneg a). unfold rel_index.
  destruct (start <? 0), (stop <? 0); lia.
Qed.

(** X10.  The result of decoding an envelope shorter than [2^31] bytes
    is stable under the encoder: its algorithm is never [null], its
    multicodec is the tag of that algorithm, and its three parts, encoded
    again under that algorithm, decode to the same result. *)
Theorem decodeWebAuthnVarsig_reencode (v : Uint8Array) (d : DecodedVarsig) :
  decodeWebAuthnVarsig v = Ok d ->
  len v < 2 ^ 31 ->
  exists a,
    algorithm d = Some a /\
    multicodec d = ALGORITHM_TO_MULTICODEC a /\
    decode_encoded
      {| assertion_authenticatorData := authenticatorData d;
         assertion_clientDataJSON := clientDataJSON d;
         assertion_signature := signature d |} a = Ok d.
Proof.
  intros H Hlen.
  destruct (decodeWebAuthnVarsig_signature_length _ H) as (a & Ha & Hsig).
  destruct (@decodeWebAuthnVarsig_fields v d H)
    as (mc & n0 & la & n1 & lc & n2 & _ & Hmc & _ & _ & _ & _ & Hd).
  exists a. split; [exact Ha | ].
  assert (Hmca : mc = ALGORITHM_TO_MULTICODEC a).
  { rewrite Hd in Ha. cbn [algorithm] in Ha.
    destruct (getAlgorithm_recognized Hmc) as [[-> E] | [-> E]];
      rewrite E in Ha; injection Ha as <-; reflexivity. }
  split; [rewrite Hd; exact Hmca | ].
  rewrite envelope_roundtrip.
  - rewrite Hd at 4. cbn [authenticatorData clientDataJSON signature].
    rewrite Hd. cbn [authenticatorData clientDataJSON signature].
    rewrite Hmca, getAlgorithm_multicodec. reflexivity.
  - rewrite Hd. cbn [authenticatorData]. pose proof (len_slice_le v (n0 + n1) (n0 + n1 + la)). lia.
  - rewrite Hd. cbn [clientDataJSON].
    pose proof (len_slice_le v (n0 + n1 + la + n2) (n0 + n1 + la + n2 + lc)). lia.
  - exact Hsig.
Qed.

(** X10, instance: the P-256 envelope of a 65-byte signature. *)
Lemma decodeWebAuthnVarsig_reencode_witness :
  exists a,
    Some P256 = Some a /\
    WEBAUTHN_P256 = ALGORITHM_TO_MULTICODEC a /\
    decode_encoded (Sample.assertion 65) a =
    Ok {| multicodec := WEBAUTHN_P256; algorithm := Some P256;
          authenticatorData := Sample.authData x05;
          clientDataJSON := Sample.clientData;
          signature := Sample.sig 65 |}.
Proof.
  apply (@decodeWebAuthnVarsig_reencode (Sample.p256_envelope 65)
           {| multicodec := WEBAUTHN_P256; algorithm := Some P256;
              authenticatorData := Sample.authData x05;
              clientDataJSON := Sample.clientData;
              signature := Sample.sig 65 |}).
  - reflexivity.
  - vm_compute. reflexivity.
Defined.

(* ===================================================================== *)
(** ** Envelope: the parts lie side by side *)
(* ===================================================================== *)

Lemma firstn_plus (A : Type) (i k : nat) (l : list A) :
  firstn (i + k) l = firstn i l ++ firstn k (skipn i l).
Proof.
  revert l. induction i as [ | i IH]; intros l.
  - reflexivity.
  - destruct l as [ | x l].
    + cbn. rewrite firstn_nil. reflexivity.
    + cbn [Nat.add firstn skipn app]. f_equal. apply IH.
Qed.

Lemma app_same_length (A : Type) (l1 l2 r1 r2 : list A) :
  l1 ++ r1 = l2 ++ r2 -> List.length l1 = List.length l2 -> l1 = l2 /\ r1 = r2.
Proof.
  revert l2. induction l1 as [ | x l1 IH]; intros [ | y l2] H Hlen;
    try discriminate Hlen.
  - split; [reflexivity | exact H].
  - cbn [app] in H. injection H as -> H. injection Hlen as Hlen.
    destruct (IH l2 H Hlen) as [-> ->]. split; reflexivity.
Qed.

(** A prefix of the array, cut at an inner index. *)
Lemma slice_split (v : Uint8Array) (i j : Z) :
  0 <= i <= j -> j <= len v ->
  firstn (Z.to_nat j) v = firstn (Z.to_nat i) v ++ slice v i j.
Proof.
  intros Hi Hj. unfold slice. cbv zeta.
  rewrite !rel_index_in by lia.
  rewrite Z.max_l by lia.
  replace (Z.to_nat j) with (Z.to_nat i + Z.to_nat (j - i))%nat by lia.
  rewrite firstn_plus. reflexivity.
Qed.

Lemma slice_from_split (v : Uint8Array) (i : Z) :
  0 <= i <= len v -> v = firstn (Z.to_nat i) v ++ slice_from v i.
Proof.
  intros Hi. unfold slice_from, slice. cbv zeta.
  rewrite !rel_index_in by lia.
  rewrite Z.max_l by lia.
  rewrite (@firstn_all2 _ (Z.to_nat (len v - i)) (skipn (Z.to_nat i) v));
    [symmetry; apply firstn_skipn | ].
  rewrite length_skipn. unfold len in *. lia.
Qed.

(** X11.  When both length prefixes of an accepted envelope are not
    negative, the decoded parts are consecutive pieces of it: the envelope
    is the tag and first length prefix (2 to 16 bytes), authenticatorData,
    the second length prefix (1 to 8 bytes), clientDataJSON and the
    signature, in this order, and the two parts have the lengths that the
    prefixes announce. *)
Theorem decodeWebAuthnVarsig_partition (v : Uint8Array) (d : DecodedVarsig) (la lc : Z) :
  decodeWebAuthnVarsig v = Ok d ->
  lengthPrefixes v = Ok (la, lc) -> 0 <= la -> 0 <= lc ->
  exists tagAndLength clientDataLength : Uint8Array,
    v = tagAndLength ++ authenticatorData d ++ clientDataLength ++
        clientDataJSON d ++ signature d /\
    2 <= len tagAndLength <= 16 /\
    1 <= len clientDataLength <= 8 /\
    len (authenticatorData d) = la /\
    len (clientDataJSON d) = lc.
Proof.
  intros H Hlp Hla Hlc.
  destruct (@decodeWebAuthnVarsig_fields v d H)
    as (mc & n0 & la' & n1 & lc' & n2 & R0 & Hmc & R1 & R2 & Hb1 & Hb2 & Hd).
  rewrite (lengthPrefixes_reads _ R0 R1 R2) in Hlp. injection Hlp as -> ->.
  destruct (@varintDecode_bounds v 0 mc n0 R0) as (Hn0 & _).
  destruct (@varintDecode_bounds v n0 la n1 R1) as (Hn1 & _).
  destruct (@varintDecode_bounds v (n0 + n1 + la) lc n2 R2) as (Hn2 & _).
  exists (firstn (Z.to_nat (n0 + n1)) v),
         (slice v (n0 + n1 + la) (n0 + n1 + la + n2)).
  rewrite Hd. cbn [authenticatorData clientDataJSON signature].
  split; [ | split; [ | split; [ | split]]].
  - rewrite (@slice_from_split v (n0 + n1 + la + n2 + lc)) at 1 by lia.
    rewrite (@slice_split v (n0 + n1 + la + n2) (n0 + n1 + la + n2 + lc)) by lia.
    rewrite (@slice_split v (n0 + n1 + la) (n0 + n1 + la + n2)) by lia.
    rewrite (@slice_split v (n0 + n1) (n0 + n1 + la)) by lia.
    rewrite <- !app_assoc. reflexivity.
  - rewrite len_firstn. lia.
  - rewrite len_slice, !rel_index_in by lia. lia.
  - rewrite len_slice, !rel_index_in by lia. lia.
  - rewrite len_slice, !rel_index_in by lia. lia.
Qed.

(** X11, instance: the P-256 envelope of a 65-byte signature. *)
Lemma decodeWebAuthnVarsig_partition_witness :
  exists tagAndLength clientDataLength : Uint8Array,
    Sample.p256_envelope 65 =
      tagAndLength ++ Sample.authData x05 ++ clientDataLength ++
      Sample.clientData ++ Sample.sig 65 /\
    2 <= len tagAndLength <= 16 /\
    1 <= len clientDataLength <= 8 /\
    len (Sample.authData x05) = 37 /\
    len Sample.clientData = 23.
Proof.
  apply (@decodeWebAuthnVarsig_partition (Sample.p256_envelope 65)
           {| multicodec := WEBAUTHN_P256; algorithm := Some P256;
              authenticatorData := Sample.authData x05;
              clientDataJSON := Sample.clientData;
              signature := Sample.sig 65 |} 37 23);
    [reflexivity | reflexivity | lia | lia].
Defined.

(* ===================================================================== *)
(** ** Envelope: other tags *)
(* ===================================================================== *)

Lemma isWebAuthnMulticodec_check (mc : Z) :
  negb (mc =? WEBAUTHN_ED25519) && negb (mc =? WEBAUTHN_P256) =
  negb (isWebAuthnMulticodec mc).
Proof. unfold isWebAuthnMulticodec. rewrite negb_orb. reflexivity. Qed.

(** X12.  An envelope that opens with the varint of a value below
    [2^31] other than the two WebAuthn tags is rejected with 'Unsupported
    multicodec', which reports that value, whatever follows the tag. *)
Theorem decodeWebAuthnVarsig_unsupported_tag (tag : Z) (rest : Uint8Array) :
  0 <= tag < 2 ^ 31 ->
  isWebAuthnMulticodec tag = false ->
  decodeWebAuthnVarsig (varintEncode tag ++ rest) = Err (UnsupportedMulticodec tag).
Proof.
  intros Htag Hmc.
  unfold decodeWebAuthnVarsig. cbv zeta.
  pose proof (@varintDecode_encoded [] rest tag ltac:(lia)) as E.
  cbn [app] in E. change (len []) with 0 in E.
  rewrite E, ToInt32_small by lia. cbn [bind].
  rewrite isWebAuthnMulticodec_check, Hmc. reflexivity.
Qed.

(** X12, instance: the public-key code [ED25519_PUB] as a tag. *)
Lemma decodeWebAuthnVarsig_unsupported_tag_witness :
  decodeWebAuthnVarsig (varintEncode ED25519_PUB ++ Sample.sig 64) =
  Err (UnsupportedMulticodec ED25519_PUB).
Proof.
  apply (@decodeWebAuthnVarsig_unsupported_tag ED25519_PUB (Sample.sig 64)).
  - vm_compute. split; [discriminate | reflexivity].
  - reflexivity.
Defined.

(* ===================================================================== *)
(** ** Envelope: length prefixes that are not minimal *)
(* ===================================================================== *)

(** Decoding an envelope whose two length fields are any byte strings
    that are read as the two lengths. *)
Lemma decodeWebAuthnVarsig_parts (algorithm : SignatureAlgorithm)
    (h1 h2 a c s : Uint8Array) :
  reads_as h1 (len a) -> reads_as h2 (len c) ->
  decodeWebAuthnVarsig
    (varintEncode (ALGORITHM_TO_MULTICODEC algorithm) ++ h1 ++ a ++ h2 ++ c ++ s) =
  checkSignatureLength algorithm
    {| multicodec := ALGORITHM_TO_MULTICODEC algorithm;
       algorithm := Some algorithm;
       authenticatorData := a; clientDataJSON := c; signature := s |}.
Proof.
  intros H1 H2.
  pose proof (len_nonneg a). pose proof (len_nonneg c). pose proof (len_nonneg s).
  pose proof (len_nonneg h1). pose proof (len_nonneg h2).
  pose proof (multicodec_range algorithm) as [Hmc Hmclen].
  set (m := varintEncode (ALGORITHM_TO_MULTICODEC algorithm)) in *.
  set (v := m ++ h1 ++ a ++ h2 ++ c ++ s).
  assert (R0 : varintDecode v 0 = Ok (ALGORITHM_TO_MULTICODEC algorithm, 2)).
  { pose proof (@varintDecode_encoded [] (h1 ++ a ++ h2 ++ c ++ s)
                  (ALGORITHM_TO_MULTICODEC algorithm) ltac:(lia)) as E.
    cbn [app] in E. change (len []) with 0 in E. fold m in E. fold v in E.
    rewrite E, Hmclen, ToInt32_small by lia. reflexivity. }
  assert (R1 : varintDecode v 2 = Ok (len a, len h1)).
  { pose proof (H1 m (a ++ h2 ++ c ++ s)) as E. rewrite Hmclen in E. exact E. }
  assert (R2 : varintDecode v (2 + len h1 + len a) = Ok (len c, len h2)).
  { pose proof (H2 (m ++ h1 ++ a) (c ++ s)) as E.
    rewrite !len_app, Hmclen in E. rewrite <- !app_assoc in E.
    rewrite Z.add_assoc in E. exact E. }
  assert (Hlen : len v = 2 + len h1 + len a + len h2 + len c + len s).
  { unfold v. rewrite !len_app. lia. }
  rewrite (decodeWebAuthnVarsig_header _ R0 R1 R2).
  replace (negb (ALGORITHM_TO_MULTICODEC algorithm =? WEBAUTHN_ED25519) &&
           negb (ALGORITHM_TO_MULTICODEC algorithm =? WEBAUTHN_P256)) with false
    by (destruct algorithm; reflexivity).
  rewrite Hlen.
  destruct (Z.gtb_spec (2 + len h1 + len a)
                       (2 + len h1 + len a + len h2 + len c + len s)); [lia | ].
  destruct (Z.gtb_spec (2 + len h1 + len a + len h2 + len c)
                       (2 + len h1 + len a + len h2 + len c + len s)); [lia | ].
  cbv zeta. rewrite getAlgorithm_multicodec.
  assert (Ea : slice v (2 + len h1) (2 + len h1 + len a) = a).
  { unfold v.
    pose proof (@slice_middle (m ++ h1) a (h2 ++ c ++ s)) as E.
    rewrite len_app, Hmclen in E.
    rewrite <- app_assoc in E. exact E. }
  assert (Ec : slice v (2 + len h1 + len a + len h2)
                 (2 + len h1 + len a + len h2 + len c) = c).
  { unfold v.
    pose proof (@slice_middle (m ++ h1 ++ a ++ h2) c s) as E.
    rewrite !len_app, Hmclen in E.
    rewrite <- !app_assoc in E. rewrite !Z.add_assoc in E. exact E. }
  assert (Es : slice_from v (2 + len h1 + len a + len h2 + len c) = s).
  { unfold v.
    pose proof (@slice_from_end (m ++ h1 ++ a ++ h2 ++ c) s) as E.
    rewrite !len_app, Hmclen in E.
    rewrite <- !app_assoc in E. rewrite !Z.add_assoc in E. exact E. }
  rewrite Ea, Ec, Es.
  destruct algorithm; reflexivity.
Qed.

Lemma reads_as_varintEncode (n : Z) : 0 <= n < 2 ^ 31 -> reads_as (varintEncode n) n.
Proof.
  intros Hn pre post. rewrite varintDecode_encoded by lia.
  rewrite ToInt32_small by lia. reflexivity.
Qed.

Lemma reads_as_overlong (n : Z) : 0 <= n < 2 ^ 31 -> reads_as (overlong n) n.
Proof. intros Hn pre post. apply varintDecode_overlong. exact Hn. Qed.

(** X13.  The decoder accepts length prefixes that are not minimal:
    for every assertion that round-trips there is a second envelope,
    different from the one the encoder returns, that decodes to the same
    result. *)
Theorem decodeWebAuthnVarsig_not_injective
    (algorithm : SignatureAlgorithm) (a c s : Uint8Array) :
  len a < 2 ^ 31 -> len c < 2 ^ 31 -> signatureLengthOk algorithm (len s) ->
  exists v v' : Uint8Array,
    encodeWebAuthnVarsig
      {| assertion_authenticatorData := a; assertion_clientDataJSON := c;
         assertion_signature := s |} algorithm = Ok v /\
    v' <> v /\
    decodeWebAuthnVarsig v' = decodeWebAuthnVarsig v /\
    decodeWebAuthnVarsig v =
    Ok {| multicodec := ALGORITHM_TO_MULTICODEC algorithm;
          algorithm := Some algorithm;
          authenticatorData := a; clientDataJSON := c; signature := s |}.
Proof.
  intros Ha Hc Hs.
  pose proof (len_nonneg a). pose proof (len_nonneg c).
  exists (layout (ALGORITHM_TO_MULTICODEC algorithm) a c s),
         (varintEncode (ALGORITHM_TO_MULTICODEC algorithm) ++ overlong (len a) ++ a ++
          varintEncode (len c) ++ c ++ s).
  split; [apply encodeWebAuthnVarsig_layout | ].
  split.
  - intros E. apply (f_equal len) in E. unfold layout in E.
    rewrite !len_app, len_overlong in E. lia.
  - rewrite decodeWebAuthnVarsig_parts
      by (first [apply reads_as_overlong | apply reads_as_varintEncode]; lia).
    rewrite decodeWebAuthnVarsig_layout by lia.
    split; [reflexivity | ].
    unfold checkSignatureLength. cbn [signature].
    destruct algorithm; cbn [signatureLengthOk] in Hs.
    + rewrite Hs. reflexivity.
    + destruct (Z.ltb_spec (len s) 64); [lia | ].
      destruct (Z.gtb_spec (len s) 74); [lia | ]. reflexivity.
Qed.

(** X13, instance: the Ed25519 sample assertion. *)
Lemma decodeWebAuthnVarsig_not_injective_witness :
  exists v v' : Uint8Array,
    encodeWebAuthnVarsig (Sample.assertion 64) Ed25519 = Ok v /\
    v' <> v /\
    decodeWebAuthnVarsig v' = decodeWebAuthnVarsig v /\
    decodeWebAuthnVarsig v =
    Ok {| multicodec := WEBAUTHN_ED25519; algorithm := Some Ed25519;
          authenticatorData := Sample.authData x05;
          clientDataJSON := Sample.clientData;
          signature := Sample.sig 64 |}.
Proof.
  apply (@decodeWebAuthnVarsig_not_injective Ed25519 (Sample.authData x05)
           Sample.clientData (Sample.sig 64));
    vm_compute; reflexivity.
Defined.

(* ===================================================================== *)
(** ** Envelope: the encoder is injective *)
(* ===================================================================== *)

Lemma ALGORITHM_TO_MULTICODEC_inj (x y : SignatureAlgorithm) :
  ALGORITHM_TO_MULTICODEC x = ALGORITHM_TO_MULTICODEC y -> x = y.
Proof. destruct x, y; intros E; first [reflexivity | discriminate E]. Qed.

Lemma ToInt32_inj (x y : Z) :
  0 <= x < 2 ^ 32 -> 0 <= y < 2 ^ 32 -> JS.ToInt32 x = JS.ToInt32 y -> x = y.
Proof.
  intros Hx Hy. unfold JS.ToInt32. change (2 ^ 31) with 2147483648 in *.
  change (2 ^ 32) with 4294967296 in *. intros E.
  Z.div_mod_to_equations. lia.
Qed.

Lemma len_eq_length (a b : Uint8Array) : len a = len b -> List.length a = List.length b.
Proof. unfold len. lia. Qed.

(** X9.  The encoder is injective: when authenticatorData and
    clientDataJSON are shorter than [2^32] bytes, two calls that return the
    same envelope were given the same algorithm and the same assertion. *)
Theorem encodeWebAuthnVarsig_injective
    (x y : WebAuthnAssertion) (algorithm algorithm' : SignatureAlgorithm)
    (v : Uint8Array) :
  len (assertion_authenticatorData x) < 2 ^ 32 ->
  len (assertion_clientDataJSON x) < 2 ^ 32 ->
  len (assertion_authenticatorData y) < 2 ^ 32 ->
  len (assertion_clientDataJSON y) < 2 ^ 32 ->
  encodeWebAuthnVarsig x algorithm = Ok v ->
  encodeWebAuthnVarsig y algorithm' = Ok v ->
  algorithm = algorithm' /\ x = y.
Proof.
  destruct x as [a c s], y as [a' c' s'].
  cbn [assertion_authenticatorData assertion_clientDataJSON].
  intros Ha Hc Ha' Hc' Ex Ey.
  rewrite encodeWebAuthnVarsig_layout in Ex, Ey.
  cbn [assertion_authenticatorData assertion_clientDataJSON assertion_signature] in Ex, Ey.
  injection Ex as Ex. injection Ey as Ey.
  pose proof (len_nonneg a). pose proof (len_nonneg c).
  pose proof (len_nonneg a'). pose proof (len_nonneg c').
  destruct (@layout_header algorithm a c s Ha Hc) as (R0 & R1 & _ & _).
  destruct (@layout_header algorithm' a' c' s' Ha' Hc') as (R0' & R1' & _ & _).
  rewrite Ex in R0, R1. rewrite Ey in R0', R1'.
  rewrite R0 in R0'. injection R0' as Ealg. apply ALGORITHM_TO_MULTICODEC_inj in Ealg.
  subst algorithm'. split; [reflexivity | ].
  rewrite R1 in R1'. injection R1' as Ela _. apply ToInt32_inj in Ela; [ | lia | lia].
  rewrite <- Ey in Ex. unfold layout in Ex. rewrite Ela in Ex.
  apply app_inv_head in Ex. apply app_inv_head in Ex.
  apply app_same_length in Ex; [ | apply len_eq_length; exact Ela].
  destruct Ex as [-> Ex].
  pose proof (@varintDecode_encoded [] (c ++ s) (len c) ltac:(lia)) as D.
  pose proof (@varintDecode_encoded [] (c' ++ s') (len c') ltac:(lia)) as D'.
  cbn [app] in D, D'. rewrite Ex in D. rewrite D in D'.
  injection D' as Elc _. apply ToInt32_inj in Elc; [ | lia | lia].
  rewrite Elc in Ex. apply app_inv_head in Ex.
  apply app_same_length in Ex; [ | apply len_eq_length; exact Elc].
  destruct Ex as [-> ->]. reflexivity.
Qed.

(** X9, instance: the P-256 envelope of the sample assertion. *)
Lemma encodeWebAuthnVarsig_injective_witness :
  P256 = P256 /\ Sample.assertion 65 = Sample.assertion 65.
Proof.
  apply (@encodeWebAuthnVarsig_injective (Sample.assertion 65) (Sample.assertion 65)
           P256 P256 (Sample.p256_envelope 65));
    vm_compute; reflexivity.
Defined.

(* ===================================================================== *)
(** ** concat and bytesEqual *)
(* ===================================================================== *)

(** X7.  [concat] never raises the [RangeError] of [set]: it returns the
    arrays one after the other, and the length of the result is the sum of
    their lengths. *)
Theorem concat_in_order (arrays : list Uint8Array) :
  concat arrays = Ok (List.concat arrays) /\
  len (List.concat arrays) = fold_right (fun arr sum => len arr + sum) 0 arrays.
Proof.
  split; [apply concat_flat | ].
  induction arrays as [ | arr arrays IH].
  - reflexivity.
  - cbn [List.concat fold_right]. rewrite len_app, IH. reflexivity.
Qed.

(** X8.  [bytesEqual(a, b)] is [true] exactly when [a] and [b] hold the
    same bytes. *)
Theorem bytesEqual_decides_equality (a b : Uint8Array) :
  bytesEqual a b = true <-> a = b.
Proof. apply bytesEqual_spec. Qed.

(* ===================================================================== *)
(** ** validateWebAuthnAssertion *)
(* ===================================================================== *)

(** X15.  [validateWebAuthnAssertion] returns without throwing exactly
    when the three fields are present and not empty and the signature has
    at least 64 bytes. *)
Theorem validateWebAuthnAssertion_accepts_iff (assertion : AssertionFields) :
  validateWebAuthnAssertion assertion = Ok tt <->
  exists a c s : Uint8Array,
    assertion = {| field_authenticatorData := Some a;
                   field_clientDataJSON := Some c;
                   field_signature := Some s |} /\
    0 < len a /\ 0 < len c /\ 64 <= len s.
Proof.
  destruct assertion as [fa fc fs]. unfold validateWebAuthnAssertion.
  cbn [field_authenticatorData field_clientDataJSON field_signature].
  split.
  - destruct fa as [a | ]; [ | discriminate]. cbn [missing_or_empty].
    destruct (Z.eqb_spec (len a) 0); [discriminate | ].
    destruct fc as [c | ]; [ | discriminate]. cbn [missing_or_empty].
    destruct (Z.eqb_spec (len c) 0); [discriminate | ].
    destruct fs as [s | ]; [ | discriminate]. cbn [missing_or_empty].
    destruct (Z.eqb_spec (len s) 0); [discriminate | ].
    destruct (Z.ltb_spec (len s) 64); [discriminate | ].
    intros _. exists a, c, s.
    pose proof (len_nonneg a). pose proof (len_nonneg c).
    split; [reflexivity | lia].
  - intros (a & c & s & E & Ha & Hc & Hs). injection E as -> -> ->.
    cbn [missing_or_empty].
    destruct (Z.eqb_spec (len a) 0); [lia | ].
    destruct (Z.eqb_spec (len c) 0); [lia | ].
    destruct (Z.eqb_spec (len s) 0); [lia | ].
    destruct (Z.ltb_spec (len s) 64); [lia | ]. reflexivity.
Qed.

(** X16.  Validation and the codec, for authenticatorData and
    clientDataJSON shorter than [2^31] bytes.  An assertion whose envelope
    the decoder accepts passes validation as soon as its authenticatorData
    and clientDataJSON are not empty.  An empty authenticatorData is
    rejected by validation although the codec round-trips it.  And a
    validated assertion with a signature of more than 74 bytes gives an
    envelope that the decoder rejects, under either algorithm. *)
Theorem validateWebAuthnAssertion_and_codec
    (x : WebAuthnAssertion) (algorithm : SignatureAlgorithm) :
  len (assertion_authenticatorData x) < 2 ^ 31 ->
  len (assertion_clientDataJSON x) < 2 ^ 31 ->
  (forall d,
     decode_encoded x algorithm = Ok d ->
     assertion_authenticatorData x <> [] -> assertion_clientDataJSON x <> [] ->
     validateWebAuthnAssertion (fieldsOf x) = Ok tt) /\
  (assertion_authenticatorData x = [] ->
   signatureLengthOk algorithm (len (assertion_signature x)) ->
   validateWebAuthnAssertion (fieldsOf x) = Err AuthenticatorDataRequired /\
   exists d, decode_encoded x algorithm = Ok d) /\
  (validateWebAuthnAssertion (fieldsOf x) = Ok tt ->
   74 < len (assertion_signature x) ->
   exists e, decode_encoded x algorithm = Err e).
Proof.
  destruct x as [a c s].
  cbn [assertion_authenticatorData assertion_clientDataJSON assertion_signature].
  intros Ha Hc.
  assert (Hdec : decode_encoded
                   {| assertion_authenticatorData := a; assertion_clientDataJSON := c;
                      assertion_signature := s |} algorithm =
                 checkSignatureLength algorithm
                   {| multicodec := ALGORITHM_TO_MULTICODEC algorithm;
                      algorithm := Some algorithm;
                      authenticatorData := a; clientDataJSON := c; signature := s |}).
  { unfold decode_encoded. rewrite encodeWebAuthnVarsig_layout. cbn [bind].
    apply decodeWebAuthnVarsig_layout; assumption. }
  rewrite Hdec. clear Hdec.
  unfold checkSignatureLength, validateWebAuthnAssertion, fieldsOf.
  cbn [signature field_authenticatorData field_clientDataJSON field_signature
       assertion_authenticatorData assertion_clientDataJSON assertion_signature
       missing_or_empty].
  split; [ | split].
  - intros d Hd Hna Hnc.
    assert (64 <= len s).
    { destruct algorithm.
      - destruct (Z.eqb_spec (len s) 64); [lia | discriminate Hd].
      - destruct (Z.ltb_spec (len s) 64); [discriminate Hd | lia]. }
    assert (len a <> 0) by (destruct a; [congruence | rewrite len_cons; pose proof (len_nonneg a); lia]).
    assert (len c <> 0) by (destruct c; [congruence | rewrite len_cons; pose proof (len_nonneg c); lia]).
    destruct (Z.eqb_spec (len a) 0); [lia | ].
    destruct (Z.eqb_spec (len c) 0); [lia | ].
    destruct (Z.eqb_spec (len s) 0); [lia | ].
    destruct (Z.ltb_spec (len s) 64); [lia | ]. reflexivity.
  - intros -> Hs. split; [reflexivity | ].
    destruct algorithm; cbn [signatureLengthOk] in Hs.
    + rewrite Hs. eexists. reflexivity.
    + destruct (Z.ltb_spec (len s) 64); [lia | ].
      destruct (Z.gtb_spec (len s) 74); [lia | ]. eexists. reflexivity.
  - intros _ Hs. destruct algorithm.
    + destruct (Z.eqb_spec (len s) 64); [lia | ]. eexists. reflexivity.
    + destruct (Z.ltb_spec (len s) 64); [lia | ].
      destruct (Z.gtb_spec (len s) 74); [ | lia]. eexists. reflexivity.
Qed.

(** X16, instances: the sample assertion passes validation; the same with an
    empty authenticatorData does not, and round-trips; a 75-byte signature
    is rejected by the decoder. *)
Lemma validateWebAuthnAssertion_and_codec_witness :
  validateWebAuthnAssertion (fieldsOf (Sample.assertion 64)) = Ok tt /\
  (validateWebAuthnAssertion
     (fieldsOf {| assertion_authenticatorData := [];
                  assertion_clientDataJSON := Sample.clientData;
                  assertion_signature := Sample.sig 64 |}) =
   Err AuthenticatorDataRequired /\
   exists d,
     decode_encoded {| assertion_authenticatorData := [];
                       assertion_clientDataJSON := Sample.clientData;
                       assertion_signature := Sample.sig 64 |} Ed25519 = Ok d) /\
  (exists e, decode_encoded (Sample.assertion 75) P256 = Err e).
Proof.
  split; [ | split].
  - refine (proj1 (@validateWebAuthnAssertion_and_codec (Sample.assertion 64) Ed25519
                     _ _)
              {| multicodec := WEBAUTHN_ED25519; algorithm := Some Ed25519;
                 authenticatorData := Sample.authData x05;
                 clientDataJSON := Sample.clientData;
                 signature := Sample.sig 64 |} _ _ _);
      vm_compute; first [reflexivity | discriminate].
  - refine (proj1 (proj2 (@validateWebAuthnAssertion_and_codec
                     {| assertion_authenticatorData := [];
                        assertion_clientDataJSON := Sample.clientData;
                        assertion_signature := Sample.sig 64 |} Ed25519 _ _)) eq_refl _);
      vm_compute; reflexivity.
  - refine (proj2 (proj2 (@validateWebAuthnAssertion_and_codec (Sample.assertion 75) P256
                     _ _)) _ _);
      vm_compute; reflexivity.
Defined.

(* ===================================================================== *)
(** ** reconstructSignedData *)
(* ===================================================================== *)

(** X21.  [reconstructSignedData] returns authenticatorData followed
    by the SHA-256 digest of clientDataJSON, whatever the digest is; its two
    [set] calls never raise a [RangeError]. *)
Theorem reconstructSignedData_concatenation
    (SHA256 : Uint8Array -> Uint8Array) (decoded : DecodedVarsig) :
  reconstructSignedData SHA256 decoded =
  Ok (authenticatorData decoded ++ SHA256 (clientDataJSON decoded)).
Proof.
  unfold reconstructSignedData. cbv zeta.
  set (a := authenticatorData decoded). set (h := SHA256 (clientDataJSON decoded)).
  pose proof (len_nonneg a). pose proof (len_nonneg h).
  unfold Uint8Array_new.
  replace (Z.to_nat (len a + len h)) with (List.length a + List.length h)%nat
    by (unfold len; lia).
  rewrite repeat_app.
  pose proof (@set_in_place [] (repeat x00 (List.length a) ++ repeat x00 (List.length h)) a) as E.
  cbn [app] in E. change (len []) with 0 in E.
  rewrite E by (rewrite len_app; unfold len; rewrite !repeat_length; lia).
  cbn [bind]. clear E.
  replace (skipn (Z.to_nat (len a)) (repeat x00 (List.length a) ++ repeat x00 (List.length h)))
    with (repeat x00 (List.length h)).
  2:{ unfold len. rewrite Nat2Z.id.
      rewrite skipn_app, repeat_length, Nat.sub_diag.
      rewrite skipn_all2 by (rewrite repeat_length; lia). reflexivity. }
  rewrite (@set_in_place a (repeat x00 (List.length h)) h)
    by (unfold len; rewrite repeat_length; lia).
  cbn [bind]. f_equal. f_equal.
  unfold len. rewrite Nat2Z.id.
  rewrite skipn_all2 by (rewrite repeat_length; lia).
  apply app_nil_r.
Qed.

(* ===================================================================== *)
(** ** Multicodec tables *)
(* ===================================================================== *)

(** X17.  [MULTICODEC_TO_ALGORITHM] is the inverse of
    [ALGORITHM_TO_MULTICODEC]: [getAlgorithm(mc)] is an algorithm exactly
    when [mc] is the tag of that algorithm; [isWebAuthnMulticodec] holds
    exactly where [getAlgorithm] is not [null]; the public-key codes
    [ED25519_PUB] and [P256_PUB] are no WebAuthn multicodecs. *)
Theorem multicodec_tables_inverse (mc : Z) :
  (forall a, getAlgorithm mc = Some a <-> ALGORITHM_TO_MULTICODEC a = mc) /\
  (isWebAuthnMulticodec mc = true <-> exists a, getAlgorithm mc = Some a) /\
  isWebAuthnMulticodec ED25519_PUB = false /\
  isWebAuthnMulticodec P256_PUB = false.
Proof.
  unfold getAlgorithm, isWebAuthnMulticodec.
  split; [ | split; [ | split; reflexivity]].
  - intros a.
    destruct (Z.eqb_spec mc WEBAUTHN_ED25519) as [-> | H1].
    + destruct a; split; intros E; first [reflexivity | discriminate E].
    + destruct (Z.eqb_spec mc WEBAUTHN_P256) as [-> | H2].
      * destruct a; split; intros E; first [reflexivity | discriminate E].
      * split; [discriminate | ]. intros <-. destruct a; cbn in H1, H2; congruence.
  - destruct (Z.eqb_spec mc WEBAUTHN_ED25519) as [-> | H1].
    + split; [eexists; reflexivity | reflexivity].
    + destruct (Z.eqb_spec mc WEBAUTHN_P256) as [-> | H2].
      * split; [eexists; reflexivity | reflexivity].
      * split; [discriminate | intros [a E]; discriminate E].
Qed.

(* ===================================================================== *)
(** ** The verifier: acceptance, and what it reads *)
(* ===================================================================== *)

Lemma strict_equals_string_spec (v : JSValue) (s : JSString) :
  strict_equals_string v s = true <-> v = JString s.
Proof.
  unfold strict_equals_string, JSString_eqb.
  destruct v; try (split; [discriminate | intros E; discriminate E]).
  destruct (list_eq_dec Z.eq_dec s0 s) as [-> | Hne].
  - split; reflexivity.
  - split; [discriminate | intros E; injection E as E; contradiction].
Qed.

(** The four masks of the verifier test bits 0, 2, 3 and 4. *)
Lemma flag_bits (b : byte) :
  negb (JS.band (byte_to_Z b) 0x01 =? 0) = Z.testbit (byte_to_Z b) 0 /\
  negb (JS.band (byte_to_Z b) 0x04 =? 0) = Z.testbit (byte_to_Z b) 2 /\
  negb (JS.band (byte_to_Z b) 0x08 =? 0) = Z.testbit (byte_to_Z b) 3 /\
  negb (JS.band (byte_to_Z b) 0x10 =? 0) = Z.testbit (byte_to_Z b) 4.
Proof. destruct b; repeat split; reflexivity. Qed.

Lemma get_32 (a : Uint8Array) :
  get a 32 = option_map byte_to_Z (nth_error a 32).
Proof. apply (get_nth_error a 32). Qed.

Lemma flags_byte (a : Uint8Array) :
  37 <= len a ->
  exists b, nth_error a 32 = Some b /\ get a 32 = Some (byte_to_Z b).
Proof.
  intros H. rewrite get_32.
  destruct (nth_error a 32) as [b | ] eqn:E.
  - exists b. split; reflexivity.
  - apply nth_error_None in E. unfold len in H. lia.
Qed.

(** A valid result: every check of the verifier passed. *)
Lemma verifyWebAuthnAssertion_sound
    (TextDecoder_decode : Uint8Array -> JSString)
    (JSON_parse : JSString -> option JSValue)
    (decoded : DecodedVarsig) (options : VerificationOptions) (r : VerificationResult) :
  verifyWebAuthnAssertion TextDecoder_decode JSON_parse decoded options = Ok r ->
  valid r = true ->
  exists cd,
    parseClientDataJSON TextDecoder_decode JSON_parse (clientDataJSON decoded) = Ok cd /\
    accepted decoded options cd.
Proof.
  unfold verifyWebAuthnAssertion.
  destruct (parseClientDataJSON TextDecoder_decode JSON_parse (clientDataJSON decoded))
    as [cd | e0] eqn:Hparse; cbn [bind try_catch].
  2:{ intros E V. injection E as <-. discriminate V. }
  unfold template.
  destruct (strict_equals_string (type cd) (str "webauthn.get")) eqn:Htype;
    cbn [negb].
  2:{ destruct (toString_throws (type cd)); cbn [bind try_catch];
      intros E V; injection E as <-; discriminate V. }
  destruct (strict_equals_string (origin cd) (expectedOrigin options)) eqn:Horigin;
    cbn [negb].
  2:{ destruct (toString_throws (origin cd)); cbn [bind try_catch];
      intros E V; injection E as <-; discriminate V. }
  destruct (base64urlToBytes_value (challenge cd)) as [cb | e1] eqn:Hchal;
    cbn [bind try_catch].
  2:{ intros E V; injection E as <-; discriminate V. }
  destruct (bytesEqual cb (expectedChallenge options)) eqn:Heq; cbn [negb try_catch].
  2:{ intros E V; injection E as <-; discriminate V. }
  destruct (Z.ltb_spec (len (authenticatorData decoded)) 37) as [ | Hlen].
  { cbn [try_catch]. intros E V; injection E as <-; discriminate V. }
  cbv zeta.
  destruct (flags_byte (authenticatorData decoded) Hlen) as (b & Hnth & Hget).
  rewrite Hget. cbn [JS.num].
  destruct (flag_bits b) as (B0 & B2 & _ & _). rewrite B0, B2.
  destruct (Z.testbit (byte_to_Z b) 0) eqn:Hup; cbn [negb try_catch].
  2:{ intros E V; injection E as <-; discriminate V. }
  apply strict_equals_string_spec in Htype, Horigin.
  apply bytesEqual_spec in Heq. subst cb.
  assert (Hch : exists text,
             challenge cd = JString text /\
             base64urlToBytes text = Ok (expectedChallenge options)).
  { unfold base64urlToBytes_value in Hchal.
    destruct (challenge cd) as [ | | | | text | | ]; try discriminate Hchal.
    exists text. split; [reflexivity | exact Hchal]. }
  destruct (requireUserVerification options) as [[ | ] | ] eqn:Huv;
    destruct (Z.testbit (byte_to_Z b) 2) eqn:Hv; cbn [negb andb try_catch];
    intros E V; injection E as <-; try discriminate V;
    exists cd; (split; [reflexivity | ]);
    unfold accepted, flag; rewrite Hnth, Hup, Hv;
    repeat (split; [assumption || reflexivity | ]); auto.
Qed.

(** When every check passes the result is valid and carries the client
    data and flags. *)
Lemma verifyWebAuthnAssertion_complete
    (TextDecoder_decode : Uint8Array -> JSString)
    (JSON_parse : JSString -> option JSValue)
    (decoded : DecodedVarsig) (options : VerificationOptions) (cd : ClientDataJSON) :
  parseClientDataJSON TextDecoder_decode JSON_parse (clientDataJSON decoded) = Ok cd ->
  accepted decoded options cd ->
  exists f,
    verifyWebAuthnAssertion TextDecoder_decode JSON_parse decoded options =
    Ok {| valid := true; error := None; clientData := Some cd; flags := Some f |}.
Proof.
  intros Hparse (Htype & Horigin & (text & Hch & Hdec) & Hlen & Hup & Huv).
  unfold verifyWebAuthnAssertion.
  rewrite Hparse. cbn [bind].
  rewrite (proj2 (strict_equals_string_spec _ _) Htype).
  rewrite (proj2 (strict_equals_string_spec _ _) Horigin). cbn [negb].
  rewrite Hch. cbn [base64urlToBytes_value]. rewrite Hdec. cbn [bind].
  rewrite (proj2 (bytesEqual_spec _ _) eq_refl). cbn [negb].
  destruct (Z.ltb_spec (len (authenticatorData decoded)) 37); [lia | ].
  cbv zeta.
  destruct (flags_byte (authenticatorData decoded) Hlen) as (b & Hnth & Hget).
  rewrite Hget. cbn [JS.num].
  destruct (flag_bits b) as (B0 & B2 & _ & _). rewrite B0, B2.
  unfold flag in Hup, Huv. rewrite Hnth in Hup, Huv.
  rewrite Hup. cbn [negb].
  destruct Huv as [Huv | Huv]; rewrite Huv; cbn [negb andb try_catch].
  - eexists. reflexivity.
  - rewrite andb_false_r. cbn [try_catch]. eexists. reflexivity.
Qed.

(** X18.  [verifyWebAuthnAssertion] returns a valid result exactly
    when clientDataJSON parses, its type is the string ['webauthn.get'],
    its origin is the expected origin, its challenge is a string that
    [base64urlToBytes] decodes to the expected challenge, authenticatorData
    has at least 37 bytes, bit 0 (UP) of its byte 32 is set, and bit 2 (UV)
    is set unless [requireUserVerification] is [false]. *)
Theorem verifyWebAuthnAssertion_accepts_iff
    (TextDecoder_decode : Uint8Array -> JSString)
    (JSON_parse : JSString -> option JSValue)
    (decoded : DecodedVarsig) (options : VerificationOptions) :
  (exists r,
     verifyWebAuthnAssertion TextDecoder_decode JSON_parse decoded options = Ok r /\
     valid r = true) <->
  (exists cd,
     parseClientDataJSON TextDecoder_decode JSON_parse (clientDataJSON decoded) = Ok cd /\
     type cd = JString (str "webauthn.get") /\
     origin cd = JString (expectedOrigin options) /\
     (exists text,
        challenge cd = JString text /\
        base64urlToBytes text = Ok (expectedChallenge options)) /\
     37 <= len (authenticatorData decoded) /\
     flag (authenticatorData decoded) 0 = true /\
     (requireUserVerification options = Some false \/
      flag (authenticatorData decoded) 2 = true)).
Proof.
  split.
  - intros (r & E & V).
    exact (@verifyWebAuthnAssertion_sound TextDecoder_decode JSON_parse
             decoded options r E V).
  - intros (cd & Hparse & Hacc).
    destruct (@verifyWebAuthnAssertion_complete TextDecoder_decode JSON_parse
                decoded options cd Hparse Hacc) as [f E].
    eexists. split; [exact E | reflexivity].
Qed.

(** X19.  Of the decoded envelope the verifier reads clientDataJSON,
    whether authenticatorData has 37 bytes, and byte 32, nothing else: two
    decoded envelopes that agree on these get the same result, whatever
    their rpIdHash, signCount, extensions, signature, multicodec and
    algorithm. *)
Theorem verifyWebAuthnAssertion_reads_flags_only
    (TextDecoder_decode : Uint8Array -> JSString)
    (JSON_parse : JSString -> option JSValue)
    (d d' : DecodedVarsig) (options : VerificationOptions) :
  clientDataJSON d = clientDataJSON d' ->
  37 <= len (authenticatorData d) -> 37 <= len (authenticatorData d') ->
  nth_error (authenticatorData d) 32 = nth_error (authenticatorData d') 32 ->
  verifyWebAuthnAssertion TextDecoder_decode JSON_parse d options =
  verifyWebAuthnAssertion TextDecoder_decode JSON_parse d' options.
Proof.
  intros Hcd Hl Hl' Hflags. unfold verifyWebAuthnAssertion.
  rewrite Hcd, !get_32, Hflags.
  destruct (Z.ltb_spec (len (authenticatorData d)) 37); [lia | ].
  destruct (Z.ltb_spec (len (authenticatorData d')) 37); [lia | ].
  reflexivity.
Qed.

(** X19, instance: another rpIdHash, signCount, extension bytes, tag and
    signature around the same flags byte. *)
Lemma verifyWebAuthnAssertion_reads_flags_only_witness :
  Sample.verify
    (Sample.decoded (Sample.authData x05) (Sample.render Sample.get_example))
    (Sample.options None) =
  Sample.verify
    {| multicodec := WEBAUTHN_P256; algorithm := Some P256;
       authenticatorData := repeat xff 32 ++ [x05] ++ repeat xff 8;
       clientDataJSON :=
         Sample.TextEncoder_encode (Sample.render Sample.get_example);
       signature := [] |}
    (Sample.options None).
Proof.
  apply (@verifyWebAuthnAssertion_reads_flags_only
           Sample.TextDecoder_decode Sample.JSON_parse
           (Sample.decoded (Sample.authData x05) (Sample.render Sample.get_example))
           {| multicodec := WEBAUTHN_P256; algorithm := Some P256;
              authenticatorData := repeat xff 32 ++ [x05] ++ repeat xff 8;
              clientDataJSON :=
                Sample.TextEncoder_encode (Sample.render Sample.get_example);
              signature := [] |}
           (Sample.options None));
    first [reflexivity | vm_compute; discriminate].
Defined.

(** X20.  When clientDataJSON parses, its type and origin pass, and
    its challenge is a string that decodes to bytes other than the expected
    challenge, the result is invalid with 'Challenge mismatch', whatever
    authenticatorData holds. *)
Theorem verifyWebAuthnAssertion_challenge_mismatch
    (TextDecoder_decode : Uint8Array -> JSString)
    (JSON_parse : JSString -> option JSValue)
    (decoded : DecodedVarsig) (options : VerificationOptions)
    (cd : ClientDataJSON) (text : JSString) (challengeBytes : Uint8Array) :
  parseClientDataJSON TextDecoder_decode JSON_parse (clientDataJSON decoded) = Ok cd ->
  type cd = JString (str "webauthn.get") ->
  origin cd = JString (expectedOrigin options) ->
  challenge cd = JString text ->
  base64urlToBytes text = Ok challengeBytes ->
  challengeBytes <> expectedChallenge options ->
  verifyWebAuthnAssertion TextDecoder_decode JSON_parse decoded options =
  Ok (invalid ChallengeMismatch).
Proof.
  intros Hparse Htype Horigin Hch Hdec Hne.
  unfold verifyWebAuthnAssertion. rewrite Hparse. cbn [bind].
  rewrite (proj2 (strict_equals_string_spec _ _) Htype).
  rewrite (proj2 (strict_equals_string_spec _ _) Horigin). cbn [negb].
  rewrite Hch. cbn [base64urlToBytes_value]. rewrite Hdec. cbn [bind].
  destruct (bytesEqual challengeBytes (expectedChallenge options)) eqn:E.
  - apply bytesEqual_spec in E. contradiction.
  - reflexivity.
Qed.

(** X20, instance: the challenge [01 02 03] against the expected
    [01 02 04]. *)
Lemma verifyWebAuthnAssertion_challenge_mismatch_witness :
  Sample.verify
    (Sample.decoded (Sample.authData x05) (Sample.render Sample.get_example))
    {| expectedOrigin := str "https://example.com";
       expectedChallenge := [x01; x02; x04];
       requireUserVerification := None |} =
  Ok (invalid ChallengeMismatch).
Proof.
  apply (@verifyWebAuthnAssertion_challenge_mismatch
           Sample.TextDecoder_decode Sample.JSON_parse
           (Sample.decoded (Sample.authData x05) (Sample.render Sample.get_example))
           {| expectedOrigin := str "https://example.com";
              expectedChallenge := [x01; x02; x04];
              requireUserVerification := None |}
           {| type := JString (str "webauthn.get");
              challenge := JString (str "AQID");
              origin := JString (str "https://example.com");
              crossOrigin := JUndefined |}
           (str "AQID") [x01; x02; x03]);
    first [reflexivity | discriminate].
Defined.

(* ===================================================================== *)
(** ** base64url: lengths, alphabets and foreign characters *)
(* ===================================================================== *)

(** Induction on lists, four elements at a time. *)
Lemma list_ind4 (A : Type) (P : list A -> Prop) :
  P [] -> (forall a, P [a]) -> (forall a b, P [a; b]) -> (forall a b c, P [a; b; c]) ->
  (forall a b c d l, P l -> P (a :: b :: c :: d :: l)) ->
  forall l, P l.
Proof.
  intros H0 H1 H2 H3 H4.
  assert (H : forall l, P l /\ (forall a, P (a :: l)) /\ (forall a b, P (a :: b :: l)) /\
                        (forall a b c, P (a :: b :: c :: l))).
  { induction l as [ | x l (IH0 & IH1 & IH2 & IH3)].
    - split; [exact H0 | split; [exact H1 | split; [exact H2 | exact H3]]].
    - split; [apply IH1 | split; [intros a; apply IH2 | split; [intros a b; apply IH3 | ]]].
      intros a b c. apply H4. exact IH0. }
  intros l. apply H.
Qed.

Ltac sextet_cases :=
  unfold Base64.encode_sextet; ch_norm;
  repeat match goal with
         | |- context [?a <? ?b] => destruct (Z.ltb_spec a b); try lia
         | |- context [?a =? ?b] => destruct (Z.eqb_spec a b); try lia
         end.

(** A character that [decode_char] accepts is the encoding of its sextet. *)
Lemma decode_char_alphabet (u n : Z) :
  Base64.decode_char u = Some n -> alphabet u /\ 0 <= n < 64.
Proof.
  unfold Base64.decode_char, alphabet. ch_norm.
  destruct ((65 <=? u) && (u <=? 90)) eqn:E1.
  { apply andb_true_iff in E1 as [H1 H2]. apply Z.leb_le in H1, H2.
    intros E. injection E as <-. split; [ | lia].
    exists (u - 65). split; [lia | sextet_cases]. }
  destruct ((97 <=? u) && (u <=? 122)) eqn:E2.
  { apply andb_true_iff in E2 as [H1 H2]. apply Z.leb_le in H1, H2.
    intros E. injection E as <-. split; [ | lia].
    exists (u - 97 + 26). split; [lia | sextet_cases]. }
  destruct ((48 <=? u) && (u <=? 57)) eqn:E3.
  { apply andb_true_iff in E3 as [H1 H2]. apply Z.leb_le in H1, H2.
    intros E. injection E as <-. split; [ | lia].
    exists (u - 48 + 52). split; [lia | sextet_cases]. }
  destruct (Z.eqb_spec u 43) as [-> | ].
  { intros E. injection E as <-. split; [ | lia]. exists 62. split; [lia | reflexivity]. }
  destruct (Z.eqb_spec u 47) as [-> | ]; [ | discriminate].
  intros E. injection E as <-. split; [ | lia]. exists 63. split; [lia | reflexivity].
Qed.

Lemma alphabet_decode_char (u : Z) :
  alphabet u -> exists n, Base64.decode_char u = Some n /\ 0 <= n < 64.
Proof.
  intros (n & Hn & ->). exists n. split; [apply decode_encode_sextet; exact Hn | exact Hn].
Qed.

Lemma replace_to_base64 (text : JSString) :
  replace_char (ch "_") (ch "/") (replace_char (ch "-") (ch "+") text) = map to_base64 text.
Proof. unfold replace_char. rewrite map_map. reflexivity. Qed.

Lemma base64url_char_alphabet (u : Z) :
  base64url_char u = true -> alphabet (to_base64 u).
Proof.
  unfold base64url_char, to_base64. ch_norm. intros H.
  assert (Hd : exists n, Base64.decode_char
                 (if (if u =? 45 then 43 else u) =? 95 then 47
                  else if u =? 45 then 43 else u) = Some n).
  { unfold Base64.decode_char. ch_norm.
    destruct (Z.eqb_spec u 45) as [E45 | H45]; [eexists; reflexivity | ].
    destruct (Z.eqb_spec u 95) as [E95 | H95]; [eexists; reflexivity | ].
    rewrite !orb_false_r in H.
    destruct (Z.leb_spec 65 u), (Z.leb_spec u 90), (Z.leb_spec 97 u), (Z.leb_spec u 122),
             (Z.leb_spec 48 u), (Z.leb_spec u 57);
      cbn [andb orb] in H |- *; try discriminate H; try lia; eexists; reflexivity. }
  destruct Hd as [n Hd]. apply (decode_char_alphabet _ Hd).
Qed.

(** A text of alphabet characters whose length is not 1 modulo 4 is decoded. *)
Lemma decode_groups_total (l : JSString) :
  Forall alphabet l -> Z.of_nat (List.length l) mod 4 <> 1 ->
  exists out, Base64.decode_groups l = Some out.
Proof.
  induction l as [ | a | a b | a b c | a b c d l IH] using list_ind4; intros Hl Hmod.
  - eexists. reflexivity.
  - exfalso. apply Hmod. reflexivity.
  - apply Forall_cons_iff in Hl as [Ha Hl]. apply Forall_cons_iff in Hl as [Hb _].
    destruct (alphabet_decode_char Ha) as (na & Ea & _).
    destruct (alphabet_decode_char Hb) as (nb & Eb & _).
    cbn [Base64.decode_groups]. rewrite Ea, Eb. eexists. reflexivity.
  - apply Forall_cons_iff in Hl as [Ha Hl]. apply Forall_cons_iff in Hl as [Hb Hl].
    apply Forall_cons_iff in Hl as [Hc _].
    destruct (alphabet_decode_char Ha) as (na & Ea & _).
    destruct (alphabet_decode_char Hb) as (nb & Eb & _).
    destruct (alphabet_decode_char Hc) as (nc & Ec & _).
    cbn [Base64.decode_groups]. rewrite Ea, Eb, Ec. eexists. reflexivity.
  - apply Forall_cons_iff in Hl as [Ha Hl]. apply Forall_cons_iff in Hl as [Hb Hl].
    apply Forall_cons_iff in Hl as [Hc Hl]. apply Forall_cons_iff in Hl as [Hd Hl].
    destruct (alphabet_decode_char Ha) as (na & Ea & _).
    destruct (alphabet_decode_char Hb) as (nb & Eb & _).
    destruct (alphabet_decode_char Hc) as (nc & Ec & _).
    destruct (alphabet_decode_char Hd) as (nd & Ed & _).
    destruct IH as [out Eout]; [exact Hl | | ].
    { cbn [List.length] in Hmod. rewrite !Nat2Z.inj_succ in Hmod.
      intros E. apply Hmod. Z.div_mod_to_equations. lia. }
    cbn [Base64.decode_groups]. rewrite Ea, Eb, Ec, Ed, Eout. eexists. reflexivity.
Qed.

(** A decoded text holds decodable characters only; its output has
    [floor(3n/4)] bytes. *)
Lemma decode_groups_Some (l out : JSString) :
  Base64.decode_groups l = Some out ->
  Forall (fun u => Base64.decode_char u <> None) l /\
  Z.of_nat (List.length out) = 3 * Z.of_nat (List.length l) / 4.
Proof.
  revert out.
  induction l as [ | a | a b | a b c | a b c d l IH] using list_ind4; intros out H.
  - injection H as <-. split; [constructor | reflexivity].
  - discriminate H.
  - cbn [Base64.decode_groups] in H.
    destruct (Base64.decode_char a) eqn:Ea; [ | discriminate H].
    destruct (Base64.decode_char b) eqn:Eb; [ | discriminate H].
    injection H as <-. split; [ | reflexivity].
    repeat constructor; congruence.
  - cbn [Base64.decode_groups] in H.
    destruct (Base64.decode_char a) eqn:Ea; [ | discriminate H].
    destruct (Base64.decode_char b) eqn:Eb; [ | discriminate H].
    destruct (Base64.decode_char c) eqn:Ec; [ | discriminate H].
    injection H as <-. split; [ | reflexivity].
    repeat constructor; congruence.
  - cbn [Base64.decode_groups] in H.
    destruct (Base64.decode_char a) eqn:Ea; [ | discriminate H].
    destruct (Base64.decode_char b) eqn:Eb; [ | discriminate H].
    destruct (Base64.decode_char c) eqn:Ec; [ | discriminate H].
    destruct (Base64.decode_char d) eqn:Ed; [ | discriminate H].
    destruct (Base64.decode_groups l) as [out' | ] eqn:El; [ | discriminate H].
    injection H as <-.
    destruct (IH out' eq_refl) as [Hall Hlen].
    split.
    + repeat (constructor; [congruence | ]). exact Hall.
    + cbn [List.length]. rewrite !Nat2Z.inj_succ. rewrite Hlen.
      Z.div_mod_to_equations. lia.
Qed.

Lemma decode_groups_foreign (l : JSString) (u : Z) :
  In u l -> Base64.decode_char u = None -> Base64.decode_groups l = None.
Proof.
  intros Hin Hu.
  destruct (Base64.decode_groups l) as [out | ] eqn:E; [ | reflexivity].
  destruct (decode_groups_Some _ E) as [Hall _].
  rewrite Forall_forall in Hall. exfalso. exact (Hall u Hin Hu).
Qed.

(** [remove_padding] removes nothing but [=]. *)
Lemma remove_padding_keeps (l : JSString) (u : Z) :
  In u l -> u <> ch "=" -> In u (Base64.remove_padding l).
Proof.
  intros Hin Hne. unfold Base64.remove_padding.
  destruct (_ =? 0); [ | exact Hin].
  destruct (rev l) as [ | u1 r1] eqn:Er; [exact Hin | ].
  assert (Hin' : In u (u1 :: r1)) by (rewrite <- Er; apply in_rev in Hin; exact Hin).
  destruct (Z.eqb_spec u1 (ch "=")) as [-> | ]; [ | exact Hin].
  destruct Hin' as [E | Hin']; [congruence | ].
  destruct r1 as [ | u2 r2]; [destruct Hin' | ].
  destruct (Z.eqb_spec u2 (ch "=")) as [-> | ].
  - destruct Hin' as [E | Hin']; [congruence | ]. apply in_rev in Hin'. exact Hin'.
  - apply in_rev in Hin'. exact Hin'.
Qed.

(** Three padding characters after a body of length 1 modulo 4: two are
    removed. *)
Lemma remove_padding_three (body : JSString) :
  Z.of_nat (List.length body) mod 4 = 1 ->
  Base64.remove_padding (body ++ repeat (ch "=") 3) = body ++ [ch "="].
Proof.
  intros Hmod. unfold Base64.remove_padding.
  replace (Z.of_nat (List.length (body ++ repeat (ch "=") 3)) mod 4) with 0.
  2:{ rewrite length_app, repeat_length, Nat2Z.inj_add.
      change (Z.of_nat 3) with 3. Z.div_mod_to_equations. lia. }
  cbn [Z.eqb]. rewrite rev_app_distr. cbn [repeat rev app].
  rewrite !Z.eqb_refl. cbn [rev]. rewrite rev_involutive. reflexivity.
Qed.

Lemma padding_length (n : Z) :
  0 <= n ->
  (n mod 4 = 1 -> Z.to_nat ((4 - n mod 4) mod 4) = 3%nat) /\
  0 <= (4 - n mod 4) mod 4 < 4.
Proof.
  intros Hn. split.
  - intros ->. reflexivity.
  - apply Z.mod_pos_bound. lia.
Qed.

Lemma no_whitespace (body : JSString) (k : nat) :
  Forall alphabet body ->
  filter (fun u => negb (Base64.is_whitespace u)) (body ++ repeat (ch "=") k) =
  body ++ repeat (ch "=") k.
Proof.
  intros Halpha. apply filter_all. apply Forall_app. split.
  - apply Forall_forall. intros u Hu. rewrite Forall_forall in Halpha.
    destruct (alphabet_facts (Halpha u Hu)) as (_ & _ & _ & _ & Hw).
    rewrite Hw. reflexivity.
  - apply Forall_forall. intros u Hu. apply repeat_spec in Hu. subst u. reflexivity.
Qed.

(** X23.  On a text of [n] URL-safe characters [base64urlToBytes]
    throws (the [InvalidCharacterError] of [atob]) when [n] is 1 modulo 4,
    and returns [floor(3n/4)] bytes otherwise. *)
Theorem base64urlToBytes_by_length (text : JSString) :
  Forall (fun u => base64url_char u = true) text ->
  let n := Z.of_nat (List.length text) in
  (n mod 4 = 1 -> base64urlToBytes text = Err InvalidCharacterError) /\
  (n mod 4 <> 1 ->
   exists bytes, base64urlToBytes text = Ok bytes /\ len bytes = 3 * n / 4).
Proof.
  intros Htext n. unfold base64urlToBytes. cbv zeta.
  rewrite replace_to_base64. rewrite length_map. fold n.
  set (body := map to_base64 text).
  assert (Hbody : Forall alphabet body).
  { apply Forall_forall. intros u Hu. apply in_map_iff in Hu as (u0 & <- & Hu0).
    rewrite Forall_forall in Htext. apply base64url_char_alphabet. apply Htext. exact Hu0. }
  assert (Hlen : Z.of_nat (List.length body) = n)
    by (unfold body; rewrite length_map; reflexivity).
  unfold Base64.atob. cbv zeta. rewrite no_whitespace by exact Hbody.
  split.
  - intros Hmod. destruct (@padding_length n ltac:(lia)) as [H3 _].
    rewrite (H3 Hmod). rewrite remove_padding_three by (rewrite Hlen; exact Hmod).
    replace (Z.of_nat (List.length (body ++ [ch "="])) mod 4 =? 1) with false.
    2:{ symmetry. apply Z.eqb_neq. rewrite length_app, Nat2Z.inj_add, Hlen.
        change (Z.of_nat (List.length [ch "="])) with 1.
        Z.div_mod_to_equations. lia. }
    rewrite (@decode_groups_foreign (body ++ [ch "="]) (ch "="));
      [reflexivity | apply in_or_app; right; left; reflexivity | reflexivity].
  - intros Hmod. rewrite <- Hlen.
    rewrite remove_padding_body by (try assumption; rewrite Hlen; exact Hmod).
    destruct (Z.eqb_spec (Z.of_nat (List.length body) mod 4) 1) as [E | _];
      [rewrite Hlen in E; contradiction | ].
    destruct (@decode_groups_total body Hbody) as [out Eout];
      [rewrite Hlen; exact Hmod | ].
    rewrite Eout. eexists. split; [reflexivity | ].
    unfold len. rewrite length_map.
    destruct (decode_groups_Some _ Eout) as [_ Hout]. rewrite Hout. reflexivity.
Qed.

(** X23, instances: a text of 9 characters and one of 10. *)
Lemma base64urlToBytes_by_length_witness :
  base64urlToBytes (str "AQIDBAX__") = Err InvalidCharacterError /\
  (exists bytes, base64urlToBytes (str "AQIDBAX__g") = Ok bytes /\ len bytes = 3 * 10 / 4).
Proof.
  split.
  - apply (proj1 (@base64urlToBytes_by_length (str "AQIDBAX__") ltac:(repeat constructor))).
    reflexivity.
  - apply (proj2 (@base64urlToBytes_by_length (str "AQIDBAX__g") ltac:(repeat constructor))).
    discriminate.
Defined.

(** X24.  [base64urlToBytes] throws on every text that holds a
    character other than a letter, a digit, [-], [_], [+], [/], [=] and
    ASCII whitespace. *)
Theorem base64urlToBytes_rejects_foreign (text : JSString) (u : Z) :
  In u text -> base64_tolerated u = false ->
  base64urlToBytes text = Err InvalidCharacterError.
Proof.
  intros Hin Hu. unfold base64_tolerated, base64url_char in Hu.
  apply orb_false_iff in Hu as [Hu Hws]. apply orb_false_iff in Hu as [Hu Heq].
  apply orb_false_iff in Hu as [Hu Hslash]. apply orb_false_iff in Hu as [Hu Hplus].
  apply orb_false_iff in Hu as [Hu Hus]. apply orb_false_iff in Hu as [Hu Hminus].
  apply orb_false_iff in Hu as [Hu Hdigit]. apply orb_false_iff in Hu as [Hupper Hlower].
  assert (Hfix : to_base64 u = u).
  { unfold to_base64. rewrite Hminus, Hus. reflexivity. }
  assert (Hdec : Base64.decode_char u = None).
  { unfold Base64.decode_char. rewrite Hupper, Hlower, Hdigit, Hplus, Hslash. reflexivity. }
  unfold base64urlToBytes. cbv zeta. rewrite replace_to_base64.
  set (padded := map to_base64 text ++ _).
  assert (Hin1 : In u padded).
  { unfold padded. apply in_or_app. left. rewrite <- Hfix. apply in_map. exact Hin. }
  unfold Base64.atob. cbv zeta.
  set (stripped := filter _ padded).
  assert (Hin2 : In u stripped).
  { unfold stripped. apply filter_In. split; [exact Hin1 | rewrite Hws; reflexivity]. }
  assert (Hin3 : In u (Base64.remove_padding stripped)).
  { apply remove_padding_keeps; [exact Hin2 | ]. apply Z.eqb_neq. exact Heq. }
  destruct (_ =? 1); [reflexivity | ].
  rewrite (decode_groups_foreign _ _ Hin3 Hdec). reflexivity.
Qed.

(** X24, instance: an exclamation mark. *)
Lemma base64urlToBytes_rejects_foreign_witness :
  base64urlToBytes (str "AQ!D") = Err InvalidCharacterError.
Proof.
  apply (@base64urlToBytes_rejects_foreign (str "AQ!D") (ch "!")).
  - right. right. left. reflexivity.
  - reflexivity.
Defined.

Lemma to_base64_alphabet (u : Z) : alphabet u -> to_base64 u = u.
Proof.
  intros H. destruct (alphabet_facts H) as (_ & _ & Hm & Hu & _).
  unfold to_base64.
  destruct (Z.eqb_spec u (ch "-")); [contradiction | ].
  destruct (Z.eqb_spec u (ch "_")); [contradiction | ]. reflexivity.
Qed.

(** X25.  [base64urlToBytes] decodes standard base64 as well: the
    padded text that [btoa] gives for a byte string is decoded to that byte
    string. *)
Theorem base64urlToBytes_accepts_base64 (bytes : Uint8Array) :
  exists base64,
    Base64.btoa (map byte_to_Z bytes) = Some base64 /\
    base64urlToBytes base64 = Ok bytes.
Proof.
  assert (Hbytes : Forall (fun u => 0 <= u < 256) (map byte_to_Z bytes)).
  { apply Forall_forall. intros u Hu. apply in_map_iff in Hu as (b & <- & _).
    apply byte_to_Z_range. }
  unfold Base64.btoa.
  replace (existsb (fun u => 255 <? u) (map byte_to_Z bytes)) with false.
  2:{ symmetry. apply not_true_is_false. intros E.
      apply existsb_exists in E as (u & Hu & Hgt).
      rewrite Forall_forall in Hbytes. specialize (Hbytes u Hu).
      apply Z.ltb_lt in Hgt. lia. }
  destruct (encode_groups_shape Hbytes) as (body & Eenc & Halpha & Hmod & Hdec).
  eexists. split; [reflexivity | ].
  rewrite Eenc.
  set (k := (4 - Z.of_nat (List.length body) mod 4) mod 4).
  assert (Hk : 0 <= k < 4) by (apply Z.mod_pos_bound; lia).
  unfold base64urlToBytes. cbv zeta. rewrite replace_to_base64.
  assert (Emap : map to_base64 (body ++ repeat (ch "=") (Z.to_nat k)) =
                 body ++ repeat (ch "=") (Z.to_nat k)).
  { rewrite <- (map_id (body ++ repeat (ch "=") (Z.to_nat k))) at 2.
    apply map_ext_in. intros u Hu. apply in_app_or in Hu as [Hu | Hu].
    - rewrite Forall_forall in Halpha. apply to_base64_alphabet. apply Halpha. exact Hu.
    - apply repeat_spec in Hu. subst u. reflexivity. }
  rewrite Emap.
  replace (Z.to_nat ((4 - Z.of_nat (List.length (body ++ repeat (ch "=") (Z.to_nat k))) mod 4)
                     mod 4)) with 0%nat.
  2:{ rewrite length_app, repeat_length, Nat2Z.inj_add, Z2Nat.id by lia.
      replace ((4 - (Z.of_nat (List.length body) + k) mod 4) mod 4) with 0;
        [reflexivity | ].
      subst k. Z.div_mod_to_equations. lia. }
  cbn [repeat]. rewrite app_nil_r.
  unfold Base64.atob. cbv zeta. rewrite no_whitespace by exact Halpha.
  unfold k. rewrite remove_padding_body by assumption.
  destruct (Z.eqb_spec (Z.of_nat (List.length body) mod 4) 1); [contradiction | ].
  rewrite Hdec. rewrite map_ToUint8_byte_to_Z. reflexivity.
Qed.

Lemma to_base64url_char (u : Z) : alphabet u -> base64url_char (to_base64url u) = true.
Proof.
  intros (n & Hn & ->).
  unfold to_base64url, base64url_char, Base64.encode_sextet. ch_norm.
  destruct (Z.ltb_spec n 26).
  { destruct (Z.eqb_spec (65 + n) 43); [lia | ]. destruct (Z.eqb_spec (65 + n) 47); [lia | ].
    destruct (Z.leb_spec 65 (65 + n)); [ | lia]. destruct (Z.leb_spec (65 + n) 90); [ | lia].
    reflexivity. }
  destruct (Z.ltb_spec n 52).
  { destruct (Z.eqb_spec (97 + (n - 26)) 43); [lia | ].
    destruct (Z.eqb_spec (97 + (n - 26)) 47); [lia | ].
    destruct (Z.leb_spec 97 (97 + (n - 26))); [ | lia].
    destruct (Z.leb_spec (97 + (n - 26)) 122); [ | lia].
    cbn [andb]. rewrite orb_true_r. reflexivity. }
  destruct (Z.ltb_spec n 62).
  { destruct (Z.eqb_spec (48 + (n - 52)) 43); [lia | ].
    destruct (Z.eqb_spec (48 + (n - 52)) 47); [lia | ].
    destruct (Z.leb_spec 48 (48 + (n - 52))); [ | lia].
    destruct (Z.leb_spec (48 + (n - 52)) 57); [ | lia].
    cbn [andb]. rewrite !orb_true_r. reflexivity. }
  destruct (Z.eqb_spec n 62); reflexivity.
Qed.

(** X22.  [bytesToBase64url] of [n] bytes returns [ceil(4n/3)]
    characters, that is [(4n + 2) / 3], all of them letters, digits, [-] or
    [_]. *)
Theorem bytesToBase64url_shape (bytes : Uint8Array) :
  exists text,
    bytesToBase64url bytes = Ok text /\
    Forall (fun u => base64url_char u = true) text /\
    Z.of_nat (List.length text) = (4 * len bytes + 2) / 3.
Proof.
  unfold bytesToBase64url. cbv zeta.
  rewrite binaryString_map. cbn [app].
  assert (Hbytes : Forall (fun u => 0 <= u < 256) (map byte_to_Z bytes)).
  { apply Forall_forall. intros u Hu. apply in_map_iff in Hu as (b & <- & _).
    apply byte_to_Z_range. }
  unfold Base64.btoa.
  replace (existsb (fun u => 255 <? u) (map byte_to_Z bytes)) with false.
  2:{ symmetry. apply not_true_is_false. intros E.
      apply existsb_exists in E as (u & Hu & Hgt).
      rewrite Forall_forall in Hbytes. specialize (Hbytes u Hu).
      apply Z.ltb_lt in Hgt. lia. }
  destruct (encode_groups_shape Hbytes) as (body & Eenc & Halpha & Hmod & Hdec).
  rewrite Eenc.
  set (k := Z.to_nat ((4 - Z.of_nat (List.length body) mod 4) mod 4)).
  assert (Etext : remove_char (ch "=")
            (replace_char (ch "/") (ch "_")
               (replace_char (ch "+") (ch "-") (body ++ repeat (ch "=") k))) =
          map to_base64url body).
  { unfold remove_char, replace_char. rewrite map_map. fold to_base64url.
    rewrite map_app, filter_app.
    rewrite filter_all.
    2:{ apply Forall_forall. intros u Hu. apply in_map_iff in Hu as (u0 & <- & Hu).
        rewrite Forall_forall in Halpha.
        destruct (url_substitution_inverse (Halpha u0 Hu)) as [_ Hne].
        unfold to_base64url. rewrite Hne. reflexivity. }
    rewrite filter_none; [apply app_nil_r | ].
    apply Forall_forall. intros u Hu. apply in_map_iff in Hu as (u0 & <- & Hu).
    apply repeat_spec in Hu. subst u0. reflexivity. }
  rewrite Etext. eexists. split; [reflexivity | split].
  - apply Forall_forall. intros u Hu. apply in_map_iff in Hu as (u0 & <- & Hu).
    rewrite Forall_forall in Halpha. apply to_base64url_char. apply Halpha. exact Hu.
  - rewrite length_map.
    destruct (decode_groups_Some _ Hdec) as [_ Hout].
    rewrite length_map in Hout. unfold len.
    Z.div_mod_to_equations. lia.
Qed.

(* ===================================================================== *)
(** ** did:key: any multikey *)
(* ===================================================================== *)

(** [multikey.slice(2)]. *)
Lemma slice_from_2 (m : Uint8Array) : slice_from m 2 = skipn 2 m.
Proof.
  unfold slice_from, slice. cbv zeta. pose proof (len_nonneg m) as Hm.
  unfold rel_index.
  destruct (Z.ltb_spec 2 0); [lia | ]. destruct (Z.ltb_spec (len m) 0); [lia | ].
  rewrite (Z.min_r (len m) (len m)) by lia.
  destruct (Z_le_dec 2 (len m)) as [Hle | Hgt].
  - rewrite Z.min_l by lia. change (Z.to_nat 2) with 2%nat.
    apply firstn_all2. rewrite length_skipn. unfold len in *. lia.
  - rewrite Z.min_r by lia. unfold len. rewrite Nat2Z.id.
    rewrite skipn_all. rewrite firstn_nil.
    symmetry. apply skipn_all2. unfold len in Hgt. lia.
Qed.

(** X26.  [extractPublicKeyFromDid] does not look at the multicodec:
    from the did:key of any multikey it returns the multikey without its
    first two bytes (nothing when the multikey is shorter), so it returns
    the key of a P-256 identifier as well; an identifier that does not start
    with ['did:key:z'] is rejected with 'Invalid DID format'. *)
Theorem extractPublicKeyFromDid_any_multikey :
  (forall multikey : Uint8Array,
     extractPublicKeyFromDid (str "did:key:" ++ base58btc_encode multikey) =
     Ok (skipn 2 multikey)) /\
  (forall (publicKey : Uint8Array) (did : JSString),
     createP256Did publicKey = Ok did ->
     extractPublicKeyFromDid did = Ok publicKey) /\
  (forall did : JSString,
     startsWith did (str "did:key:z") = false ->
     extractPublicKeyFromDid did = Err InvalidDIDFormat).
Proof.
  assert (Hany : forall multikey : Uint8Array,
            extractPublicKeyFromDid (str "did:key:" ++ base58btc_encode multikey) =
            Ok (skipn 2 multikey)).
  { intros multikey. unfold extractPublicKeyFromDid.
    assert (Estart : startsWith (str "did:key:" ++ base58btc_encode multikey)
                       (str "did:key:z") = true).
    { unfold base58btc_encode.
      change (str "did:key:" ++ ch "z" :: Base58.encode multikey)
        with (str "did:key:z" ++ Base58.encode multikey).
      apply startsWith_app. }
    rewrite Estart. cbn [negb].
    change (skipn 8 (str "did:key:" ++ base58btc_encode multikey))
      with (base58btc_encode multikey).
    rewrite base58btc_roundtrip, slice_from_2. reflexivity. }
  split; [exact Hany | split].
  - intros publicKey did E. rewrite createP256Did_multikey in E.
    assert (Ed : did = str "did:key:" ++ base58btc_encode ([x80; x24] ++ publicKey))
      by congruence.
    rewrite Ed, Hany. reflexivity.
  - intros did E. unfold extractPublicKeyFromDid. rewrite E. reflexivity.
Qed.

(* ===================================================================== *)
(** ** Mock authenticator data *)
(* ===================================================================== *)

(** The four bytes of a signed 32-bit integer. *)
Lemma sar_bytes (x : Z) :
  - 2 ^ 31 <= x < 2 ^ 31 ->
  ((x / 2 ^ 24) mod 256) * 2 ^ 24 + ((x / 2 ^ 16) mod 256) * 2 ^ 16 +
  ((x / 2 ^ 8) mod 256) * 2 ^ 8 + x mod 256 = x mod 2 ^ 32.
Proof.
  intros Hx.
  change (2 ^ 24) with 16777216. change (2 ^ 16) with 65536. change (2 ^ 8) with 256.
  change (2 ^ 32) with 4294967296. change (2 ^ 31) with 2147483648 in Hx.
  Z.div_mod_to_equations. lia.
Qed.

Lemma band_0xff (x : Z) : JS.band x 0xff = JS.ToInt32 x mod 256.
Proof.
  unfold JS.band. rewrite (ToInt32_small (x := 0xff)) by lia.
  change 0xff with (Z.ones 8). rewrite Z.land_ones by lia. reflexivity.
Qed.

Lemma ToInt32_idem (x : Z) : JS.ToInt32 (JS.ToInt32 x) = JS.ToInt32 x.
Proof. apply ToInt32_small. apply ToInt32_range. Qed.

Lemma sar_div (x k : Z) :
  0 <= k < 32 -> JS.sar x k = JS.ToInt32 x / 2 ^ k.
Proof.
  intros Hk. unfold JS.sar, JS.ToUint32.
  rewrite (Z.mod_small k (2 ^ 32)) by lia.
  rewrite (Z.mod_small k 32) by lia.
  apply Z.shiftr_div_pow2. lia.
Qed.

Lemma ToInt32_div_range (x k : Z) :
  0 <= k < 32 -> - 2 ^ 31 <= JS.ToInt32 x / 2 ^ k < 2 ^ 31.
Proof.
  intros Hk. pose proof (ToInt32_range x) as Hx.
  assert (Hp : 0 < 2 ^ k) by (apply Z.pow_pos_nonneg; lia).
  split.
  - apply Z.div_le_lower_bound; [lia | ]. nia.
  - apply Z.div_lt_upper_bound; [lia | ]. nia.
Qed.

(** The three pieces of the mock authenticator data. *)
Lemma createMockAuthenticatorData_layout (options : MockAuthenticatorDataOptions) :
  exists rpIdHash signCountBytes : Uint8Array,
    createMockAuthenticatorData options =
      Ok (rpIdHash ++
          [ToUint8 ((if default true (mock_userPresent options) then 1 else 0) +
                    (if default true (mock_userVerified options) then 4 else 0))] ++
          signCountBytes) /\
    List.length rpIdHash = 32%nat /\
    List.length signCountBytes = 4%nat /\
    big_endian signCountBytes = default 1 (mock_signCount options) mod 2 ^ 32.
Proof.
  destruct options as [up uv sc]. unfold createMockAuthenticatorData.
  cbn [mock_userPresent mock_userVerified mock_signCount]. cbv zeta.
  set (x := default 1 sc).
  set (b0 := JS.band (JS.sar x 24) 255). set (b1 := JS.band (JS.sar x 16) 255).
  set (b2 := JS.band (JS.sar x 8) 255). set (b3 := JS.band x 255).
  set (f := if default true uv then _ else _).
  exists (fill 32 0 (fun i => Z.rem (i * 7 + 13) 256) (Uint8Array_new 32)),
         [ToUint8 b0; ToUint8 b1; ToUint8 b2; ToUint8 b3].
  split; [ | split; [reflexivity | split; [reflexivity | ]]].
  - assert (Ef : ToUint8 f =
                 ToUint8 ((if default true up then 1 else 0) +
                          (if default true uv then 4 else 0))).
    { subst f. destruct (default true up), (default true uv); reflexivity. }
    rewrite <- Ef. reflexivity.
  - unfold big_endian. cbn [fold_left]. rewrite !byte_to_Z_ToUint8.
    subst b0 b1 b2 b3. rewrite !band_0xff, !sar_div by lia.
    rewrite (ToInt32_small (x := JS.ToInt32 x / 2 ^ 24)) by (apply ToInt32_div_range; lia).
    rewrite (ToInt32_small (x := JS.ToInt32 x / 2 ^ 16)) by (apply ToInt32_div_range; lia).
    rewrite (ToInt32_small (x := JS.ToInt32 x / 2 ^ 8)) by (apply ToInt32_div_range; lia).
    rewrite ?Z.mod_mod by lia.
    pose proof (@sar_bytes (JS.ToInt32 x) (ToInt32_range x)) as E.
    replace (x mod 2 ^ 32) with (JS.ToInt32 x mod 2 ^ 32).
    2:{ unfold JS.ToInt32. change (2 ^ 31) with 2147483648.
        change (2 ^ 32) with 4294967296. Z.div_mod_to_equations. lia. }
    rewrite <- E.
    change (2 ^ 24) with 16777216. change (2 ^ 16) with 65536. change (2 ^ 8) with 256.
    lia.
Qed.

(** X27.  [createMockAuthenticatorData] returns 37 bytes for all
    options: bit 0 and bit 2 of byte 32 are the [userPresent] and
    [userVerified] options ([true] when left out), bits 3 and 4 are clear,
    and bytes 33 to 36 hold [signCount] (1 when left out) modulo [2^32],
    big-endian. *)
Theorem createMockAuthenticatorData_flags (options : MockAuthenticatorDataOptions) :
  exists data : Uint8Array,
    createMockAuthenticatorData options = Ok data /\
    len data = 37 /\
    flag data 0 = default true (mock_userPresent options) /\
    flag data 2 = default true (mock_userVerified options) /\
    flag data 3 = false /\ flag data 4 = false /\
    big_endian (slice data 33 37) = default 1 (mock_signCount options) mod 2 ^ 32.
Proof.
  destruct (createMockAuthenticatorData_layout options)
    as (rp & scb & E & Hrp & Hscb & Hbe).
  eexists. split; [exact E | ].
  assert (Hnth : forall fb : byte, nth_error (rp ++ [fb] ++ scb) 32 = Some fb).
  { intros fb. rewrite nth_error_app2 by lia. rewrite Hrp. reflexivity. }
  assert (Hlen : len (rp ++
            [ToUint8 ((if default true (mock_userPresent options) then 1 else 0) +
                      (if default true (mock_userVerified options) then 4 else 0))] ++
            scb) = 37).
  { unfold len. rewrite !length_app, Hrp, Hscb. reflexivity. }
  split; [exact Hlen | ].
  unfold flag. rewrite Hnth.
  split; [ | split; [ | split; [ | split]]];
    try (destruct (default true (mock_userPresent options)),
                  (default true (mock_userVerified options)); reflexivity).
  rewrite <- Hbe.
  set (fb := ToUint8 _) in *.
  pose proof (@slice_from_end (rp ++ [fb]) scb) as S.
  unfold slice_from in S. rewrite <- app_assoc in S. rewrite Hlen in S.
  replace (len (rp ++ [fb])) with 33 in S
    by (unfold len; rewrite length_app, Hrp; reflexivity).
  cbn [app] in S |- *. rewrite S. reflexivity.
Qed.

(* ===================================================================== *)
(** ** varintDecode looks at the bytes it consumes only *)
(* ===================================================================== *)

(** The loop of [varintDecode] on two buffers that agree on the bytes it
    reads. *)
Lemma varintDecode_loop_local (bytes bytes' : Uint8Array) (offset offset' : Z) :
  forall (r : nat) (value shift bytesRead val n : Z),
    shift_room shift = r ->
    0 <= offset + bytesRead ->
    varintDecode_loop bytes offset value shift bytesRead = Ok (val, n) ->
    (forall j, bytesRead <= j < n -> get bytes' (offset' + j) = get bytes (offset + j)) ->
    offset' + n <= len bytes' ->
    varintDecode_loop bytes' offset' value shift bytesRead = Ok (val, n).
Proof.
  induction r as [r IH] using lt_wf_ind.
  intros value shift bytesRead val n Hr Hoff H Hget Hlen.
  destruct (@varintDecode_loop_prefix 0 bytes offset r value shift bytesRead val n
              Hr Hoff H) as (Hn & _).
  rewrite varintDecode_loop_eq in H. rewrite varintDecode_loop_eq.
  destruct (Z_lt_dec (offset + bytesRead) (len bytes)); [ | discriminate].
  destruct (Z_lt_dec (offset' + bytesRead) (len bytes')); [ | lia].
  cbv zeta in H |- *. rewrite (Hget bytesRead) by lia.
  destruct (JS.band (JS.num (get bytes (offset + bytesRead))) 128 =? 0).
  - exact H.
  - destruct (Z_gt_dec (shift + 7) 53); [discriminate | ].
    apply IH with (m := shift_room (shift + 7));
      [subst r; apply shift_room_decr; assumption | reflexivity | lia | exact H
      | | assumption].
    intros j Hj. apply Hget. lia.
Qed.

Lemma get_slice_middle (pre post bytes : Uint8Array) (offset m j : Z) :
  0 <= offset -> 0 <= j < m -> offset + m <= len bytes ->
  get (pre ++ slice bytes offset (offset + m) ++ post) (len pre + j) = get bytes (offset + j).
Proof.
  intros Hoff Hj Hm. pose proof (len_nonneg pre) as Hpre.
  rewrite get_app_r by lia. replace (len pre + j - len pre) with j by lia.
  unfold slice. cbv zeta. rewrite !rel_index_in by lia.
  replace (Z.max (offset + m - offset) 0) with m by lia.
  unfold get. destruct (Z.ltb_spec j 0); [lia | ].
  destruct (Z.ltb_spec (offset + j) 0); [lia | ].
  f_equal.
  rewrite nth_error_app1.
  2:{ rewrite length_firstn, length_skipn. unfold len in Hm. lia. }
  rewrite nth_error_firstn.
  destruct (Nat.ltb_spec (Z.to_nat j) (Z.to_nat m)); [ | lia].
  rewrite nth_error_skipn. f_equal. lia.
Qed.

(** The bytes consumed by a successful read, moved into another buffer. *)
Lemma varintDecode_frame (bytes : Uint8Array) (offset value bytesRead : Z) :
  0 <= offset ->
  varintDecode bytes offset = Ok (value, bytesRead) ->
  forall pre post : Uint8Array,
    varintDecode (pre ++ slice bytes offset (offset + bytesRead) ++ post) (len pre) =
    Ok (value, bytesRead).
Proof.
  intros Hoff H pre post.
  destruct (@varintDecode_in_bounds bytes offset value bytesRead Hoff H) as [Hpos Hin].
  unfold varintDecode in *.
  apply (@varintDecode_loop_local bytes _ offset (len pre) (shift_room 0) 0 0 0
           value bytesRead eq_refl ltac:(lia) H).
  - intros j Hj. apply get_slice_middle; lia.
  - rewrite !len_app, len_slice, !rel_index_in by lia. pose proof (len_nonneg post). lia.
Qed.

(** X2.  A successful [varintDecode] depends on the bytes it consumed
    only: the same bytes, placed between any other bytes, are read to the
    same value and the same length. *)
Theorem varintDecode_local (bytes : Uint8Array) (offset value bytesRead : Z) :
  0 <= offset ->
  varintDecode bytes offset = Ok (value, bytesRead) ->
  forall pre post : Uint8Array,
    varintDecode (pre ++ slice bytes offset (offset + bytesRead) ++ post) (len pre) =
    Ok (value, bytesRead).
Proof. apply varintDecode_frame. Qed.

(** X2, instance: the two bytes of 300, read at offset 1 of one buffer, moved
    into another. *)
Lemma varintDecode_local_witness :
  varintDecode ([xd1; x5d] ++ slice [x00; xac; x02; xff] 1 (1 + 2) ++ [x07])
    (len [xd1; x5d]) =
  Ok (300, 2).
Proof.
  apply (@varintDecode_local [x00; xac; x02; xff] 1 300 2); [lia | reflexivity].
Defined.

(* ===================================================================== *)
(** ** Envelope: a negative length prefix *)
(* ===================================================================== *)

(** A byte string that is read completely from offset 0 is read the same
    way wherever it stands. *)
Lemma reads_as_closed (h : Uint8Array) (n : Z) :
  varintDecode h 0 = Ok (n, len h) -> reads_as h n.
Proof.
  intros H pre post.
  pose proof (@varintDecode_frame h 0 n (len h) ltac:(lia) H pre post) as E.
  replace (slice h 0 (0 + len h)) with h in E; [exact E | ].
  pose proof (@slice_middle [] h []) as S. cbn [app] in S.
  change (len []) with 0 in S. rewrite app_nil_r in S. symmetry. exact S.
Qed.

(** X14.  The decoder does not reject a negative authenticatorData
    length.  The prefix [ff ff ff ff 0f] is read as [-1]; the offset then
    moves one byte back and the last byte of that prefix is read again, as
    the clientDataJSON length 15.  Such an envelope is accepted, with an
    empty authenticatorData, for every 15-byte clientDataJSON and every
    signature of a valid length. *)
Theorem decodeWebAuthnVarsig_negative_length
    (algorithm : SignatureAlgorithm) (c s : Uint8Array) :
  len c = 15 -> signatureLengthOk algorithm (len s) ->
  varintDecode [xff; xff; xff; xff; x0f] 0 = Ok (-1, 5) /\
  decodeWebAuthnVarsig
    (varintEncode (ALGORITHM_TO_MULTICODEC algorithm) ++
     [xff; xff; xff; xff; x0f] ++ c ++ s) =
  Ok {| multicodec := ALGORITHM_TO_MULTICODEC algorithm;
        algorithm := Some algorithm;
        authenticatorData := [];
        clientDataJSON := c; signature := s |}.
Proof.
  intros Hc Hs. split; [reflexivity | ].
  pose proof (len_nonneg s) as Hs0.
  pose proof (multicodec_range algorithm) as [Hmc Hmclen].
  set (m := varintEncode (ALGORITHM_TO_MULTICODEC algorithm)) in *.
  set (v := m ++ [xff; xff; xff; xff; x0f] ++ c ++ s).
  assert (Hlen : len v = 7 + 15 + len s).
  { unfold v. rewrite !len_app, Hmclen, Hc. change (len [xff; xff; xff; xff; x0f]) with 5. lia. }
  assert (R0 : varintDecode v 0 = Ok (ALGORITHM_TO_MULTICODEC algorithm, 2)).
  { pose proof (@varintDecode_encoded [] ([xff; xff; xff; xff; x0f] ++ c ++ s)
                  (ALGORITHM_TO_MULTICODEC algorithm) ltac:(lia)) as E.
    cbn [app] in E. change (len []) with 0 in E. fold m in E.
    rewrite ToInt32_small, Hmclen in E by lia. exact E. }
  assert (R1 : varintDecode v 2 = Ok (-1, 5)).
  { pose proof (@reads_as_closed [xff; xff; xff; xff; x0f] (-1) eq_refl m (c ++ s)) as E.
    rewrite Hmclen in E. exact E. }
  assert (R2 : varintDecode v (2 + 5 + -1) = Ok (15, 1)).
  { pose proof (@reads_as_closed [x0f] 15 eq_refl (m ++ [xff; xff; xff; xff]) (c ++ s)) as E.
    rewrite len_app, Hmclen in E. rewrite <- app_assoc in E. exact E. }
  rewrite (decodeWebAuthnVarsig_header _ R0 R1 R2).
  replace (negb (ALGORITHM_TO_MULTICODEC algorithm =? WEBAUTHN_ED25519) &&
           negb (ALGORITHM_TO_MULTICODEC algorithm =? WEBAUTHN_P256)) with false
    by (destruct algorithm; reflexivity).
  rewrite Hlen.
  destruct (Z.gtb_spec (2 + 5 + -1) (7 + 15 + len s)); [lia | ].
  destruct (Z.gtb_spec (2 + 5 + -1 + 1 + 15) (7 + 15 + len s)); [lia | ].
  cbv zeta. rewrite getAlgorithm_multicodec.
  assert (Ea : slice v (2 + 5) (2 + 5 + -1) = []).
  { unfold slice. cbv zeta. rewrite !rel_index_in by lia.
    change (Z.max (2 + 5 + -1 - (2 + 5)) 0) with 0. reflexivity. }
  assert (Ec : slice v (2 + 5 + -1 + 1) (2 + 5 + -1 + 1 + 15) = c).
  { unfold v.
    pose proof (@slice_middle (m ++ [xff; xff; xff; xff; x0f]) c s) as E.
    rewrite len_app, Hmclen, Hc in E. rewrite <- app_assoc in E. exact E. }
  assert (Es : slice_from v (2 + 5 + -1 + 1 + 15) = s).
  { unfold v.
    pose proof (@slice_from_end (m ++ [xff; xff; xff; xff; x0f] ++ c) s) as E.
    rewrite !len_app, Hmclen, Hc in E. rewrite <- !app_assoc in E. exact E. }
  rewrite Ea, Ec, Es.
  destruct algorithm; cbn [signatureLengthOk] in Hs.
  - rewrite Hs. reflexivity.
  - destruct (Z.ltb_spec (len s) 64); [lia | ].
    destruct (Z.gtb_spec (len s) 74); [lia | ]. reflexivity.
Qed.

(** X14, instance: fifteen bytes [41] as clientDataJSON under the Ed25519
    tag. *)
Lemma decodeWebAuthnVarsig_negative_length_witness :
  varintDecode [xff; xff; xff; xff; x0f] 0 = Ok (-1, 5) /\
  decodeWebAuthnVarsig
    ([xd1; x5d] ++ [xff; xff; xff; xff; x0f] ++ repeat x41 15 ++ Sample.sig 64) =
  Ok {| multicodec := WEBAUTHN_ED25519; algorithm := Some Ed25519;
        authenticatorData := [];
        clientDataJSON := repeat x41 15; signature := Sample.sig 64 |}.
Proof.
  apply (@decodeWebAuthnVarsig_negative_length Ed25519 (repeat x41 15) (Sample.sig 64));
    reflexivity.
Defined.

(* ===================================================================== *)
(** ** The verifier on client data that is JSON but no object *)
(* ===================================================================== *)

(** X28.  Client data that is valid JSON but no object does not fail
    to parse, unless it is [null].  For [null] the verifier reports
    'Verification failed: Failed to parse clientDataJSON' with the
    [TypeError] as its cause; for a number, a string, a boolean or an array
    [parseClientDataJSON] returns four [undefined] fields and the verifier
    reports 'Invalid ceremony type: undefined'. *)
Theorem verifyWebAuthnAssertion_non_object
    (TextDecoder_decode : Uint8Array -> JSString)
    (JSON_parse : JSString -> option JSValue)
    (decoded : DecodedVarsig) (options : VerificationOptions) (v : JSValue) :
  JSON_parse (TextDecoder_decode (clientDataJSON decoded)) = Some v ->
  (v = JNull ->
   parseClientDataJSON TextDecoder_decode JSON_parse (clientDataJSON decoded) =
     Err (FailedToParseClientDataJSON TypeError) /\
   verifyWebAuthnAssertion TextDecoder_decode JSON_parse decoded options =
     Ok (invalid (VerificationFailed (FailedToParseClientDataJSON TypeError)))) /\
  ((forall props, v <> JObject props) -> v <> JNull -> v <> JUndefined ->
   parseClientDataJSON TextDecoder_decode JSON_parse (clientDataJSON decoded) =
     Ok {| type := JUndefined; challenge := JUndefined; origin := JUndefined;
           crossOrigin := JUndefined |} /\
   verifyWebAuthnAssertion TextDecoder_decode JSON_parse decoded options =
     Ok (invalid (InvalidCeremonyType JUndefined))).
Proof.
  intros Hparse. split.
  - intros ->.
    assert (E : parseClientDataJSON TextDecoder_decode JSON_parse (clientDataJSON decoded) =
                Err (FailedToParseClientDataJSON TypeError)).
    { unfold parseClientDataJSON. cbv zeta. rewrite Hparse. reflexivity. }
    split; [exact E | ].
    unfold verifyWebAuthnAssertion. rewrite E. reflexivity.
  - intros Hobj Hnull Hundef.
    assert (E : parseClientDataJSON TextDecoder_decode JSON_parse (clientDataJSON decoded) =
                Ok {| type := JUndefined; challenge := JUndefined; origin := JUndefined;
                      crossOrigin := JUndefined |}).
    { unfold parseClientDataJSON. cbv zeta. rewrite Hparse.
      destruct v; try reflexivity; try contradiction.
      exfalso. exact (Hobj props eq_refl). }
    split; [exact E | ].
    unfold verifyWebAuthnAssertion. rewrite E. reflexivity.
Qed.

(** X28, instances: the JSON texts [null] and [42]. *)
Lemma verifyWebAuthnAssertion_non_object_witness :
  verifyWebAuthnAssertion Sample.TextDecoder_decode
    (fun json => if JSString_eqb json (str "null") then Some JNull else None)
    (Sample.decoded (Sample.authData x05) (str "null")) (Sample.options None) =
  Ok (invalid (VerificationFailed (FailedToParseClientDataJSON TypeError))) /\
  verifyWebAuthnAssertion Sample.TextDecoder_decode
    (fun json => if JSString_eqb json (str "42") then Some (JNumber 42) else None)
    (Sample.decoded (Sample.authData x05) (str "42")) (Sample.options None) =
  Ok (invalid (InvalidCeremonyType JUndefined)).
Proof.
  split.
  - refine (proj2 (proj1 (@verifyWebAuthnAssertion_non_object Sample.TextDecoder_decode
              (fun json => if JSString_eqb json (str "null") then Some JNull else None)
              (Sample.decoded (Sample.authData x05) (str "null")) (Sample.options None)
              JNull eq_refl) eq_refl)).
  - refine (proj2 (proj2 (@verifyWebAuthnAssertion_non_object Sample.TextDecoder_decode
              (fun json => if JSString_eqb json (str "42") then Some (JNumber 42) else None)
              (Sample.decoded (Sample.authData x05) (str "42")) (Sample.options None)
              (JNumber 42) eq_refl) _ _ _));
      [intros props | | ]; discriminate.
Defined.
